(** * GPV-gif: candidate discovery, retention and frame selection

    A shallow embedding of the core of the GPV cloud-animation service
    ([scripts/utils.py], [scripts/download_gpv.py],
    [scripts/generate_cloud_gif.py]) together with the properties its
    design document states about it.

    Conventions of the embedding.
    - Python [int] is [Z]; Python [str] is [string], read as a sequence of
      code points below 256; slices are taken on the character list.
    - A Python call either returns or raises: [py A].  [try]/[except] is
      [catch].
    - The cache directory is an association list from file names to nodes,
      in [os.listdir] order.
    - The network and the clock are inputs: a response per request, the
      current instant as an argument. *)

From Stdlib Require Import ZArith List String Ascii Bool Lia.
From Stdlib Require Import DecimalString Permutation Sorted.
Import ListNotations.

Open Scope string_scope.
Open Scope list_scope.
Open Scope Z_scope.

Infix "+++" := String.append (right associativity, at level 60).

(** ** Python results *)

Inductive exn : Type :=
| ValueError
| IndexError
| OverflowError
| OSError
| Timeout
| HTTPError
| RequestException.

Inductive py (A : Type) : Type :=
| Ret (a : A)
| Raise (e : exn).

Arguments Ret {A} a.
Arguments Raise {A} e.

Definition bind {A B : Type} (m : py A) (k : A -> py B) : py B :=
  match m with
  | Ret a => k a
  | Raise e => Raise e
  end.

Notation "x <- m ;; k" := (bind m (fun x => k))
  (at level 61, m at next level, right associativity).

Definition exn_eqb (a b : exn) : bool :=
  match a, b with
  | ValueError, ValueError | IndexError, IndexError
  | OverflowError, OverflowError | OSError, OSError
  | Timeout, Timeout | HTTPError, HTTPError
  | RequestException, RequestException => true
  | _, _ => false
  end.

(** [try: m except (e1, e2, ...): return dflt] *)
Definition catch {A : Type} (handled : list exn) (m : py A) (dflt : A) : py A :=
  match m with
  | Ret a => Ret a
  | Raise e => if existsb (exn_eqb e) handled then Ret dflt else Raise e
  end.

(** ** Strings *)

Definition chars (s : string) : list ascii := list_ascii_of_string s.

(** [s[a:b]] for [0 <= a <= b]; Python clips a slice to the string. *)
Definition slice (a b : nat) (l : list ascii) : list ascii :=
  firstn (b - a) (skipn a l).

Fixpoint starts_with (l p : list ascii) {struct p} : bool :=
  match p, l with
  | [], _ => true
  | c :: p', d :: l' => Ascii.eqb c d && starts_with l' p'
  | _ :: _, [] => false
  end.

Definition startswith (s p : string) : bool := starts_with (chars s) (chars p).

Definition endswith (s p : string) : bool :=
  starts_with (rev (chars s)) (rev (chars p)).

(** *** [int(str)]

    CPython's [PyLong_FromString] in base 10: optional surrounding white
    space, an optional sign, then decimal digits in which single underscores
    may separate digits.  Anything else is a [ValueError], and so is a
    literal of more than 4300 digits (the default
    [sys.int_max_str_digits]). *)

Definition is_space (c : ascii) : bool :=
  let n := N_of_ascii c in
  ((9 <=? n) && (n <=? 13) || (n =? 32) || (n =? 133) || (n =? 160))%N.

Definition digit_val (c : ascii) : option Z :=
  let n := N_of_ascii c in
  if ((48 <=? n) && (n <=? 57))%N then Some (Z.of_N n - 48) else None.

Fixpoint lstrip (l : list ascii) : list ascii :=
  match l with
  | c :: r => if is_space c then lstrip r else l
  | [] => []
  end.

Definition strip (l : list ascii) : list ascii := rev (lstrip (rev (lstrip l))).

Inductive scan : Type := AtStart | AfterDigit | AfterUnderscore.

Fixpoint int_digits (acc : Z) (st : scan) (l : list ascii) : option Z :=
  match l with
  | [] => match st with AfterDigit => Some acc | _ => None end
  | c :: r =>
      match digit_val c with
      | Some d => int_digits (10 * acc + d) AfterDigit r
      | None =>
          if Ascii.eqb c "_"
          then match st with
               | AfterDigit => int_digits acc AfterUnderscore r
               | _ => None
               end
          else None
      end
  end.

(** The digits of a literal, underscores not counted. *)
Definition digit_count (l : list ascii) : Z :=
  Z.of_nat (List.length
              (filter (fun c => match digit_val c with
                                | Some _ => true
                                | None => false
                                end) l)).

Definition py_int (l : list ascii) : py Z :=
  let body := strip l in
  let '(sign, ds) :=
    match body with
    | c :: r => if Ascii.eqb c "+" then (1, r)
                else if Ascii.eqb c "-" then (-1, r)
                else (1, body)
    | [] => (1, body)
    end in
  match int_digits 0 AtStart ds with
  | Some v => if 4300 <? digit_count ds then Raise ValueError
              else Ret (sign * v)
  | None => Raise ValueError
  end.

(** *** Integers as floats

    [float(n)], as in [n * 1.1], raises [OverflowError] when [n] rounds
    beyond the largest double; the true division [n / (1024 * 1024)] does
    when the quotient does. *)

Definition float_limit : Z := 2 ^ 1024 - 2 ^ 970.

Definition float_overflows (n : Z) : bool := float_limit <=? Z.abs n.

Definition mb_overflows (n : Z) : bool :=
  float_limit * (1024 * 1024) <=? Z.abs n.

(** *** Formatting integers *)

Definition decimal (n : Z) : string := NilZero.string_of_int (Z.to_int n).

Fixpoint zeros (k : nat) : string :=
  match k with
  | O => EmptyString
  | S k' => String "0" (zeros k')
  end.

(** [f"{n:0wd}"] for [n >= 0]: pad with zeros on the left up to width [w]. *)
Definition zfill (w : nat) (n : Z) : string :=
  let s := decimal n in
  zeros (w - String.length s) +++ s.

(** ** Datetimes

    A naive [datetime]: the fields the object stores. *)

Record datetime : Type := mkdt {
  year : Z; month : Z; day : Z;
  hour : Z; minute : Z; second : Z; microsecond : Z
}.

Definition is_leap (y : Z) : bool :=
  (y mod 4 =? 0) && (negb (y mod 100 =? 0) || (y mod 400 =? 0)).

Definition days_in_month (y m : Z) : Z :=
  if m =? 2 then (if is_leap y then 29 else 28)
  else if (m =? 4) || (m =? 6) || (m =? 9) || (m =? 11) then 30
  else 31.

Definition date_ok (y m d : Z) : bool :=
  (1 <=? y) && (y <=? 9999) && (1 <=? m) && (m <=? 12) &&
  (1 <=? d) && (d <=? days_in_month y m).

Definition dt_valid (t : datetime) : bool :=
  date_ok (year t) (month t) (day t) &&
  (0 <=? hour t) && (hour t <=? 23) &&
  (0 <=? minute t) && (minute t <=? 59) &&
  (0 <=? second t) && (second t <=? 59) &&
  (0 <=? microsecond t) && (microsecond t <=? 999999).

(** [datetime(year, month, day, hour)] *)
Definition new_datetime (y m d h : Z) : py datetime :=
  if date_ok y m d && (0 <=? h) && (h <=? 23)
  then Ret (mkdt y m d h 0 0 0)
  else Raise ValueError.

(** ** Filename/Time codec ([utils.py]) *)

Definition parse_filename_body (filename : string) : py (option datetime) :=
  if negb (startswith filename "MSM") || negb (endswith filename "S.nc")
  then Ret None
  else
    let datetime_str := slice 3 13 (chars filename) in
    y <- py_int (slice 0 4 datetime_str) ;;
    m <- py_int (slice 4 6 datetime_str) ;;
    d <- py_int (slice 6 8 datetime_str) ;;
    h <- py_int (slice 8 10 datetime_str) ;;
    t <- new_datetime y m d h ;;
    Ret (Some t).

Definition parse_filename (filename : string) : py (option datetime) :=
  catch [ValueError; IndexError] (parse_filename_body filename) None.

(** [dt.strftime('%Y%m%d')]: the C library does not pad the year, so a year
    below 1000 comes out in fewer than four digits. *)
Definition strftime_Ymd (t : datetime) : string :=
  decimal (year t) +++ zfill 2 (month t) +++ zfill 2 (day t).

Definition format_datetime_for_filename (t : datetime) : string * string :=
  (strftime_Ymd t, zfill 2 (hour t)).

(** [f"MSM{date_str}{hour_str}S.nc"] *)
Definition msm_filename (t : datetime) : string :=
  let '(date_str, hour_str) := format_datetime_for_filename t in
  "MSM" +++ date_str +++ hour_str +++ "S.nc".

(** *** Ordering and arithmetic on datetimes *)

Definition dt_fields (t : datetime) : list Z :=
  [year t; month t; day t; hour t; minute t; second t; microsecond t].

Fixpoint lex_cmp (a b : list Z) : comparison :=
  match a, b with
  | [], [] => Eq
  | [], _ :: _ => Lt
  | _ :: _, [] => Gt
  | x :: a', y :: b' =>
      match x ?= y with
      | Eq => lex_cmp a' b'
      | c => c
      end
  end.

Definition dt_cmp (a b : datetime) : comparison :=
  lex_cmp (dt_fields a) (dt_fields b).

Definition dt_ltb (a b : datetime) : bool :=
  match dt_cmp a b with Lt => true | _ => false end.

Definition dt_leb (a b : datetime) : bool :=
  match dt_cmp a b with Gt => false | _ => true end.

(** [t - timedelta(days=1)]; below year 1 Python raises [OverflowError]. *)
Definition sub_day (t : datetime) : py datetime :=
  if 1 <? day t then
    Ret (mkdt (year t) (month t) (day t - 1)
              (hour t) (minute t) (second t) (microsecond t))
  else if 1 <? month t then
    Ret (mkdt (year t) (month t - 1) (days_in_month (year t) (month t - 1))
              (hour t) (minute t) (second t) (microsecond t))
  else if 1 <? year t then
    Ret (mkdt (year t - 1) 12 31
              (hour t) (minute t) (second t) (microsecond t))
  else Raise OverflowError.

(** [t - timedelta(hours=1)] *)
Definition sub_hour (t : datetime) : py datetime :=
  if 0 <? hour t then
    Ret (mkdt (year t) (month t) (day t)
              (hour t - 1) (minute t) (second t) (microsecond t))
  else
    p <- sub_day t ;;
    Ret (mkdt (year p) (month p) (day p)
              23 (minute p) (second p) (microsecond p)).

(** [t - timedelta(hours=n)] *)
Fixpoint sub_hours (t : datetime) (n : nat) : py datetime :=
  match n with
  | O => Ret t
  | S n' => p <- sub_hour t ;; sub_hours p n'
  end.

(** [t.replace(hour=h, minute=0, second=0, microsecond=0)]: the hour is read
    as a C [int] first, which is an [OverflowError] outside 32 bits. *)
Definition replace_hour (t : datetime) (h : Z) : py datetime :=
  if (h <? - 2 ^ 31) || (2 ^ 31 <=? h) then Raise OverflowError
  else if (0 <=? h) && (h <=? 23)
  then Ret (mkdt (year t) (month t) (day t) h 0 0 0)
  else Raise ValueError.

(** ** Configuration ([config.yaml])

    [request_interval] and [retry_delay] are whole seconds that [time.sleep]
    accepts. *)

Record config : Type := mkconfig {
  base_url : string;
  forecast_hours : list Z;
  data_delay_hours : nat;
  user_agent : string;
  timeout : Z;
  request_interval : Z;
  max_retries : nat;
  retry_delay : Z
}.

(** ** Candidate URL generator ([download_gpv.py]) *)

(** The [for fh in reversed(forecast_hours) ... else ...] block. *)
Definition round_to_cycle (hours : list Z) (check_time : datetime)
  : py datetime :=
  match find (fun fh => fh <=? hour check_time) (rev hours) with
  | Some fh => replace_hour check_time fh
  | None => p <- sub_day check_time ;; replace_hour p 21
  end.

Definition candidate_url (base : string) (forecast_time : datetime) : string :=
  let '(date_str, hour_str) := format_datetime_for_filename forecast_time in
  base +++ date_str +++ "/MSM" +++ date_str +++ hour_str +++ "S.nc".

Definition str_in (u : string) (l : list string) : bool :=
  existsb (String.eqb u) l.

(** The instant the [i]-th iteration looks at, rounded to its cycle. *)
Definition forecast_time_at (cfg : config) (current_time : datetime) (i : nat)
  : py datetime :=
  check_time <- sub_hours current_time (i * 3 + data_delay_hours cfg) ;;
  round_to_cycle (forecast_hours cfg) check_time.

Fixpoint candidates_loop (cfg : config) (current_time : datetime)
         (idxs : list nat) (urls : list string) : py (list string) :=
  match idxs with
  | [] => Ret urls
  | i :: rest =>
      forecast_time <- forecast_time_at cfg current_time i ;;
      let url := candidate_url (base_url cfg) forecast_time in
      candidates_loop cfg current_time rest
        (if str_in url urls then urls else urls ++ [url])
  end.

Definition num_intervals (hours_back : Z) : nat := Z.to_nat (hours_back / 3 + 2).

Definition generate_candidate_urls (cfg : config) (current_time : datetime)
           (hours_back : Z) : py (list string) :=
  candidates_loop cfg current_time (seq 0 (num_intervals hours_back)) [].

(** ** Sizes for the console ([utils.py]) *)

(** [get_file_size_mb(size_bytes)]: the text goes to the console and is not
    kept; the division [size_bytes / (1024 * 1024)] raises [OverflowError]
    when the quotient is beyond the floats. *)
Definition get_file_size_mb (size_bytes : option Z) : py unit :=
  match size_bytes with
  | None => Ret tt
  | Some n => if mb_overflows n then Raise OverflowError else Ret tt
  end.

(** ** Remote existence prober ([download_gpv.py]) *)

(** What a request comes back with. *)
Inductive http_reply : Type :=
| Reply (status_code : Z) (content_length : option string)
| Fails (e : exn).

Definition request_exceptions : list exn := [Timeout; HTTPError; RequestException].

Definition header_int (h : option string) : py Z :=
  match h with
  | Some s => py_int (chars s)
  | None => Ret 0
  end.

Definition check_file_exists (reply : http_reply) : py (bool * option Z) :=
  catch request_exceptions
    (match reply with
     | Fails e => Raise e
     | Reply status_code content_length =>
         if status_code =? 200 then
           file_size <- header_int content_length ;;
           Ret (true, Some file_size)
         else Ret (false, None)
     end)
    (false, None).

Inductive event : Type :=
| Probe (url : string)
| Sleep (seconds : Z).

(** The [for i, url in enumerate(urls)] loop; [n] is [len(urls)]. *)
Fixpoint probe_loop (net : string -> http_reply) (interval : Z) (n : nat)
         (i : nat) (rest : list string)
  : list event * py (option string * option Z) :=
  match rest with
  | [] => ([], Ret (None, None))
  | url :: rest' =>
      match check_file_exists (net url) with
      | Raise e => ([Probe url], Raise e)
      | Ret (true, file_size) =>
          match get_file_size_mb file_size with
          | Raise e => ([Probe url], Raise e)
          | Ret _ => ([Probe url], Ret (Some url, file_size))
          end
      | Ret (false, _) =>
          let pause :=
            if Z.of_nat i <? Z.of_nat n - 1 then [Sleep interval] else [] in
          let '(tr, r) := probe_loop net interval n (S i) rest' in
          (Probe url :: pause ++ tr, r)
      end
  end.

Definition probe_candidates (cfg : config) (net : string -> http_reply)
           (urls : list string) : list event * py (option string * option Z) :=
  probe_loop net (request_interval cfg) (List.length urls) 0 urls.

Definition find_latest_file (cfg : config) (current_time : datetime)
           (net : string -> http_reply)
  : list event * py (option string * option Z) :=
  match generate_candidate_urls cfg current_time 12 with
  | Raise e => ([], Raise e)
  | Ret urls => probe_candidates cfg net urls
  end.

(** ** The cache directory *)

Inductive node : Type :=
| File (data : list Byte.byte) (removable : bool)
| Dir (st_size : Z).

(** Entries in [os.listdir] order; names are unique in a directory. *)
Definition directory : Type := list (string * node).

Definition names (d : directory) : list string := map fst d.

Fixpoint lookup (d : directory) (name : string) : option node :=
  match d with
  | [] => None
  | (n, x) :: d' => if String.eqb n name then Some x else lookup d' name
  end.

Definition node_size (x : node) : Z :=
  match x with
  | File data _ => Z.of_nat (List.length data)
  | Dir sz => sz
  end.

Definition os_path_exists (d : directory) (name : string) : bool :=
  match lookup d name with Some _ => true | None => false end.

Definition os_path_isfile (d : directory) (name : string) : bool :=
  match lookup d name with Some (File _ _) => true | _ => false end.

Definition os_path_getsize (d : directory) (name : string) : py Z :=
  match lookup d name with
  | Some x => Ret (node_size x)
  | None => Raise OSError
  end.

Definition delete (d : directory) (name : string) : directory :=
  filter (fun e => negb (String.eqb (fst e) name)) d.

(** [os.remove]: fails on a missing entry, on a directory and on a file the
    process may not unlink. *)
Definition os_remove (d : directory) (name : string) : py directory :=
  match lookup d name with
  | Some (File _ true) => Ret (delete d name)
  | _ => Raise OSError
  end.

Fixpoint replace_data (d : directory) (name : string) (data : list Byte.byte)
  : directory :=
  match d with
  | [] => []
  | (n, x) :: d' =>
      if String.eqb n name
      then (n, match x with File _ r => File data r | Dir s => Dir s end) :: d'
      else (n, x) :: replace_data d' name data
  end.

(** [open(name, 'wb')] followed by the writes and the close. *)
Definition write_file (d : directory) (name : string) (data : list Byte.byte)
  : py directory :=
  match lookup d name with
  | Some (Dir _) => Raise OSError
  | Some (File _ _) => Ret (replace_data d name data)
  | None => Ret (d ++ [(name, File data true)])
  end.

(** ** Retention reconciler ([utils.py]) *)

(** The scan of [cleanup_old_files]: [(file_datetime, filename)] for every
    regular [.nc] file whose name parses. *)
Fixpoint collect_nc (d : directory) (listing : directory)
  : py (list (datetime * string)) :=
  match listing with
  | [] => Ret []
  | (filename, _) :: rest =>
      if negb (endswith filename ".nc") then collect_nc d rest
      else if negb (os_path_isfile d filename) then collect_nc d rest
      else
        file_datetime <- parse_filename filename ;;
        tl <- collect_nc d rest ;;
        match file_datetime with
        | Some t => Ret ((t, filename) :: tl)
        | None => Ret tl
        end
  end.

(** [list.sort(reverse=True, key=...)] is stable: entries with equal keys
    keep their order. *)
Fixpoint insert_desc (x : datetime * string) (l : list (datetime * string))
  : list (datetime * string) :=
  match l with
  | [] => [x]
  | y :: l' =>
      if dt_ltb (fst x) (fst y) then y :: insert_desc x l' else x :: l
  end.

Fixpoint sort_desc (l : list (datetime * string)) : list (datetime * string) :=
  match l with
  | [] => []
  | x :: l' => insert_desc x (sort_desc l')
  end.

(** The deletion loop; a [getsize] or [remove] that raises [OSError], the
    only exception they raise, skips the file. *)
Fixpoint delete_files (d : directory) (todo : list (datetime * string))
         (deleted_count freed_bytes : Z) : directory * (Z * Z) :=
  match todo with
  | [] => (d, (deleted_count, freed_bytes))
  | (_, filename) :: rest =>
      match (file_size <- os_path_getsize d filename ;;
             d' <- os_remove d filename ;;
             Ret (d', file_size)) with
      | Ret (d', file_size) =>
          delete_files d' rest (deleted_count + 1) (freed_bytes + file_size)
      | Raise _ => delete_files d rest deleted_count freed_bytes
      end
  end.

(** [cleanup_old_files] on a directory that exists: the new directory and
    [(deleted_count, freed_bytes)]. *)
Definition cleanup_old_files (d : directory) (keep_latest : bool)
  : directory * py (Z * Z) :=
  match collect_nc d d with
  | Raise e => (d, Raise e)
  | Ret nc_files =>
      match nc_files with
      | [] => (d, Ret (0, 0))
      | _ :: _ =>
          let sorted := sort_desc nc_files in
          let files_to_delete := if keep_latest then tl sorted else sorted in
          let '(d', r) := delete_files d files_to_delete 0 0 in
          (d', Ret r)
      end
  end.

(** ** Resilient fetcher ([download_gpv.py])

    The progress bar, the messages and the pause between attempts are left
    out; the outcome of the disk-space check is an input of each attempt,
    the product [total_size * 1.1] handed to it is computed. *)

(** How the body of a response ends while it is streamed to disk. *)
Inductive stream_end : Type :=
| StreamDone
| StreamTimeout
| StreamBroken
| WriteFails.

(** What one download attempt meets: [requests.get] raising, or a response
    with its status, its Content-Length header, the outcome of the disk-space
    check, the chunks received and how the stream ends. *)
Inductive attempt : Type :=
| GetRaises (e : exn)
| Response (status_code : Z) (content_length : option string)
           (space_ok : bool) (chunks : list (list Byte.byte))
           (ending : stream_end).

(** How one pass through the body of the [for attempt] loop ends. *)
Inductive step : Type :=
| Return (b : bool)
| Continue
| Retry
| Escapes (e : exn).

(** The [except] clauses of [download_file], in their order. *)
Definition handle (e : exn) : step :=
  match e with
  | Timeout => Retry
  | HTTPError => Return false
  | RequestException => Retry
  | OSError => Return false
  | _ => Escapes e
  end.

(** The [try] block for attempt number [n]. *)
Definition try_download (max : nat) (n : nat) (a : attempt)
           (save_path : string) (d : directory) : directory * step :=
  match a with
  | GetRaises e => (d, handle e)
  | Response status_code content_length space_ok chunks ending =>
      if (400 <=? status_code) && (status_code <? 600)
      then (d, handle HTTPError)
      else
        match header_int content_length with
        | Raise e => (d, handle e)
        | Ret total_size =>
            if float_overflows total_size then (d, handle OverflowError)
            else if negb space_ok then (d, Return false)
            else
              match write_file d save_path (List.concat chunks) with
              | Raise e => (d, handle e)
              | Ret d1 =>
                  match ending with
                  | StreamTimeout => (d1, handle Timeout)
                  | StreamBroken => (d1, handle RequestException)
                  | WriteFails => (d1, handle OSError)
                  | StreamDone =>
                      match os_path_getsize d1 save_path with
                      | Raise e => (d1, handle e)
                      | Ret downloaded_size =>
                          if (0 <? total_size)
                             && negb (downloaded_size =? total_size)
                          then
                            if (n <? max)%nat then
                              match os_remove d1 save_path with
                              | Ret d2 => (d2, Continue)
                              | Raise e => (d1, handle e)
                              end
                            else (d1, Return false)
                          else (d1, Return true)
                      end
                  end
              end
        end
  end.

(** The loop, from attempt [n] on, with [fuel] attempts left. *)
Fixpoint download_loop (max : nat) (fuel : nat) (n : nat)
         (env : nat -> attempt) (save_path : string) (d : directory)
  : directory * py bool :=
  match fuel with
  | O => (d, Ret false)
  | S fuel' =>
      match try_download max n (env n) save_path d with
      | (d', Return b) => (d', Ret b)
      | (d', Escapes e) => (d', Raise e)
      | (d', Continue) => download_loop max fuel' (S n) env save_path d'
      | (d', Retry) =>
          if (n <? max)%nat
          then download_loop max fuel' (S n) env save_path d'
          else if os_path_exists d' save_path then
                 match os_remove d' save_path with
                 | Ret d'' => (d'', Ret false)
                 | Raise e => (d', Raise e)
                 end
               else (d', Ret false)
      end
  end.

Definition download_file (cfg : config) (env : nat -> attempt)
           (save_path : string) (d : directory) : directory * py bool :=
  download_loop (max_retries cfg) (max_retries cfg) 1 env save_path d.

(** ** [download_auto] *)

(** [url.split('/')[-1]] *)
Fixpoint last_segment (l cur : list ascii) : list ascii :=
  match l with
  | [] => cur
  | c :: r => if Ascii.eqb c "/" then last_segment r [] else last_segment r (cur ++ [c])
  end.

Definition url_filename (url : string) : string :=
  string_of_list_ascii (last_segment (chars url) []).

Definition size_matches (existing_size : Z) (file_size : option Z) : bool :=
  match file_size with
  | Some n => existing_size =? n
  | None => false
  end.

(** The part of [download_auto] after the cache check: clean, fetch, clean
    again, look the file up for the log. *)
Definition fetch_and_reconcile (cfg : config) (env : nat -> attempt)
           (filename : string) (d : directory) : directory * py bool :=
  match cleanup_old_files d false with
  | (d1, Raise e) => (d1, Raise e)
  | (d1, Ret _) =>
      match download_file cfg env filename d1 with
      | (d2, Raise e) => (d2, Raise e)
      | (d2, Ret false) => (d2, Ret false)
      | (d2, Ret true) =>
          match cleanup_old_files d2 true with
          | (d3, Raise e) => (d3, Raise e)
          | (d3, Ret _) =>
              match os_path_getsize d3 filename with
              | Raise e => (d3, Raise e)
              | Ret _ => (d3, Ret true)
              end
          end
      end
  end.

(** [found] is what [find_latest_file] returned; the directory is
    [raw_data_dir], which [ensure_directory] has created. *)
Definition download_found (cfg : config) (found : option string * option Z)
           (env : nat -> attempt) (d : directory) : directory * py bool :=
  match found with
  | (None, _) => (d, Ret false)
  | (Some url, file_size) =>
      if String.eqb url "" then (d, Ret false)
      else
        let filename := url_filename url in
        match lookup d filename with
        | Some x =>
            if size_matches (node_size x) file_size then
              match cleanup_old_files d true with
              | (d1, Raise e) => (d1, Raise e)
              | (d1, Ret _) => (d1, Ret true)
              end
            else fetch_and_reconcile cfg env filename d
        | None => fetch_and_reconcile cfg env filename d
        end
  end.

Definition download_auto (cfg : config) (current_time : datetime)
           (net : string -> http_reply) (env : nat -> attempt) (d : directory)
  : directory * py bool :=
  match snd (find_latest_file cfg current_time net) with
  | Raise e => (d, Raise e)
  | Ret found => download_found cfg found env d
  end.

(** ** Temporal frame selector ([generate_cloud_gif.py]) *)

(** Timestamps are [datetime64[ns]] wall-clock values. *)
Definition hours_ns (h : Z) : Z := h * 3600 * 1000000000.

(** [jst_now.tz_convert('UTC').tz_localize(None)]: Asia/Tokyo is UTC+9. *)
Definition current_time_utc (jst_now : Z) : Z := jst_now - hours_ns 9.

Fixpoint isel {A : Type} (l : list A) (mask : list bool) : list A :=
  match l, mask with
  | x :: l', b :: mask' => if b then x :: isel l' mask' else isel l' mask'
  | _, _ => []
  end.

Definition select_times (times : list Z) (jst_now : Z) : list Z :=
  if (0 <? List.length times)%nat then
    let future_mask := map (fun t => current_time_utc jst_now <=? t) times in
    if (0 <? List.length (filter (fun b => b) future_mask))%nat
    then isel times future_mask
    else times
  else times.

(** ** Animation encoder ([generate_cloud_gif.py]) *)

(** The working directory holds the temporary frame directories; the output
    directory holds the animations, each with its frames in order. *)
Record workspace : Type := mkws {
  temp_dirs : list (string * list string);
  artifacts : list (string * list string)
}.

Fixpoint dir_files (dirs : list (string * list string)) (name : string)
  : option (list string) :=
  match dirs with
  | [] => None
  | (n, fs) :: rest => if String.eqb n name then Some fs else dir_files rest name
  end.

Definition dir_exists (w : workspace) (name : string) : bool :=
  match dir_files (temp_dirs w) name with Some _ => true | None => false end.

Fixpoint set_files {A : Type} (dirs : list (string * A)) (name : string) (fs : A)
  : list (string * A) :=
  match dirs with
  | [] => [(name, fs)]
  | (n, old) :: rest =>
      if String.eqb n name then (n, fs) :: rest
      else (n, old) :: set_files rest name fs
  end.

Fixpoint drop_dir {A : Type} (dirs : list (string * A)) (name : string)
  : list (string * A) :=
  match dirs with
  | [] => []
  | (n, fs) :: rest =>
      if String.eqb n name then drop_dir rest name
      else (n, fs) :: drop_dir rest name
  end.

(** [os.makedirs(temp_dir, exist_ok=True)] *)
Definition makedirs (w : workspace) (name : string) : workspace :=
  match dir_files (temp_dirs w) name with
  | Some _ => w
  | None => mkws (temp_dirs w ++ [(name, [])]) (artifacts w)
  end.

(** [plt.savefig(f'{temp_dir}/cloud_{t_idx:03d}.png')] *)
Definition frame_name (t_idx : nat) : string :=
  "cloud_" +++ zfill 3 (Z.of_nat t_idx) +++ ".png".

Definition savefig (w : workspace) (temp_dir file : string) : workspace :=
  match dir_files (temp_dirs w) temp_dir with
  | Some fs =>
      mkws (set_files (temp_dirs w) temp_dir
              (if str_in file fs then fs else fs ++ [file]))
           (artifacts w)
  | None => w
  end.

Fixpoint render_frames (w : workspace) (temp_dir : string) (idxs : list nat)
  : workspace :=
  match idxs with
  | [] => w
  | t_idx :: rest =>
      render_frames (savefig w temp_dir (frame_name t_idx)) temp_dir rest
  end.

Fixpoint insert_str (x : string) (l : list string) : list string :=
  match l with
  | [] => [x]
  | y :: l' => if String.leb x y then x :: l else y :: insert_str x l'
  end.

Definition sorted_str (l : list string) : list string :=
  fold_right insert_str [] l.

(** [sorted(glob.glob(f'{temp_dir}/cloud_*.png'))] *)
Definition glob_frames (w : workspace) (temp_dir : string) : list string :=
  match dir_files (temp_dirs w) temp_dir with
  | Some fs =>
      sorted_str
        (filter (fun f => startswith f "cloud_" && endswith f ".png"
                          && (10 <=? String.length f)%nat) fs)
  | None => []
  end.

(** [shutil.rmtree(temp_dir)] *)
Definition rmtree (w : workspace) (name : string) : py workspace :=
  match dir_files (temp_dirs w) name with
  | Some _ => Ret (mkws (drop_dir (temp_dirs w) name) (artifacts w))
  | None => Raise OSError
  end.

Record gif_config : Type := mkgif {
  name : string;
  filename : string;
  layers : list string
}.

Definition gif_configs : list gif_config :=
  [ mkgif "all_layers" "cloud_all_layers.gif" ["low"; "mid"; "upper"];
    mkgif "low_only" "cloud_low_only.gif" ["low"];
    mkgif "mid_only" "cloud_mid_only.gif" ["mid"];
    mkgif "upper_only" "cloud_upper_only.gif" ["upper"] ].

(** One pass of [for config in gif_configs] over [n_times] time steps. *)
Definition encode_variant (n_times : nat) (c : gif_config) (w : workspace)
  : workspace * py string :=
  let temp_dir := "cloud_temp_" +++ name c in
  let w1 := makedirs w temp_dir in
  let w2 := render_frames w1 temp_dir (seq 0 n_times) in
  let images := glob_frames w2 temp_dir in
  match images with
  | [] => (w2, Raise IndexError)
  | _ :: _ =>
      let w3 := mkws (temp_dirs w2) (set_files (artifacts w2) (filename c) images) in
      match rmtree w3 temp_dir with
      | Ret w4 => (w4, Ret (filename c))
      | Raise e => (w3, Raise e)
      end
  end.

Fixpoint encode_all (n_times : nat) (cs : list gif_config) (w : workspace)
         (generated_files : list (string * string))
  : workspace * py (list (string * string)) :=
  match cs with
  | [] => (w, Ret generated_files)
  | c :: rest =>
      match encode_variant n_times c w with
      | (w', Raise e) => (w', Raise e)
      | (w', Ret output_path) =>
          encode_all n_times rest w' (set_files generated_files (name c) output_path)
      end
  end.

(** [generate_cloud_gifs] from the filtered time axis on. *)
Definition generate_cloud_gifs (times : list Z) (jst_now : Z) (w : workspace)
  : workspace * py (list (string * string)) :=
  let region_time := select_times times jst_now in
  encode_all (List.length region_time) gif_configs w [].

(** ** [get_nearest_forecast_time] ([utils.py]) *)

Definition get_forecast_times : list Z := [0; 3; 6; 9; 12; 15; 18; 21].

(** The loop starts from [forecast_hour = 0] and stops at the first hit. *)
Definition get_nearest_forecast_time (dt : datetime) (delay_hours : nat)
  : py datetime :=
  adjusted_dt <- sub_hours dt delay_hours ;;
  let current_hour := hour adjusted_dt in
  let forecast_hour :=
    match find (fun fh => fh <=? current_hour) (rev get_forecast_times) with
    | Some fh => fh
    | None => 0
    end in
  replace_hour adjusted_dt forecast_hour.

(** ** [get_latest_nc_file] ([generate_cloud_gif.py]) *)

(** [glob.glob(os.path.join(data_dir, 'MSM*.nc'))] on a case-sensitive file
    system: the entries of the directory, files and directories alike,
    whose names match. *)
Definition glob_msm (name : string) : bool :=
  startswith name "MSM" && endswith name ".nc"
  && (6 <=? String.length name)%nat.

(** [sorted(nc_files)[-1]], by name: all paths share the directory. *)
Definition get_latest_nc_file (d : directory) : option string :=
  match filter glob_msm (names d) with
  | [] => None
  | nc_files => Some (last (sorted_str nc_files) "")
  end.

(** ** [download_manual] ([download_gpv.py]) *)

Definition in_range (lo hi : ascii) (c : ascii) : bool :=
  (N_of_ascii lo <=? N_of_ascii c)%N && (N_of_ascii c <=? N_of_ascii hi)%N.

Definition is_digit (c : ascii) : bool :=
  match digit_val c with Some _ => true | None => false end.

(** One alternative of a regular expression group: the text it takes and
    what is left. *)
Definition alternative : Type := list ascii -> option (list ascii * list ascii).

Definition two (p q : ascii -> bool) : alternative :=
  fun l =>
    match l with
    | a :: b :: r => if p a && q b then Some ([a; b], r) else None
    | _ => None
    end.

Definition one (p : ascii -> bool) : alternative :=
  fun l =>
    match l with
    | a :: r => if p a then Some ([a], r) else None
    | _ => None
    end.

(** [%m]: [1[0-2]|0[1-9]|[1-9]] *)
Definition month_alternatives : list alternative :=
  [ two (Ascii.eqb "1") (in_range "0" "2");
    two (Ascii.eqb "0") (in_range "1" "9");
    one (in_range "1" "9") ].

(** [%d]: [3[0-1]|[1-2]\d|0[1-9]|[1-9]| [1-9]] *)
Definition day_alternatives : list alternative :=
  [ two (Ascii.eqb "3") (in_range "0" "1");
    two (in_range "1" "2") is_digit;
    two (Ascii.eqb "0") (in_range "1" "9");
    one (in_range "1" "9");
    two (Ascii.eqb " ") (in_range "1" "9") ].

(** The first alternative, in order, after which the rest of the pattern
    matches. *)
Fixpoint first_match {A : Type} (alts : list alternative)
         (k : list ascii -> list ascii -> option A) (l : list ascii) : option A :=
  match alts with
  | [] => None
  | alt :: rest =>
      match alt l with
      | Some (g, r) =>
          match k g r with
          | Some x => Some x
          | None => first_match rest k l
          end
      | None => first_match rest k l
      end
  end.

(** The pattern of ['%Y%m%d'], matched at the start of the text: the three
    groups and the text after the match. *)
Definition match_Ymd (l : list ascii)
  : option (list ascii * list ascii * list ascii * list ascii) :=
  match l with
  | y1 :: y2 :: y3 :: y4 :: r =>
      if is_digit y1 && is_digit y2 && is_digit y3 && is_digit y4 then
        first_match month_alternatives
          (fun m r1 =>
             first_match day_alternatives
               (fun d r2 => Some ([y1; y2; y3; y4], m, d, r2)) r1)
          r
      else None
  | _ => None
  end.

(** [datetime.strptime(date_str, '%Y%m%d')]: no match, text left after the
    match and an impossible date are [ValueError]s. *)
Definition strptime_Ymd (date_str : string) : py datetime :=
  match match_Ymd (chars date_str) with
  | None => Raise ValueError
  | Some (Y, m, d, rest) =>
      match rest with
      | _ :: _ => Raise ValueError
      | [] =>
          year <- py_int Y ;;
          month <- py_int m ;;
          day <- py_int d ;;
          new_datetime year month day 0
      end
  end.

(** [dt.replace(hour=h)]: the argument is read as a C [int] first, which is
    an [OverflowError] outside 32 bits. *)
Definition with_hour (t : datetime) (h : Z) : py datetime :=
  if (h <? - 2 ^ 31) || (2 ^ 31 <=? h) then Raise OverflowError
  else if (0 <=? h) && (h <=? 23)
  then Ret (mkdt (year t) (month t) (day t) h
                 (minute t) (second t) (microsecond t))
  else Raise ValueError.

(** The [try] block of [download_manual]: [True] when the download may go
    on. *)
Definition validate_manual (cfg : config) (date_str : string) (hour : Z)
  : py bool :=
  catch [ValueError]
    (dt <- strptime_Ymd date_str ;;
     _ <- with_hour dt hour ;;
     Ret (existsb (Z.eqb hour) (forecast_hours cfg)))
    false.

Definition manual_filename (date_str : string) (hour : Z) : string :=
  "MSM" +++ date_str +++ zfill 2 hour +++ "S.nc".

Definition manual_url (cfg : config) (date_str : string) (hour : Z) : string :=
  base_url cfg +++ date_str +++ "/" +++ manual_filename date_str hour.

(** The part of [download_manual] after the cache check: clean, fetch, look
    the file up for the log. *)
Definition fetch_manual (cfg : config) (env : nat -> attempt)
           (filename : string) (d : directory) : directory * py bool :=
  match cleanup_old_files d false with
  | (d1, Raise e) => (d1, Raise e)
  | (d1, Ret _) =>
      match download_file cfg env filename d1 with
      | (d2, Raise e) => (d2, Raise e)
      | (d2, Ret false) => (d2, Ret false)
      | (d2, Ret true) =>
          match os_path_getsize d2 filename with
          | Raise e => (d2, Raise e)
          | Ret _ => (d2, Ret true)
          end
      end
  end.

Definition download_manual (cfg : config) (date_str : string) (hour : Z)
           (net : string -> http_reply) (env : nat -> attempt) (d : directory)
  : directory * py bool :=
  match validate_manual cfg date_str hour with
  | Raise e => (d, Raise e)
  | Ret false => (d, Ret false)
  | Ret true =>
      let filename := manual_filename date_str hour in
      match check_file_exists (net (manual_url cfg date_str hour)) with
      | Raise e => (d, Raise e)
      | Ret (false, _) => (d, Ret false)
      | Ret (true, file_size) =>
          match get_file_size_mb file_size with
          | Raise e => (d, Raise e)
          | Ret _ =>
              match lookup d filename with
              | Some x =>
                  if size_matches (node_size x) file_size then (d, Ret true)
                  else fetch_manual cfg env filename d
              | None => fetch_manual cfg env filename d
              end
          end
      end
  end.

(** * Vocabulary of the properties

    Predicates, measures and sample inputs the statements below are
    written with. *)

(** ** Names and what [int] reads *)

(** The characters [int] can accept somewhere in its argument. *)
Definition int_char (c : ascii) : bool :=
  is_space c
  || match digit_val c with Some _ => true | None => false end
  || Ascii.eqb c "_" || Ascii.eqb c "+" || Ascii.eqb c "-".

(** [filename[3:13][a:b]], one of the four fields of a name. *)
Definition date_field (s : string) (a b : nat) : list ascii :=
  slice a b (slice 3 13 (chars s)).

(** A padded decimal has the asked width and [int] reads the number back. *)
Definition zfill_reads_back (w : nat) (n : Z) : bool :=
  (String.length (zfill w n) =? w)%nat &&
  match py_int (chars (zfill w n)) with
  | Ret v => v =? n
  | Raise _ => false
  end.

Definition upto (k : Z) : list Z := map Z.of_nat (seq 0 (Z.to_nat k)).

(** From 1000 on a year is written as its padded form. *)
Definition four_digits (k : Z) : bool :=
  String.eqb (decimal (1000 + k)) (zfill 4 (1000 + k)).


(** [int] reads a year back as written. *)
Definition decimal_reads_back (y : Z) : bool :=
  match py_int (chars (decimal y)) with
  | Ret v => v =? y
  | Raise _ => false
  end.

(** The cycle time a URL carries in its last path segment. *)
Definition embedded_cycle (url : string) : py (option datetime) :=
  parse_filename (url_filename url).

(** ** Datetimes as numbers *)

Definition dkey (t : datetime) : Z := (year t * 13 + month t) * 32 + day t.

Definition hkey (t : datetime) : Z := dkey t * 24 + hour t.

Definition dt_key (t : datetime) : Z :=
  ((hkey t * 60 + minute t) * 60 + second t) * 1000000 + microsecond t.

Definition whole_hour (t : datetime) : Prop :=
  minute t = 0 /\ second t = 0 /\ microsecond t = 0.

(** ** The generator *)

(** The hour-number of the cycle an instant is rounded to. *)
Definition rkey (cfg : config) (t : datetime) : Z :=
  match find (fun fh => fh <=? hour t) (rev (forecast_hours cfg)) with
  | Some fh => dkey t * 24 + fh
  | None =>
      match sub_day t with
      | Ret p => dkey p * 24 + 21
      | Raise _ => 0
      end
  end.

(** A valid datetime on a whole hour, at one of the configured hours. *)
Definition cycle_time (cfg : config) (t : datetime) : Prop :=
  dt_valid t = true /\ whole_hour t /\ In (hour t) (forecast_hours cfg).

(** A valid datetime on a whole hour whose year [strftime] writes in four
    digits. *)
Definition candidate_time (t : datetime) : Prop :=
  dt_valid t = true /\ whole_hour t /\ 1000 <= year t.

(** The wrap of the generator lands on a cycle: hour 0 is valid, so that no
    instant wraps, or 21 is valid and no valid hour comes after it. *)
Definition wrap_is_valid (hours : list Z) : Prop :=
  In 0 hours \/ (In 21 hours /\ Forall (fun h => 0 <= h <= 21) hours).

(** The last iteration of the generator, if there is one, gives a cycle time
    of year 1000 or later. *)
Definition oldest_candidate_named (cfg : config) (now : datetime)
           (lookback : Z) : Prop :=
  num_intervals lookback = 0%nat
  \/ exists oldest,
      forecast_time_at cfg now (num_intervals lookback - 1) = Ret oldest
      /\ 1000 <= year oldest.

(** The instant the [i]-th iteration steps back to. *)
Definition check_time_at (cfg : config) (now : datetime) (i : nat) : py datetime :=
  sub_hours now (i * 3 + data_delay_hours cfg).

(** *** The generator as the design document words it *)

(** The largest valid cycle hour not above [h]. *)
Definition largest_cycle_hour (hours : list Z) (h : Z) : option Z :=
  fold_right
    (fun fh best =>
       if fh <=? h
       then Some (match best with Some b => Z.max fh b | None => fh end)
       else best)
    None hours.

(** Round down to that hour, or wrap to 21:00 of the previous day. *)
Definition round_down_by_spec (hours : list Z) (t : datetime) : py datetime :=
  match largest_cycle_hour hours (hour t) with
  | Some fh => replace_hour t fh
  | None => p <- sub_day t ;; replace_hour p 21
  end.

Fixpoint map_py {A B : Type} (f : A -> py B) (l : list A) : py (list B) :=
  match l with
  | [] => Ret []
  | x :: r => y <- f x ;; ys <- map_py f r ;; Ret (y :: ys)
  end.

Definition add_unique (urls : list string) (url : string) : list string :=
  if str_in url urls then urls else urls ++ [url].

(** Step back three hours at a time for [lookback/3 + 2] iterations, round
    each instant, map it to its URL, drop the URLs already emitted. *)
Definition candidates_by_spec (cfg : config) (current_time : datetime)
           (lookback : Z) : py (list string) :=
  times <- map_py
             (fun i =>
                stepped <- sub_hours current_time (3 * i + data_delay_hours cfg) ;;
                round_down_by_spec (forecast_hours cfg) stepped)
             (seq 0 (Z.to_nat (lookback / 3 + 2))) ;;
  Ret (fold_left add_unique (map (candidate_url (base_url cfg)) times) []).

(** ** The prober *)

Definition absent (net : string -> http_reply) (url : string) : Prop :=
  check_file_exists (net url) = Ret (false, None).

Definition present (net : string -> http_reply) (url : string) (size : option Z)
  : Prop :=
  check_file_exists (net url) = Ret (true, size).

(** A failed probe followed by its pause. *)
Definition paced (interval : Z) (urls : list string) : list event :=
  flat_map (fun u => [Probe u; Sleep interval]) urls.

(** A number of seconds [time.sleep] takes. *)
Definition sleep_accepts (seconds : Z) : Prop := 0 <= seconds <= 9223372036.

(** A size [get_file_size_mb] can put into words. *)
Definition printable (size : option Z) : Prop := get_file_size_mb size = Ret tt.

(** ** The cache directory *)

Definition removable_file (x : node) : bool :=
  match x with File _ r => r | Dir _ => false end.

(** The cycle time of an entry the scan of [cleanup_old_files] collects. *)
Definition dataset_time (e : string * node) : option datetime :=
  match snd e with
  | File _ _ =>
      if endswith (fst e) ".nc"
      then match parse_filename (fst e) with
           | Ret (Some t) => Some t
           | _ => None
           end
      else None
  | Dir _ => None
  end.

Definition is_dataset (e : string * node) : bool :=
  match dataset_time e with Some _ => true | None => false end.

(** The dataset files of a directory with their cycle times, in listing
    order. *)
Fixpoint datasets (d : directory) : list (datetime * string) :=
  match d with
  | [] => []
  | e :: d' =>
      match dataset_time e with
      | Some t => (t, fst e) :: datasets d'
      | None => datasets d'
      end
  end.

Definition total_bytes (d : directory) : Z :=
  fold_right (fun e acc => node_size (snd e) + acc) 0 d.

Definition named_in (todo : list (datetime * string)) (e : string * node) : bool :=
  existsb (String.eqb (fst e)) (map snd todo).

(** The entries a run of the deletion loop over [todo] removes. *)
Definition will_delete (todo : list (datetime * string)) (e : string * node)
  : bool :=
  removable_file (snd e) && named_in todo e.

(** The entries [cleanup_old_files] removes when it keeps [kept]. *)
Definition is_victim (kept : option string) (e : string * node) : bool :=
  removable_file (snd e) && is_dataset e
  && match kept with
     | Some k => negb (String.eqb (fst e) k)
     | None => true
     end.

Definition key_of (x : datetime * string) : Z := dt_key (fst x).

Definition not_older (a b : datetime * string) : Prop := key_of b <= key_of a.

(** Which entry a cleanup keeps: none when everything goes or nothing is
    there, otherwise a dataset file with the newest cycle time. *)
Definition keeps (d : directory) (keep_latest : bool) (kept : option string)
  : Prop :=
  match kept with
  | None => keep_latest = false \/ datasets d = []
  | Some k =>
      keep_latest = true
      /\ exists t, In (t, k) (datasets d)
                   /\ forall t' n', In (t', n') (datasets d) ->
                                    dt_leb t' t = true
  end.

Definition cleanup_result (d : directory) (kept : option string)
  : directory * py (Z * Z) :=
  (filter (fun e => negb (is_victim kept e)) d,
   Ret (Z.of_nat (List.length (filter (is_victim kept) d)),
        total_bytes (filter (is_victim kept) d))).

(** Every dataset file of the directory can be unlinked. *)
Definition all_removable (d : directory) : Prop :=
  forall e, In e d -> is_dataset e = true -> removable_file (snd e) = true.

(** ** The fetcher *)

(** While a fetch runs, the directory is the one it started from, with or
    without a file at the target. *)
Definition fetching (d0 : directory) (n : string) (d : directory) : Prop :=
  d = d0 \/ exists data, d = d0 ++ [(n, File data true)].

(** An attempt that ends in a timeout or a broken connection; the announced
    length is one the disk-space check can be asked about. *)
Definition transient (a : attempt) : Prop :=
  a = GetRaises Timeout \/ a = GetRaises RequestException
  \/ exists status h total chunks ending,
      a = Response status h true chunks ending
      /\ (400 <=? status) && (status <? 600) = false
      /\ header_int h = Ret total
      /\ float_overflows total = false
      /\ (ending = StreamTimeout \/ ending = StreamBroken).

(** ** The encoder *)

Definition temp_dir_of (c : gif_config) : string := "cloud_temp_" +++ name c.

(** ** Tables, caches and variants of the further properties *)

Definition floors_to_three (h : Z) : bool :=
  match find (fun fh => fh <=? h) (rev get_forecast_times) with
  | Some fh => fh =? 3 * (h / 3)
  | None => false
  end.

Definition comparison_eqb (a b : comparison) : bool :=
  match a, b with
  | Eq, Eq | Lt, Lt | Gt, Gt => true
  | _, _ => false
  end.

(** Two-digit fields compare as the numbers they stand for. *)
Definition pairs_compare_as_numbers (a : Z) : bool :=
  forallb (fun b => comparison_eqb (String.compare (zfill 2 a) (zfill 2 b))
                                   (a ?= b))
          (upto 100).

(** A four-digit field is two two-digit fields. *)
Definition year_splits (y : Z) : bool :=
  String.eqb (zfill 4 y) (zfill 2 (y / 100) +++ zfill 2 (y mod 100)).

(** Every entry that matches [MSM*.nc] is a regular file with the name the
    downloader gives a cycle of a four-digit year. *)
Definition canonical_cache (d : directory) : Prop :=
  forall n x, In (n, x) d -> glob_msm n = true ->
    exists t data r,
      x = File data r /\ dt_valid t = true /\ whole_hour t
      /\ 1000 <= year t /\ n = msm_filename t.

Definition next_frame_follows (a : Z) : bool :=
  String.leb (zfill 3 a) (zfill 3 (a + 1)).



(** ** Sample inputs *)

Definition sample_config : config :=
  mkconfig "http://database.rish.kyoto-u.ac.jp/arch/jmadata/data/gpv/netcdf/MSM-S/"
           [0; 3; 6; 9; 12; 15; 18; 21] 2 "GPV-Downloader" 30 1 3 5.

Definition one_try : config :=
  mkconfig (base_url sample_config) (forecast_hours sample_config) 2
           "GPV-Downloader" 30 1 1 5.

Definition only_six : config :=
  mkconfig "http://gpv/" [6] 0 "GPV-Downloader" 30 1 3 5.

Definition three_then_zero : config :=
  mkconfig "http://gpv/" [3; 0] 0 "GPV-Downloader" 30 1 3 5.

(** Four cycles a day, none at midnight. *)
Definition from_three : config :=
  mkconfig "http://gpv/" [3; 9; 15; 21] 0 "GPV-Downloader" 30 1 3 5.




(** The newest candidate cannot be reached; the one before it is there. *)
Definition only_03_answers (url : string) : http_reply :=
  if String.eqb url (base_url sample_config +++ "20251224/MSM2025122403S.nc")
  then Reply 200 (Some "4")
  else Fails Timeout.

Definition four_bytes : list Byte.byte := [Byte.x01; Byte.x02; Byte.x03; Byte.x04].

(** The server announces ten bytes and the stream ends after four. *)
Definition short_body (n : nat) : attempt :=
  Response 200 (Some "10") true [four_bytes] StreamDone.

(** The stream times out after four bytes. *)
Definition stalls (n : nat) : attempt :=
  Response 200 (Some "10") true [four_bytes] StreamTimeout.

(** The four announced bytes arrive. *)
Definition arrives_whole (n : nat) : attempt :=
  Response 200 (Some "4") true [four_bytes] StreamDone.

Definition three_files : directory :=
  [ ("MSM2025122400S.nc", File [Byte.x00] true);
    ("notes.nc", File [Byte.x00; Byte.x01] true);
    ("MSM2025122403S.nc", File four_bytes true) ].

Definition two_cycles : directory :=
  [ ("MSM2025122406S.nc", File [Byte.x00] true);
    ("MSM2025122403S.nc", File four_bytes true) ].



(** The server answers 503. *)
Definition unavailable (k : nat) : attempt :=
  Response 503 None true [] StreamDone.


Definition two_cycles_and_notes : directory :=
  [("MSM2025103021S.nc", File four_bytes true);
   ("notes.txt", File four_bytes true);
   ("MSM2025103100S.nc", File four_bytes true)].

(** * Properties *)

(** ** Worked examples from the docstrings *)

Example parse_doc_example :
  parse_filename "MSM2025122403S.nc" = Ret (Some (mkdt 2025 12 24 3 0 0 0)).
Proof. reflexivity. Qed.

Example format_doc_example :
  format_datetime_for_filename (mkdt 2025 12 24 3 0 0 0) = ("20251224", "03").
Proof. reflexivity. Qed.

(** ** Temporal frame selector *)

Lemma isel_mask_filter (f : Z -> bool) (l : list Z) :
  isel l (map f l) = filter f l.
Proof.
  induction l as [|x l IH]; simpl; [reflexivity|].
  destruct (f x); rewrite IH; reflexivity.
Qed.

Lemma mask_count (f : Z -> bool) (l : list Z) :
  List.length (filter (fun b : bool => b) (map f l)) = List.length (filter f l).
Proof.
  induction l as [|x l IH]; simpl; [reflexivity|].
  destruct (f x); simpl; rewrite IH; reflexivity.
Qed.

Lemma select_times_unfold (times : list Z) (jst_now : Z) :
  select_times times jst_now =
  match filter (fun t => current_time_utc jst_now <=? t) times with
  | [] => times
  | kept => kept
  end.
Proof.
  unfold select_times.
  destruct times as [|t times]; [reflexivity|].
  change (0 <? List.length (t :: times))%nat with true. cbv iota.
  rewrite mask_count, isel_mask_filter.
  destruct (filter _ (t :: times)); reflexivity.
Qed.

Lemma select_times_nonempty (times : list Z) (jst_now : Z) :
  times <> [] -> select_times times jst_now <> [].
Proof.
  intros H. rewrite select_times_unfold.
  destruct (filter _ times); [assumption | discriminate].
Qed.

(** C5: the selector keeps exactly the time-axis entries at or after the
    current instant (local time converted to UTC), in their order; on
    [t-3h, t, t+3h, t+6h] with now = t+1h it keeps [t+3h, t+6h]; when no
    entry qualifies it keeps the whole axis. *)
Theorem select_times_future_only :
  (forall times jst_now,
      (exists t, In t times /\ current_time_utc jst_now <= t) ->
      select_times times jst_now
      = filter (fun t => current_time_utc jst_now <=? t) times
      /\ (forall t, In t (select_times times jst_now)
                    <-> In t times /\ current_time_utc jst_now <= t))
  /\ (forall t,
         select_times [t - hours_ns 3; t; t + hours_ns 3; t + hours_ns 6]
                      (t + hours_ns 1 + hours_ns 9)
         = [t + hours_ns 3; t + hours_ns 6])
  /\ (forall times jst_now,
         (forall t, In t times -> t < current_time_utc jst_now) ->
         select_times times jst_now = times).
Proof.
  split; [|split].
  - intros times jst_now [t [Hin Hle]].
    assert (E : select_times times jst_now
                = filter (fun t => current_time_utc jst_now <=? t) times).
    { rewrite select_times_unfold.
      destruct (filter _ times) eqn:F; [|reflexivity].
      assert (Hf : In t (filter (fun t => current_time_utc jst_now <=? t) times)).
      { apply filter_In. split; [assumption | now apply Z.leb_le]. }
      rewrite F in Hf. destruct Hf. }
    split; [exact E|].
    intros x. rewrite E, filter_In, Z.leb_le. reflexivity.
  - intros t. rewrite select_times_unfold.
    unfold current_time_utc, hours_ns. simpl filter.
    repeat match goal with
           | |- context [?a <=? ?b] =>
               first [ replace (a <=? b) with true by (symmetry; apply Z.leb_le; lia)
                     | replace (a <=? b) with false by (symmetry; apply Z.leb_gt; lia) ]
           end.
    reflexivity.
  - intros times jst_now H. rewrite select_times_unfold.
    replace (filter _ times) with (@nil Z); [reflexivity|].
    symmetry. induction times as [|x l IH]; [reflexivity|].
    simpl. replace (current_time_utc jst_now <=? x) with false.
    + apply IH. intros t Ht. apply H. now right.
    + symmetry. apply Z.leb_gt. apply H. now left.
Qed.

Lemma select_times_future_only_witness :
  select_times [10; 50] (20 + hours_ns 9) = [50].
Proof.
  transitivity (filter (fun t => current_time_utc (20 + hours_ns 9) <=? t) [10; 50]).
  - apply (proj1 select_times_future_only).
    exists 50. split; [simpl; auto | unfold current_time_utc; lia].
  - reflexivity.
Defined.

(** ** Remote existence prober *)

(** C7, as stated, fails: a 204 response carrying a Content-Length header is
    reported as absent, and a 200 response without the header is reported
    as present with size 0. *)
Lemma check_file_exists_not_any_2xx :
  (200 <= 204 < 300
   /\ check_file_exists (Reply 204 (Some "10")) = Ret (false, None))
  /\ check_file_exists (Reply 200 None) = Ret (true, Some 0).
Proof. split; [split; [lia | reflexivity] | reflexivity]. Qed.

(** C7 (amended): [check_file_exists] returns [(True, size)] exactly when the
    status code is 200 and the Content-Length header, when present, reads as
    an integer ([size] is that integer, 0 without the header); it returns
    [(False, None)] exactly for every other status code and for a failed
    request. *)
Theorem check_file_exists_spec :
  (forall reply size,
      check_file_exists reply = Ret (true, Some size)
      <-> exists h, reply = Reply 200 h /\ header_int h = Ret size)
  /\ (forall reply,
         check_file_exists reply = Ret (false, None)
         <-> (exists status h, reply = Reply status h /\ status <> 200)
             \/ (exists e, reply = Fails e /\ In e request_exceptions))
  /\ header_int None = Ret 0.
Proof.
  split; [|split; [|reflexivity]].
  - intros reply size. split.
    + destruct reply as [st h|e]; unfold check_file_exists; simpl.
      * destruct (st =? 200) eqn:E; [|discriminate].
        apply Z.eqb_eq in E. subst st.
        destruct (header_int h) as [n|e] eqn:Hh; simpl;
          [|destruct e; simpl; discriminate].
        intros H. assert (n = size) as -> by congruence. exists h. auto.
      * destruct e; simpl; discriminate.
    + intros [h [-> Hh]]. unfold check_file_exists. simpl.
      rewrite Hh. reflexivity.
  - intros reply. split.
    + destruct reply as [st h|e]; unfold check_file_exists; simpl.
      * destruct (st =? 200) eqn:E.
        -- destruct (header_int h) as [n|e] eqn:Hh; simpl; [discriminate|].
           unfold header_int in Hh. destruct h as [s|]; [|discriminate].
           unfold py_int in Hh.
           destruct (match strip (chars s) with [] => _ | _ :: _ => _ end) as [sg ds].
           destruct (int_digits 0 AtStart ds);
             [destruct (4300 <? digit_count ds); [|discriminate]|];
             injection Hh as <-; simpl; discriminate.
        -- intros _. left. exists st, h. split; [reflexivity|].
           now apply Z.eqb_neq.
      * intros H. right. exists e. split; [reflexivity|].
        destruct e; simpl in *; try discriminate; auto.
    + intros [[st [h [-> Hst]]] | [e [-> He]]]; unfold check_file_exists; simpl.
      * apply Z.eqb_neq in Hst. rewrite Hst. reflexivity.
      * simpl in He. destruct He as [<-|[<-|[<-|[]]]]; reflexivity.
Qed.

Lemma check_file_exists_spec_witness :
  check_file_exists (Reply 200 (Some "1024")) = Ret (true, Some 1024).
Proof.
  apply (proj1 check_file_exists_spec).
  exists (Some "1024"). split; reflexivity.
Defined.

(** *** Probing order and pacing *)

Lemma probe_loop_hit net interval n :
  forall before i url after size,
    Forall (absent net) before ->
    present net url size ->
    (i + List.length before + S (List.length after) = n)%nat ->
    probe_loop net interval n i (before ++ url :: after)
    = (paced interval before ++ [Probe url],
       match get_file_size_mb size with
       | Ret _ => Ret (Some url, size)
       | Raise e => Raise e
       end).
Proof.
  induction before as [|u before IH]; intros i url after size Hab Hpr Hn; simpl.
  - unfold present in Hpr. rewrite Hpr.
    now destruct (get_file_size_mb size).
  - apply Forall_cons_iff in Hab. destruct Hab as [Hu Hrest].
    unfold absent in Hu. rewrite Hu. simpl in Hn.
    assert ((Z.of_nat i <? Z.of_nat n - 1) = true) as ->
      by (apply Z.ltb_lt; lia).
    rewrite (IH (S i) url after size Hrest Hpr) by lia.
    reflexivity.
Qed.

Lemma probe_loop_miss net interval n :
  forall urls i,
    Forall (absent net) urls ->
    (i + List.length urls = n)%nat ->
    probe_loop net interval n i urls
    = (removelast (paced interval urls), Ret (None, None)).
Proof.
  induction urls as [|u urls IH]; intros i Hab Hn; simpl; [reflexivity|].
  apply Forall_cons_iff in Hab. destruct Hab as [Hu Hrest].
  unfold absent in Hu. rewrite Hu. simpl in Hn.
  rewrite (IH (S i) Hrest) by lia.
  destruct urls as [|v urls]; simpl in Hn.
  - assert ((Z.of_nat i <? Z.of_nat n - 1) = false) as ->
      by (apply Z.ltb_ge; lia).
    reflexivity.
  - assert ((Z.of_nat i <? Z.of_nat n - 1) = true) as ->
      by (apply Z.ltb_lt; lia).
    reflexivity.
Qed.

Lemma find_latest_file_hit (cfg : config) (now : datetime)
      (net : string -> http_reply) (before after : list string)
      (url : string) (size : option Z) :
  generate_candidate_urls cfg now 12 = Ret (before ++ url :: after) ->
  Forall (absent net) before ->
  present net url size ->
  find_latest_file cfg now net
  = (paced (request_interval cfg) before ++ [Probe url],
     match get_file_size_mb size with
     | Ret _ => Ret (Some url, size)
     | Raise e => Raise e
     end).
Proof.
  intros G Hab Hpr. unfold find_latest_file. rewrite G.
  unfold probe_candidates. apply probe_loop_hit; try assumption.
  rewrite length_app. simpl. lia.
Qed.

Lemma find_latest_file_miss (cfg : config) (now : datetime)
      (net : string -> http_reply) (urls : list string) :
  generate_candidate_urls cfg now 12 = Ret urls ->
  Forall (absent net) urls ->
  find_latest_file cfg now net
  = (removelast (paced (request_interval cfg) urls), Ret (None, None)).
Proof.
  intros G Hab. unfold find_latest_file. rewrite G.
  unfold probe_candidates. apply probe_loop_miss; [assumption | reflexivity].
Qed.




(** ** Animation encoder *)

(** C3, as stated, fails: with a time axis of length zero the first variant
    raises [IndexError] at [images[0]] and its temporary directory stays. *)
Lemma zero_frames_leave_temp_dir :
  exists w,
    generate_cloud_gifs [] 0 (mkws [] []) = (w, Raise IndexError)
    /\ dir_exists w "cloud_temp_all_layers" = true.
Proof. eexists. split; reflexivity. Qed.

Lemma chars_app (a b : string) : chars (a +++ b) = chars a ++ chars b.
Proof.
  unfold chars. induction a as [|c a IH]; simpl; [reflexivity|].
  now rewrite IH.
Qed.

Lemma starts_with_app (p l : list ascii) : starts_with (p ++ l) p = true.
Proof.
  induction p as [|c p IH]; simpl; [reflexivity|].
  rewrite Ascii.eqb_refl. exact IH.
Qed.

Lemma endswith_app (a b : string) : endswith (a +++ b) b = true.
Proof.
  unfold endswith. rewrite chars_app, rev_app_distr. apply starts_with_app.
Qed.

Lemma string_length_app (a b : string) :
  String.length (a +++ b) = (String.length a + String.length b)%nat.
Proof. induction a as [|c a IH]; simpl; [reflexivity | now rewrite IH]. Qed.

Lemma frame_name_globbed (t_idx : nat) :
  (startswith (frame_name t_idx) "cloud_" && endswith (frame_name t_idx) ".png"
   && (10 <=? String.length (frame_name t_idx))%nat) = true.
Proof.
  unfold frame_name.
  assert (E : endswith ("cloud_" +++ zfill 3 (Z.of_nat t_idx) +++ ".png") ".png" = true).
  { change ("cloud_" +++ zfill 3 (Z.of_nat t_idx) +++ ".png")
      with (String "c" (String "l" (String "o" (String "u" (String "d" (String "_"
              (zfill 3 (Z.of_nat t_idx) +++ ".png"))))))).
    unfold endswith. cbn [chars list_ascii_of_string rev].
    repeat rewrite <- app_assoc.
    fold (chars (zfill 3 (Z.of_nat t_idx) +++ ".png")).
    rewrite chars_app, rev_app_distr.
    rewrite <- app_assoc. apply starts_with_app. }
  rewrite E.
  repeat rewrite string_length_app.
  simpl. rewrite Nat.add_comm. reflexivity.
Qed.

Section TempDirs.
Implicit Types dirs : list (string * list string).

Lemma dir_files_app dirs more (n : string) :
  dir_files (dirs ++ more) n
  = match dir_files dirs n with Some fs => Some fs | None => dir_files more n end.
Proof.
  induction dirs as [|[m fs] dirs IH]; simpl; [now destruct (dir_files more n)|].
  destruct (String.eqb m n); [reflexivity | exact IH].
Qed.

Lemma dir_files_set_same dirs (n : string) fs :
  dir_files (set_files dirs n fs) n = Some fs.
Proof.
  induction dirs as [|[m old] dirs IH]; simpl.
  - now rewrite String.eqb_refl.
  - destruct (String.eqb m n) eqn:E; simpl; rewrite E; [reflexivity | exact IH].
Qed.

Lemma dir_files_drop_same dirs (n : string) :
  dir_files (drop_dir dirs n) n = None.
Proof.
  induction dirs as [|[m fs] dirs IH]; simpl; [reflexivity|].
  destruct (String.eqb m n) eqn:E; simpl; [exact IH | now rewrite E].
Qed.

Lemma dir_files_drop_none dirs (n m : string) :
  dir_files dirs n = None -> dir_files (drop_dir dirs m) n = None.
Proof.
  induction dirs as [|[k fs] dirs IH]; simpl; [reflexivity|].
  destruct (String.eqb k n) eqn:E; [discriminate|].
  intros H. destruct (String.eqb k m); simpl; [|rewrite E]; auto.
Qed.

Lemma drop_set dirs (n : string) fs :
  drop_dir (set_files dirs n fs) n = drop_dir dirs n.
Proof.
  induction dirs as [|[m old] dirs IH]; simpl.
  - now rewrite String.eqb_refl.
  - destruct (String.eqb m n) eqn:E; simpl; rewrite E; [reflexivity|].
    now rewrite IH.
Qed.

Lemma drop_app_new dirs (n : string) fs :
  drop_dir (dirs ++ [(n, fs)]) n = drop_dir dirs n.
Proof.
  induction dirs as [|[m old] dirs IH]; simpl.
  - now rewrite String.eqb_refl.
  - destruct (String.eqb m n); [exact IH | now rewrite IH].
Qed.
End TempDirs.

Lemma savefig_spec w t f fs :
  dir_files (temp_dirs w) t = Some fs ->
  exists fs',
    dir_files (temp_dirs (savefig w t f)) t = Some fs'
    /\ In f fs' /\ incl fs fs'
    /\ drop_dir (temp_dirs (savefig w t f)) t = drop_dir (temp_dirs w) t
    /\ artifacts (savefig w t f) = artifacts w.
Proof.
  intros H. unfold savefig. rewrite H. simpl.
  exists (if str_in f fs then fs else fs ++ [f]).
  rewrite dir_files_set_same, drop_set.
  repeat split; try reflexivity.
  - destruct (str_in f fs) eqn:E.
    + unfold str_in in E. apply existsb_exists in E.
      destruct E as [x [Hx Ex]]. apply String.eqb_eq in Ex. now subst.
    + apply in_or_app. right. now left.
  - destruct (str_in f fs); [apply incl_refl | now apply incl_appl, incl_refl].
Qed.

Lemma render_frames_spec t idxs :
  forall w fs,
    dir_files (temp_dirs w) t = Some fs ->
    exists fs',
      dir_files (temp_dirs (render_frames w t idxs)) t = Some fs'
      /\ (forall i, In i idxs -> In (frame_name i) fs')
      /\ incl fs fs'
      /\ drop_dir (temp_dirs (render_frames w t idxs)) t = drop_dir (temp_dirs w) t
      /\ artifacts (render_frames w t idxs) = artifacts w.
Proof.
  induction idxs as [|i idxs IH]; intros w fs H; simpl.
  - exists fs. repeat split; auto using incl_refl. intros i [].
  - destruct (savefig_spec w t (frame_name i) fs H)
      as [fs1 [H1 [Hin [Hincl [Hdrop Hart]]]]].
    destruct (IH _ _ H1) as [fs2 [H2 [Hall [Hincl2 [Hdrop2 Hart2]]]]].
    exists fs2. repeat split.
    + exact H2.
    + intros j [<-|Hj]; [now apply Hincl2 | now apply Hall].
    + eapply incl_tran; eassumption.
    + now rewrite Hdrop2.
    + now rewrite Hart2.
Qed.

Lemma insert_str_nonempty x l : insert_str x l <> [].
Proof. destruct l; simpl; [discriminate|]. destruct (String.leb x s); discriminate. Qed.

Lemma sorted_str_nonempty l : l <> [] -> sorted_str l <> [].
Proof.
  destruct l as [|x l]; [congruence|]. intros _. simpl. apply insert_str_nonempty.
Qed.

Lemma encode_variant_ok n c w :
  (0 < n)%nat ->
  exists w',
    encode_variant n c w = (w', Ret (filename c))
    /\ temp_dirs w' = drop_dir (temp_dirs w) (temp_dir_of c).
Proof.
  intros Hn. unfold encode_variant. fold (temp_dir_of c).
  set (t := temp_dir_of c).
  assert (Hmk : exists fs0, dir_files (temp_dirs (makedirs w t)) t = Some fs0
                            /\ drop_dir (temp_dirs (makedirs w t)) t
                               = drop_dir (temp_dirs w) t).
  { unfold makedirs. destruct (dir_files (temp_dirs w) t) as [fs|] eqn:E.
    - exists fs. auto.
    - exists []. simpl. rewrite dir_files_app, E. simpl.
      rewrite String.eqb_refl. split; [reflexivity | apply drop_app_new]. }
  destruct Hmk as [fs0 [H0 Hd0]].
  destruct (render_frames_spec t (seq 0 n) _ _ H0)
    as [fs1 [H1 [Hall [_ [Hd1 _]]]]].
  assert (Hg : glob_frames (render_frames (makedirs w t) t (seq 0 n)) t <> []).
  { unfold glob_frames. rewrite H1. apply sorted_str_nonempty.
    intros Hnil.
    assert (Hin : In (frame_name 0)
                     (filter (fun f => startswith f "cloud_" && endswith f ".png"
                                       && (10 <=? String.length f)%nat) fs1)).
    { apply filter_In. split; [|apply frame_name_globbed].
      apply Hall. apply in_seq. lia. }
    rewrite Hnil in Hin. destruct Hin. }
  destruct (glob_frames _ t) as [|img images]; [congruence|].
  unfold rmtree. simpl. rewrite H1. eexists. split; [reflexivity|].
  simpl. now rewrite Hd1, Hd0.
Qed.

Lemma encode_all_ok n :
  (0 < n)%nat ->
  forall cs w generated,
  exists w' files,
    encode_all n cs w generated = (w', Ret files)
    /\ temp_dirs w' = fold_left (fun d c => drop_dir d (temp_dir_of c)) cs (temp_dirs w).
Proof.
  intros Hn. induction cs as [|c cs IH]; intros w generated; simpl.
  - eauto.
  - destruct (encode_variant_ok n c w Hn) as [w1 [E1 D1]]. rewrite E1.
    destruct (IH w1 (set_files generated (name c) (filename c)))
      as [w2 [files [E2 D2]]].
    exists w2, files. split; [exact E2|]. now rewrite D2, D1.
Qed.

Lemma dropped_stay_dropped cs :
  forall dirs t,
    dir_files dirs t = None ->
    dir_files (fold_left (fun d c => drop_dir d (temp_dir_of c)) cs dirs) t = None.
Proof.
  induction cs as [|c cs IH]; intros dirs t H; simpl; [exact H|].
  apply IH. now apply dir_files_drop_none.
Qed.

Lemma all_dropped cs :
  forall dirs c,
    In c cs ->
    dir_files (fold_left (fun d c => drop_dir d (temp_dir_of c)) cs dirs)
              (temp_dir_of c) = None.
Proof.
  induction cs as [|c0 cs IH]; intros dirs c Hin; [destruct Hin|].
  simpl. destruct Hin as [->|Hin].
  - apply dropped_stay_dropped. apply dir_files_drop_same.
  - now apply IH.
Qed.

(** C3 (amended): whenever the time axis is not empty, every variant's
    temporary frame directory [cloud_temp_{name}] is gone when
    [generate_cloud_gifs] returns; with an empty time axis and no stale
    frame directory the stage raises [IndexError] and leaves
    [cloud_temp_all_layers] behind. *)
Theorem temp_dirs_removed_when_frames_exist :
  (forall times jst_now w,
      times <> [] ->
      exists w' files,
        generate_cloud_gifs times jst_now w = (w', Ret files)
        /\ forall c, In c gif_configs -> dir_exists w' (temp_dir_of c) = false)
  /\ (forall jst_now w,
         dir_exists w "cloud_temp_all_layers" = false ->
         exists w',
           generate_cloud_gifs [] jst_now w = (w', Raise IndexError)
           /\ dir_exists w' "cloud_temp_all_layers" = true).
Proof.
  split.
  - intros times jst_now w Hne. unfold generate_cloud_gifs.
    assert (Hn : (0 < List.length (select_times times jst_now))%nat).
    { pose proof (select_times_nonempty times jst_now Hne) as H.
      destruct (select_times times jst_now); [congruence | simpl; lia]. }
    destruct (encode_all_ok _ Hn gif_configs w []) as [w' [files [E D]]].
    exists w', files. split; [exact E|].
    intros c Hc. unfold dir_exists. rewrite D.
    now rewrite (all_dropped gif_configs (temp_dirs w) c Hc).
  - intros jst_now w Habs. unfold dir_exists in Habs.
    destruct (dir_files (temp_dirs w) "cloud_temp_all_layers") eqn:E;
      [discriminate|].
    unfold generate_cloud_gifs. simpl.
    unfold encode_variant. simpl.
    unfold makedirs. rewrite E. unfold glob_frames. simpl.
    rewrite dir_files_app, E. simpl.
    eexists. split; [reflexivity|].
    unfold dir_exists. simpl. rewrite dir_files_app, E. reflexivity.
Qed.

Lemma temp_dirs_removed_when_frames_exist_witness :
  exists w' files,
    generate_cloud_gifs [100] 0 (mkws [("cloud_temp_low_only", ["cloud_007.png"])] [])
    = (w', Ret files)
    /\ forall c, In c gif_configs -> dir_exists w' (temp_dir_of c) = false.
Proof.
  apply (proj1 temp_dirs_removed_when_frames_exist). discriminate.
Defined.

(** ** Resilient fetcher *)

(** *** A fetch into a directory without the target *)

Lemma lookup_app (d more : directory) (n : string) :
  lookup (d ++ more) n
  = match lookup d n with Some x => Some x | None => lookup more n end.
Proof.
  induction d as [|[m y] d IH]; simpl; [now destruct (lookup more n)|].
  destruct (String.eqb m n); [reflexivity | exact IH].
Qed.

Lemma lookup_added (d : directory) (n : string) (x : node) :
  lookup d n = None -> lookup (d ++ [(n, x)]) n = Some x.
Proof. intros H. rewrite lookup_app, H. simpl. now rewrite String.eqb_refl. Qed.

Lemma replace_added (d : directory) (n : string) (old data : list Byte.byte) :
  lookup d n = None ->
  replace_data (d ++ [(n, File old true)]) n data = d ++ [(n, File data true)].
Proof.
  induction d as [|[m y] d IH]; simpl; intros H.
  - now rewrite String.eqb_refl.
  - destruct (String.eqb m n); [discriminate|]. now rewrite IH.
Qed.

Lemma delete_added (d : directory) (n : string) (x : node) :
  lookup d n = None -> delete (d ++ [(n, x)]) n = d.
Proof.
  unfold delete. induction d as [|[m y] d IH]; simpl; intros H.
  - now rewrite String.eqb_refl.
  - destruct (String.eqb m n); [discriminate|]. simpl. now rewrite IH.
Qed.

Lemma write_while_fetching (d0 d : directory) (n : string)
      (data : list Byte.byte) :
  lookup d0 n = None -> fetching d0 n d ->
  write_file d n data = Ret (d0 ++ [(n, File data true)]).
Proof.
  intros H0 [->|[old ->]]; unfold write_file.
  - now rewrite H0.
  - rewrite (lookup_added d0 n _ H0). now rewrite replace_added.
Qed.



Lemma transient_attempt_retries (d0 : directory) (n : string) (max k : nat)
      (a : attempt) (d : directory) :
  lookup d0 n = None -> fetching d0 n d -> transient a ->
  exists d', try_download max k a n d = (d', Retry) /\ fetching d0 n d'.
Proof.
  intros H0 Hf
         [->|[->|(st & h & total & chunks & ending & -> & Hst & Hh & Hfl & He)]].
  - exists d. split; [reflexivity | exact Hf].
  - exists d. split; [reflexivity | exact Hf].
  - unfold try_download. rewrite Hst, Hh, Hfl. simpl negb. cbv iota.
    rewrite (write_while_fetching d0 d n _ H0 Hf).
    eexists. split.
    + destruct He as [->| ->]; reflexivity.
    + right. eexists. reflexivity.
Qed.

(** The exit the size check misses: when every attempt ends in a timeout or
    a broken connection, the last one removes whatever was written. *)
Lemma retry_exhaustion_removes_partial_file (d0 : directory) (n : string)
      (max : nat) (env : nat -> attempt) :
  lookup d0 n = None ->
  (forall k, transient (env k)) ->
  forall fuel k d,
    fetching d0 n d -> (k + fuel = S max)%nat -> (0 < fuel)%nat ->
    download_loop max fuel k env n d = (d0, Ret false).
Proof.
  intros H0 Henv. induction fuel as [|fuel IH]; intros k d Hf Hk Hpos; [lia|].
  simpl.
  destruct (transient_attempt_retries d0 n max k (env k) d H0 Hf (Henv k))
    as [d1 [-> Hf1]].
  destruct (k <? max)%nat eqn:E.
  - apply Nat.ltb_lt in E. apply IH; [exact Hf1 | lia | lia].
  - unfold os_path_exists, os_remove.
    destruct Hf1 as [->|[data ->]].
    + now rewrite H0.
    + rewrite (lookup_added d0 n _ H0). now rewrite (delete_added d0 n _ H0).
Qed.

(** *** The exits of [download_file] *)

(** Transient failures lead to the last attempt. *)
Lemma reach_last_attempt (d0 : directory) (n : string) (max : nat)
      (env : nat -> attempt) :
  lookup d0 n = None ->
  (forall k, (1 <= k < max)%nat -> transient (env k)) ->
  forall fuel k d,
    fetching d0 n d -> (1 <= k)%nat -> (k + fuel = S max)%nat ->
    (0 < fuel)%nat ->
    exists d',
      fetching d0 n d'
      /\ download_loop max fuel k env n d = download_loop max 1 max env n d'.
Proof.
  intros H0 Henv. induction fuel as [|fuel IH]; intros k d Hf H1 Hk Hpos; [lia|].
  destruct (Nat.eq_dec k max) as [->|Hne].
  - assert (fuel = 0%nat) as -> by lia. now exists d.
  - assert (Hlt : (k < max)%nat) by lia.
    destruct (transient_attempt_retries d0 n max k (env k) d H0 Hf
                (Henv k (conj H1 Hlt))) as [d1 [E Hf1]].
    destruct (IH (S k) d1 Hf1 ltac:(lia) ltac:(lia) ltac:(lia)) as [d' [Hf' E']].
    exists d'. split; [exact Hf'|].
    simpl download_loop at 1. rewrite E.
    apply Nat.ltb_lt in Hlt. rewrite Hlt. exact E'.
Qed.

(** C1: when the body of the last attempt ends short of (or beyond) the
    announced length, [download_file] returns [False] and the file just
    written stays at the destination.  That is so for every announced length
    below the largest float; from there on the product handed to the
    disk-space check overflows and the [OverflowError] leaves the function. *)
Theorem size_mismatch_on_last_attempt_keeps_partial_file
        (cfg : config) (env : nat -> attempt) (n : string) (d0 : directory)
        (status total : Z) (h : option string) (chunks : list (list Byte.byte)) :
  lookup d0 n = None ->
  (1 <= max_retries cfg)%nat ->
  (forall k, (1 <= k < max_retries cfg)%nat -> transient (env k)) ->
  env (max_retries cfg) = Response status h true chunks StreamDone ->
  (400 <=? status) && (status <? 600) = false ->
  header_int h = Ret total ->
  0 < total ->
  Z.of_nat (List.length (List.concat chunks)) <> total ->
  (total < float_limit ->
   download_file cfg env n d0
   = (d0 ++ [(n, File (List.concat chunks) true)], Ret false))
  /\ (float_limit <= total ->
      exists d', fetching d0 n d'
                 /\ download_file cfg env n d0 = (d', Raise OverflowError)).
Proof.
  intros H0 Hmax Htrans Hlast Hst Hh Hpos Hne. unfold download_file.
  destruct (reach_last_attempt d0 n (max_retries cfg) env H0 Htrans
              (max_retries cfg) 1%nat d0 ltac:(now left) ltac:(lia) ltac:(lia)
              ltac:(lia))
    as [d' [Hf E]].
  rewrite E. simpl download_loop. rewrite Hlast. unfold try_download.
  rewrite Hst, Hh. split; intros Hlim.
  - assert (Hfl : float_overflows total = false)
      by (unfold float_overflows; apply Z.leb_gt; lia).
    rewrite Hfl. simpl negb. cbv iota.
    rewrite (write_while_fetching d0 d' n _ H0 Hf).
    unfold os_path_getsize. rewrite (lookup_added d0 n _ H0). simpl node_size.
    assert ((0 <? total) = true) as -> by (apply Z.ltb_lt; lia).
    assert ((Z.of_nat (List.length (List.concat chunks)) =? total) = false) as ->
        by (now apply Z.eqb_neq).
    simpl andb. cbv iota.
    now rewrite Nat.ltb_irrefl.
  - assert (Hfl : float_overflows total = true)
      by (unfold float_overflows; apply Z.leb_le; lia).
    rewrite Hfl. exists d'. split; [exact Hf|reflexivity].
Qed.

Lemma size_mismatch_on_last_attempt_keeps_partial_file_witness :
  download_file one_try short_body "MSM2025122403S.nc" []
  = ([("MSM2025122403S.nc", File four_bytes true)], Ret false).
Proof.
  refine (proj1 (size_mismatch_on_last_attempt_keeps_partial_file
                   one_try short_body "MSM2025122403S.nc" [] 200 10 (Some "10")
                   [four_bytes] _ _ _ _ _ _ _ _) _).
  - reflexivity.
  - simpl. lia.
  - simpl. intros k Hk. lia.
  - reflexivity.
  - reflexivity.
  - reflexivity.
  - lia.
  - simpl. lia.
  - vm_compute. reflexivity.
Defined.

(** The sibling exit, a timeout on the last attempt, does remove the file. *)
Example timeout_on_last_attempt_removes_partial_file :
  download_file one_try stalls "MSM2025122403S.nc" [] = ([], Ret false).
Proof. reflexivity. Qed.

(** ** Filename/Time codec *)

(** *** Padded decimals read back *)

Lemma in_upto (k n : Z) : 0 <= n < k -> In n (upto k).
Proof.
  intros H. unfold upto. apply in_map_iff. exists (Z.to_nat n).
  split; [lia | apply in_seq; lia].
Qed.

Lemma zfill4_table : forallb (zfill_reads_back 4) (upto 10000) = true.
Proof. vm_compute. reflexivity. Qed.

Lemma zfill2_table : forallb (zfill_reads_back 2) (upto 100) = true.
Proof. vm_compute. reflexivity. Qed.

Lemma zfill_reads_back_spec (w : nat) (n : Z) :
  zfill_reads_back w n = true ->
  String.length (zfill w n) = w /\ py_int (chars (zfill w n)) = Ret n.
Proof.
  unfold zfill_reads_back. intros H. apply andb_prop in H. destruct H as [L R].
  apply Nat.eqb_eq in L. split; [exact L|].
  destruct (py_int (chars (zfill w n))) as [v|e]; [|discriminate].
  apply Z.eqb_eq in R. now subst.
Qed.

Lemma zfill4 (n : Z) :
  0 <= n <= 9999 ->
  String.length (zfill 4 n) = 4%nat /\ py_int (chars (zfill 4 n)) = Ret n.
Proof.
  intros H. apply zfill_reads_back_spec.
  pose proof zfill4_table as T. rewrite forallb_forall in T.
  apply T. apply in_upto. lia.
Qed.

Lemma zfill2 (n : Z) :
  0 <= n <= 99 ->
  String.length (zfill 2 n) = 2%nat /\ py_int (chars (zfill 2 n)) = Ret n.
Proof.
  intros H. apply zfill_reads_back_spec.
  pose proof zfill2_table as T. rewrite forallb_forall in T.
  apply T. apply in_upto. lia.
Qed.

Lemma string_length2 (s : string) :
  String.length s = 2%nat -> exists a b, s = String a (String b EmptyString).
Proof.
  destruct s as [|a [|b [|c s]]]; simpl; try discriminate. eauto.
Qed.

Lemma string_length4 (s : string) :
  String.length s = 4%nat ->
  exists a b c d, s = String a (String b (String c (String d EmptyString))).
Proof.
  destruct s as [|a [|b [|c [|d [|e s]]]]]; simpl; try discriminate.
  intros _. now exists a, b, c, d.
Qed.

(** A name of the canonical length splits into its four fields. *)
Lemma parse_seventeen (y1 y2 y3 y4 m1 m2 d1 d2 h1 h2 : ascii) :
  parse_filename_body
    (String "M" (String "S" (String "M"
      (String y1 (String y2 (String y3 (String y4
      (String m1 (String m2 (String d1 (String d2
      (String h1 (String h2 "S.nc")))))))))))))
  = (y <- py_int [y1; y2; y3; y4] ;;
     m <- py_int [m1; m2] ;;
     d <- py_int [d1; d2] ;;
     h <- py_int [h1; h2] ;;
     t <- new_datetime y m d h ;;
     Ret (Some t)).
Proof. reflexivity. Qed.

Lemma dt_valid_ranges (t : datetime) :
  dt_valid t = true ->
  date_ok (year t) (month t) (day t) = true
  /\ 1 <= year t <= 9999 /\ 1 <= month t <= 12 /\ 1 <= day t <= 31
  /\ 0 <= hour t <= 23.
Proof.
  unfold dt_valid. intros H.
  destruct (date_ok (year t) (month t) (day t)) eqn:D; [|discriminate].
  split; [reflexivity|].
  simpl in H. unfold date_ok in D.
  repeat (apply andb_prop in H; destruct H as [H ?]).
  repeat (apply andb_prop in D; destruct D as [D ?]).
  assert (days_in_month (year t) (month t) <= 31).
  { unfold days_in_month.
    destruct (month t =? 2); [destruct (is_leap (year t)); lia|].
    destruct (_ || _); lia. }
  lia.
Qed.

(** A name built from padded fields is split back into those fields. *)
Lemma parse_padded_name (y m d h : Z) :
  0 <= y <= 9999 -> 0 <= m <= 99 -> 0 <= d <= 99 -> 0 <= h <= 99 ->
  parse_filename_body
    ("MSM" +++ (zfill 4 y +++ zfill 2 m +++ zfill 2 d) +++ zfill 2 h +++ "S.nc")
  = (t <- new_datetime y m d h ;; Ret (Some t)).
Proof.
  intros Hy Hm Hd Hh.
  destruct (zfill4 y Hy) as [Ly Py].
  destruct (zfill2 m Hm) as [Lm Pm].
  destruct (zfill2 d Hd) as [Ld Pd].
  destruct (zfill2 h Hh) as [Lh Ph].
  destruct (string_length4 _ Ly) as [y1 [y2 [y3 [y4 Ey]]]].
  destruct (string_length2 _ Lm) as [m1 [m2 Em]].
  destruct (string_length2 _ Ld) as [d1 [d2 Ed]].
  destruct (string_length2 _ Lh) as [h1 [h2 Eh]].
  rewrite Ey in Py |- *. rewrite Em in Pm |- *.
  rewrite Ed in Pd |- *. rewrite Eh in Ph |- *.
  cbn [String.append].
  rewrite parse_seventeen.
  cbn [chars list_ascii_of_string] in Py, Pm, Pd, Ph.
  rewrite Py, Pm, Pd, Ph. reflexivity.
Qed.

Lemma new_datetime_valid (t : datetime) :
  dt_valid t = true -> whole_hour t ->
  new_datetime (year t) (month t) (day t) (hour t) = Ret t.
Proof.
  intros Hv [Hmi [Hs Hus]].
  destruct (dt_valid_ranges t Hv) as [Hd [_ [_ [_ Hh]]]].
  unfold new_datetime. rewrite Hd.
  assert ((0 <=? hour t) = true) as -> by (apply Z.leb_le; lia).
  assert ((hour t <=? 23) = true) as -> by (apply Z.leb_le; lia).
  destruct t as [y m d h mi sec us]. simpl in *. now subst.
Qed.

(** *** The year as [strftime] writes it *)

Lemma four_digits_table : forallb four_digits (upto 9000) = true.
Proof. vm_compute. reflexivity. Qed.


Lemma decimal_reads_back_table : forallb decimal_reads_back (upto 10000) = true.
Proof. vm_compute. reflexivity. Qed.

Lemma decimal_padded (y : Z) :
  1000 <= y <= 9999 -> decimal y = zfill 4 y.
Proof.
  intros H. pose proof four_digits_table as T. rewrite forallb_forall in T.
  specialize (T (y - 1000) (in_upto 9000 (y - 1000) ltac:(lia))).
  unfold four_digits in T. replace (1000 + (y - 1000)) with y in T by lia.
  now apply String.eqb_eq in T.
Qed.


Lemma decimal_int (y : Z) :
  0 <= y <= 9999 -> py_int (chars (decimal y)) = Ret y.
Proof.
  intros H. pose proof decimal_reads_back_table as T.
  rewrite forallb_forall in T.
  specialize (T y (in_upto 10000 y ltac:(lia))). unfold decimal_reads_back in T.
  destruct (py_int (chars (decimal y))) as [v|e]; [|discriminate].
  apply Z.eqb_eq in T. now subst.
Qed.

(** From year 1000 on the name has its seventeen characters. *)
Lemma msm_filename_padded (t : datetime) :
  dt_valid t = true -> 1000 <= year t ->
  msm_filename t
  = "MSM" +++ (zfill 4 (year t) +++ zfill 2 (month t) +++ zfill 2 (day t))
      +++ zfill 2 (hour t) +++ "S.nc".
Proof.
  intros Hv Hy. destruct (dt_valid_ranges t Hv) as [_ [Hy' _]].
  unfold msm_filename, format_datetime_for_filename, strftime_Ymd.
  now rewrite decimal_padded by lia.
Qed.

Lemma parse_msm_filename (t : datetime) :
  dt_valid t = true -> whole_hour t -> 1000 <= year t ->
  parse_filename (msm_filename t) = Ret (Some t).
Proof.
  intros Hv Hw Hy.
  destruct (dt_valid_ranges t Hv) as [_ [Hy' [Hm [Hd Hh]]]].
  rewrite msm_filename_padded by assumption.
  unfold parse_filename.
  rewrite parse_padded_name by lia.
  now rewrite new_datetime_valid.
Qed.

(** *** What [int] accepts *)

Lemma lstrip_in (c : ascii) (l : list ascii) :
  In c l -> is_space c = true \/ In c (lstrip l).
Proof.
  induction l as [|a l IH]; simpl; [tauto|].
  intros [->|H].
  - destruct (is_space c) eqn:E; [now left | right; now left].
  - destruct (is_space a); [auto | right; now right].
Qed.

Lemma strip_in (c : ascii) (l : list ascii) :
  In c l -> is_space c = true \/ In c (strip l).
Proof.
  intros H. destruct (lstrip_in c l H) as [|H1]; [now left|].
  apply in_rev in H1.
  destruct (lstrip_in c _ H1) as [|H2]; [now left|].
  right. unfold strip. now apply in_rev in H2.
Qed.

Lemma int_digits_chars (l : list ascii) :
  forall acc st v,
    int_digits acc st l = Some v ->
    forall c, In c l -> int_char c = true.
Proof.
  induction l as [|a l IH]; intros acc st v H c Hin; [destruct Hin|].
  simpl in H. destruct Hin as [->|Hin].
  - unfold int_char. destruct (digit_val c); [now rewrite orb_true_r|].
    destruct (Ascii.eqb c "_"); [|discriminate].
    now rewrite !orb_true_r.
  - destruct (digit_val a); [eapply IH; eassumption|].
    destruct (Ascii.eqb a "_"); [|discriminate].
    destruct st; try discriminate. eapply IH; eassumption.
Qed.

Lemma py_int_chars (l : list ascii) (v : Z) :
  py_int l = Ret v -> forall c, In c l -> int_char c = true.
Proof.
  unfold py_int. intros H c Hin.
  destruct (strip_in c l Hin) as [Hs|Hb].
  { unfold int_char. now rewrite Hs. }
  destruct (strip l) as [|a body] eqn:E; [destruct Hb|].
  assert (Hd : forall ds w, int_digits 0 AtStart ds = Some w ->
                            In c ds -> int_char c = true).
  { intros ds w Hw. now apply (int_digits_chars ds 0 AtStart w). }
  destruct (Ascii.eqb a "+") eqn:Ep.
  { destruct (int_digits 0 AtStart body) eqn:D; [|discriminate].
    destruct Hb as [<-|Hb]; [|eapply Hd; eassumption].
    unfold int_char. rewrite Ep. now rewrite !orb_true_r. }
  destruct (Ascii.eqb a "-") eqn:Em.
  { destruct (int_digits 0 AtStart body) eqn:D; [|discriminate].
    destruct Hb as [<-|Hb]; [|eapply Hd; eassumption].
    unfold int_char. rewrite Em. now rewrite !orb_true_r. }
  destruct (int_digits 0 AtStart (a :: body)) eqn:D; [|discriminate].
  eapply Hd; eassumption.
Qed.

Lemma py_int_raises_value_error (l : list ascii) (e : exn) :
  py_int l = Raise e -> e = ValueError.
Proof.
  unfold py_int.
  destruct (match strip l with [] => _ | _ :: _ => _ end) as [sg ds].
  destruct (int_digits 0 AtStart ds); [|congruence].
  destruct (4300 <? digit_count ds); [congruence | discriminate].
Qed.

Lemma new_datetime_ret (y m d h : Z) (t : datetime) :
  new_datetime y m d h = Ret t ->
  t = mkdt y m d h 0 0 0 /\ dt_valid t = true.
Proof.
  unfold new_datetime.
  destruct (date_ok y m d) eqn:D; [|discriminate].
  destruct (0 <=? h) eqn:H0; [|discriminate].
  destruct (h <=? 23) eqn:H1; [|discriminate].
  intros H. injection H as <-. split; [reflexivity|].
  unfold dt_valid. simpl. now rewrite D, H0, H1.
Qed.

Lemma new_datetime_raises_value_error (y m d h : Z) (e : exn) :
  new_datetime y m d h = Raise e -> e = ValueError.
Proof.
  unfold new_datetime. destruct (_ && _); [discriminate | congruence].
Qed.

(** *** The shape of the names that parse *)

(** Either the name is rejected, or it has the prefix, the suffix and four
    fields that read as a calendar date and an hour. *)
Lemma parse_filename_cases (s : string) :
  parse_filename s = Ret None
  \/ exists y m d h t,
      startswith s "MSM" = true /\ endswith s "S.nc" = true
      /\ py_int (date_field s 0 4) = Ret y
      /\ py_int (date_field s 4 6) = Ret m
      /\ py_int (date_field s 6 8) = Ret d
      /\ py_int (date_field s 8 10) = Ret h
      /\ new_datetime y m d h = Ret t
      /\ parse_filename s = Ret (Some t).
Proof.
  unfold parse_filename, parse_filename_body, date_field.
  destruct (startswith s "MSM"); [|now left].
  destruct (endswith s "S.nc"); [|now left]. simpl negb. simpl orb. cbv iota.
  destruct (py_int (slice 0 4 _)) as [y|e] eqn:Ey;
    [|apply py_int_raises_value_error in Ey; subst; now left].
  destruct (py_int (slice 4 6 _)) as [m|e] eqn:Em;
    [|apply py_int_raises_value_error in Em; subst; now left].
  destruct (py_int (slice 6 8 _)) as [d|e] eqn:Ed;
    [|apply py_int_raises_value_error in Ed; subst; now left].
  destruct (py_int (slice 8 10 _)) as [h|e] eqn:Eh;
    [|apply py_int_raises_value_error in Eh; subst; now left].
  cbn [bind].
  destruct (new_datetime y m d h) as [t|e] eqn:Et;
    [|apply new_datetime_raises_value_error in Et; subst; now left].
  right. exists y, m, d, h, t. cbn [bind catch]. auto 10.
Qed.

Lemma fields_cover (l : list ascii) :
  slice 0 4 l ++ slice 4 6 l ++ slice 6 8 l ++ slice 8 10 l = firstn 10 l.
Proof.
  do 10 (destruct l as [|? l]; [reflexivity|]). reflexivity.
Qed.

Lemma starts_with_inv (p l : list ascii) :
  starts_with l p = true -> exists r, l = p ++ r.
Proof.
  revert l. induction p as [|c p IH]; intros l H; simpl in *; [now exists l|].
  destruct l as [|d l]; [discriminate|].
  apply andb_prop in H. destruct H as [E H]. apply Ascii.eqb_eq in E. subst d.
  destruct (IH l H) as [r ->]. now exists r.
Qed.

Lemma ends_with_inv (p l : list ascii) :
  starts_with (rev l) (rev p) = true -> exists r, l = r ++ p.
Proof.
  intros H. apply starts_with_inv in H. destruct H as [r H].
  exists (rev r). rewrite <- (rev_involutive l), H, rev_app_distr.
  now rewrite rev_involutive.
Qed.

Lemma in_firstn_app (n : nat) (a b : list ascii) (x : ascii) :
  (List.length a < n)%nat -> In x (firstn n (a ++ x :: b)).
Proof.
  revert n. induction a as [|c a IH]; intros n H; simpl in *.
  - destruct n; [lia|]. now left.
  - destruct n; [lia|]. right. apply IH. lia.
Qed.

Lemma chars_length (s : string) : List.length (chars s) = String.length s.
Proof. unfold chars. induction s; simpl; auto. Qed.

(** In a name shorter than seventeen characters the suffix reaches into the
    date fields. *)
Lemma short_name_suffix_in_fields (s : string) :
  startswith s "MSM" = true -> endswith s "S.nc" = true ->
  (String.length s < 17)%nat ->
  In "S"%char (slice 3 13 (chars s)).
Proof.
  unfold startswith, endswith. intros Hp Hs Hl.
  rewrite <- chars_length in Hl.
  apply starts_with_inv in Hp. destruct Hp as [r Hr].
  apply ends_with_inv in Hs. destruct Hs as [l0 Hl0].
  rewrite Hl0 in Hr, Hl |- *. rewrite length_app in Hl. simpl in Hl.
  destruct l0 as [|a [|b [|c l0]]]; try (simpl in Hr; discriminate).
  unfold slice. cbn [skipn app chars list_ascii_of_string].
  apply in_firstn_app. simpl in Hl. simpl. lia.
Qed.

Lemma bad_field_char_rejected (s : string) (c : ascii) :
  In c (slice 3 13 (chars s)) -> int_char c = false ->
  parse_filename s = Ret None.
Proof.
  intros Hin Hbad.
  destruct (parse_filename_cases s)
    as [H | (y & m & d & h & t & _ & _ & Hy & Hm & Hd & Hh & _)]; [exact H|].
  exfalso.
  assert (Hc : In c (firstn 10 (slice 3 13 (chars s)))).
  { unfold slice at 1. rewrite firstn_firstn. exact Hin. }
  rewrite <- fields_cover in Hc.
  assert (int_char c = true); [|congruence].
  repeat (apply in_app_or in Hc; destruct Hc as [Hc|Hc]);
    eauto using py_int_chars.
Qed.

(** C9, as stated, fails: names that are not of the shape [MSM], ten digits,
    [S.nc] are parsed all the same, when characters stand between the date
    and the suffix and when a field holds what [int] accepts besides
    digits. *)
Lemma parse_filename_accepts_other_shapes :
  parse_filename "MSM2025122403_backupS.nc"
  = Ret (Some (mkdt 2025 12 24 3 0 0 0))
  /\ String.length "MSM2025122403_backupS.nc" <> 17%nat
  /\ parse_filename "MSM2025 1 1+3S.nc" = Ret (Some (mkdt 2025 1 1 3 0 0 0)).
Proof. repeat split; [discriminate]. Qed.

(** C9 (amended): [parse_filename] returns for every string and never raises;
    it returns [None] for a wrong prefix, a wrong suffix, a name shorter than
    seventeen characters and a name with a character [int] rejects among
    characters 3 to 12; whatever datetime it returns is a valid calendar date
    on a whole hour, read by [int] from the four fields of characters 3 to
    12 of a name with the prefix and the suffix. *)
Theorem parse_filename_total_and_strict :
  (forall s, exists r, parse_filename s = Ret r)
  /\ (forall s, startswith s "MSM" = false -> parse_filename s = Ret None)
  /\ (forall s, endswith s "S.nc" = false -> parse_filename s = Ret None)
  /\ (forall s, (String.length s < 17)%nat -> parse_filename s = Ret None)
  /\ (forall s c, In c (slice 3 13 (chars s)) -> int_char c = false ->
                  parse_filename s = Ret None)
  /\ (forall s t,
         parse_filename s = Ret (Some t) ->
         startswith s "MSM" = true /\ endswith s "S.nc" = true
         /\ py_int (date_field s 0 4) = Ret (year t)
         /\ py_int (date_field s 4 6) = Ret (month t)
         /\ py_int (date_field s 6 8) = Ret (day t)
         /\ py_int (date_field s 8 10) = Ret (hour t)
         /\ dt_valid t = true
         /\ minute t = 0 /\ second t = 0 /\ microsecond t = 0).
Proof.
  assert (Hpre : forall s, startswith s "MSM" = false -> parse_filename s = Ret None).
  { intros s H. unfold parse_filename, parse_filename_body. now rewrite H. }
  assert (Hsuf : forall s, endswith s "S.nc" = false -> parse_filename s = Ret None).
  { intros s H. unfold parse_filename, parse_filename_body. rewrite H.
    now rewrite orb_true_r. }
  split; [|split; [|split; [|split; [|split]]]].
  - intros s. destruct (parse_filename_cases s) as [H | [y [m [d [h [t H]]]]]].
    + eauto.
    + exists (Some t). apply H.
  - exact Hpre.
  - exact Hsuf.
  - intros s Hl.
    destruct (startswith s "MSM") eqn:Hp; [|now apply Hpre].
    destruct (endswith s "S.nc") eqn:Hs; [|now apply Hsuf].
    apply (bad_field_char_rejected s "S").
    + now apply short_name_suffix_in_fields.
    + reflexivity.
  - exact bad_field_char_rejected.
  - intros s t H.
    destruct (parse_filename_cases s)
      as [N | (y & m & d & h & t' & Hp & Hs & Hy & Hm & Hd & Hh & Ht & E)].
    { congruence. }
    assert (t' = t) by congruence. subst t'.
    destruct (new_datetime_ret _ _ _ _ _ Ht) as [-> Hv].
    simpl. auto 12.
Qed.

Lemma parse_filename_total_and_strict_witness :
  parse_filename "MSM20251224S.nc" = Ret None
  /\ parse_filename "MSM2025x22403S.nc" = Ret None.
Proof.
  split.
  - apply (proj1 (proj2 (proj2 (proj2 parse_filename_total_and_strict)))).
    simpl. lia.
  - apply (proj1 (proj2 (proj2 (proj2 (proj2 parse_filename_total_and_strict))))
             "MSM2025x22403S.nc" "x"%char).
    + simpl. tauto.
    + reflexivity.
Defined.

(** *** The round trip *)

Lemma short_name_unparsed (s : string) :
  (String.length s < 17)%nat -> parse_filename s = Ret None.
Proof.
  intros Hl.
  destruct (startswith s "MSM") eqn:Hp.
  2:{ unfold parse_filename, parse_filename_body. now rewrite Hp. }
  destruct (endswith s "S.nc") eqn:Hs.
  2:{ unfold parse_filename, parse_filename_body. rewrite Hs.
      now rewrite orb_true_r. }
  apply (bad_field_char_rejected s "S");
    [now apply short_name_suffix_in_fields | reflexivity].
Qed.




(** ** Candidate URL generator *)

(** *** Datetimes as numbers

    On valid datetimes the field-by-field comparison is the comparison of a
    mixed-radix number. *)

Lemma days_in_month_bounds (y m : Z) : 28 <= days_in_month y m <= 31.
Proof.
  unfold days_in_month.
  destruct (m =? 2); [destruct (is_leap y); lia|].
  destruct (_ || _); lia.
Qed.

Lemma dt_valid_bounds (t : datetime) :
  dt_valid t = true ->
  (1 <= year t <= 9999 /\ 1 <= month t <= 12
   /\ 1 <= day t <= days_in_month (year t) (month t))
  /\ 0 <= hour t <= 23 /\ 0 <= minute t <= 59 /\ 0 <= second t <= 59
  /\ 0 <= microsecond t <= 999999.
Proof.
  unfold dt_valid, date_ok. intros H.
  repeat (apply andb_prop in H; destruct H as [H ?]).
  lia.
Qed.

Lemma dt_valid_intro (t : datetime) :
  1 <= year t <= 9999 -> 1 <= month t <= 12 ->
  1 <= day t <= days_in_month (year t) (month t) ->
  0 <= hour t <= 23 -> 0 <= minute t <= 59 -> 0 <= second t <= 59 ->
  0 <= microsecond t <= 999999 ->
  dt_valid t = true.
Proof.
  intros. unfold dt_valid, date_ok.
  repeat (apply andb_true_intro; split); lia.
Qed.

Lemma dt_cmp_key (a b : datetime) :
  dt_valid a = true -> dt_valid b = true ->
  dt_cmp a b = (dt_key a ?= dt_key b).
Proof.
  intros Ha Hb.
  pose proof (dt_valid_bounds a Ha) as Ba.
  pose proof (dt_valid_bounds b Hb) as Bb.
  pose proof (days_in_month_bounds (year a) (month a)).
  pose proof (days_in_month_bounds (year b) (month b)).
  unfold dt_cmp, dt_fields, dt_key, hkey, dkey. cbn [lex_cmp].
  symmetry.
  repeat match goal with
         | |- _ = match ?x ?= ?y with _ => _ end =>
             destruct (Z.compare_spec x y)
         end;
    try (apply Z.compare_lt_iff; lia);
    try (apply Z.compare_gt_iff; lia);
    try (apply Z.compare_eq_iff; lia).
Qed.

Lemma dt_ltb_key (a b : datetime) :
  dt_valid a = true -> dt_valid b = true ->
  dt_ltb a b = true <-> dt_key a < dt_key b.
Proof.
  intros Ha Hb. unfold dt_ltb. rewrite (dt_cmp_key a b Ha Hb).
  destruct (Z.compare_spec (dt_key a) (dt_key b)); split; intros; try lia;
    try discriminate; reflexivity.
Qed.

Lemma whole_hour_key (t : datetime) :
  whole_hour t -> dt_key t = hkey t * 3600000000.
Proof. intros [H1 [H2 H3]]. unfold dt_key. rewrite H1, H2, H3. lia. Qed.

Lemma hkey_inj (a b : datetime) :
  dt_valid a = true -> dt_valid b = true -> whole_hour a -> whole_hour b ->
  hkey a = hkey b -> a = b.
Proof.
  intros Ha Hb [A1 [A2 A3]] [B1 [B2 B3]] E.
  pose proof (dt_valid_bounds a Ha) as Ba.
  pose proof (dt_valid_bounds b Hb) as Bb.
  pose proof (days_in_month_bounds (year a) (month a)).
  pose proof (days_in_month_bounds (year b) (month b)).
  unfold hkey, dkey in E.
  destruct a as [y m d h mi s us], b as [y' m' d' h' mi' s' us'].
  simpl in *. subst.
  assert (y = y') by lia. subst y'.
  assert (m = m') by lia. subst m'.
  assert (d = d') by lia. subst d'.
  assert (h = h') by lia. subst h'.
  reflexivity.
Qed.

(** *** Stepping back *)

Lemma sub_day_spec (t p : datetime) :
  dt_valid t = true -> sub_day t = Ret p ->
  dt_valid p = true /\ dkey p < dkey t
  /\ hour p = hour t /\ minute p = minute t /\ second p = second t
  /\ microsecond p = microsecond t.
Proof.
  intros Hv. pose proof (dt_valid_bounds t Hv) as B.
  unfold sub_day.
  destruct (1 <? day t) eqn:Ed; [|destruct (1 <? month t) eqn:Em;
                                   [|destruct (1 <? year t) eqn:Ey]];
    intros H; try discriminate; injection H as <-; unfold dkey; simpl.
  - apply Z.ltb_lt in Ed. split; [apply dt_valid_intro; simpl; lia|].
    repeat split; lia.
  - apply Z.ltb_ge in Ed. apply Z.ltb_lt in Em.
    pose proof (days_in_month_bounds (year t) (month t - 1)).
    split; [apply dt_valid_intro; simpl; lia|].
    repeat split; lia.
  - apply Z.ltb_ge in Ed. apply Z.ltb_ge in Em. apply Z.ltb_lt in Ey.
    split; [apply dt_valid_intro; simpl; try lia|].
    + change (days_in_month (year t - 1) 12) with 31. lia.
    + repeat split; lia.
Qed.

Lemma sub_hour_spec (t p : datetime) :
  dt_valid t = true -> sub_hour t = Ret p ->
  dt_valid p = true
  /\ ((dkey p = dkey t /\ hour p = hour t - 1)
      \/ (dkey p < dkey t /\ hour t = 0 /\ hour p = 23)).
Proof.
  intros Hv. pose proof (dt_valid_bounds t Hv) as B.
  unfold sub_hour. destruct (0 <? hour t) eqn:Eh.
  - apply Z.ltb_lt in Eh. intros H. injection H as <-.
    split; [apply dt_valid_intro; simpl; lia|].
    left. unfold dkey. simpl. lia.
  - apply Z.ltb_ge in Eh.
    destruct (sub_day t) as [q|e] eqn:Eq; [|discriminate].
    destruct (sub_day_spec t q Hv Eq) as [Hq [Hk [Hh [Hmi [Hs Hus]]]]].
    pose proof (dt_valid_bounds q Hq) as Bq.
    cbn [bind]. intros H. injection H as <-.
    split; [apply dt_valid_intro; simpl; lia|].
    right. unfold dkey in *. simpl. lia.
Qed.

Lemma sub_hours_add (t : datetime) (a b : nat) :
  sub_hours t (a + b) = (p <- sub_hours t a ;; sub_hours p b).
Proof.
  revert t. induction a as [|a IH]; intros t; simpl; [reflexivity|].
  destruct (sub_hour t) as [q|e]; simpl; [apply IH | reflexivity].
Qed.

Lemma sub_hours_valid (n : nat) :
  forall t p, dt_valid t = true -> sub_hours t n = Ret p -> dt_valid p = true.
Proof.
  induction n as [|n IH]; intros t p Hv; simpl.
  - intros H. now injection H as <-.
  - destruct (sub_hour t) as [q|e] eqn:Eq; [|discriminate]. simpl.
    apply IH. now destruct (sub_hour_spec t q Hv Eq).
Qed.

(** An instant that can be reached can be reached in fewer steps. *)
Lemma sub_hours_earlier (t : datetime) (a b : nat) (p : datetime) :
  sub_hours t (a + b) = Ret p -> exists q, sub_hours t a = Ret q.
Proof.
  rewrite sub_hours_add. destruct (sub_hours t a) as [q|e]; [eauto | discriminate].
Qed.

(** *** Rounding to a cycle hour *)

Lemma sorted_app_inv (l1 l2 : list Z) :
  StronglySorted Z.le (l1 ++ l2) ->
  StronglySorted Z.le l1
  /\ forall x y, In x l1 -> In y l2 -> x <= y.
Proof.
  induction l1 as [|a l1 IH]; simpl; intros H.
  - split; [constructor | intros x y []].
  - inversion H as [|? ? Hs Hf]; subst.
    destruct (IH Hs) as [S1 Hle].
    rewrite Forall_forall in Hf.
    split.
    + constructor; [exact S1|]. apply Forall_forall. intros x Hx.
      apply Hf. apply in_or_app. now left.
    + intros x y [<-|Hx] Hy; [|now apply Hle].
      apply Hf. apply in_or_app. now right.
Qed.

(** Scanning an ascending list from its end finds the largest entry that
    is not above [h]. *)
Lemma find_rev_sorted (hours : list Z) (h a : Z) :
  StronglySorted Z.le hours ->
  find (fun fh => fh <=? h) (rev hours) = Some a ->
  forall x, In x hours -> x <= h -> x <= a.
Proof.
  induction hours as [|z l IH] using rev_ind; intros Hs Hf x Hx Hle.
  - destruct Hx.
  - destruct (sorted_app_inv l [z] Hs) as [Sl Hlz].
    rewrite rev_app_distr in Hf. simpl in Hf.
    destruct (z <=? h) eqn:E.
    + injection Hf as <-. apply in_app_or in Hx.
      destruct Hx as [Hx|[<-|[]]]; [|lia].
      apply Hlz; [exact Hx | now left].
    + apply Z.leb_gt in E. apply in_app_or in Hx.
      destruct Hx as [Hx|[<-|[]]]; [now apply IH | lia].
Qed.

(** *** The embedded cycle time *)

Lemma last_segment_no_slash (f : list ascii) :
  ~ In "/"%char f -> forall cur, last_segment f cur = cur ++ f.
Proof.
  induction f as [|c f IH]; intros Hno cur; simpl.
  - now rewrite app_nil_r.
  - destruct (Ascii.eqb c "/") eqn:E.
    + apply Ascii.eqb_eq in E. subst. exfalso. apply Hno. now left.
    + rewrite IH by (intros H; apply Hno; now right).
      now rewrite <- app_assoc.
Qed.

Lemma last_segment_after_slash (a f : list ascii) :
  ~ In "/"%char f -> forall cur, last_segment (a ++ "/"%char :: f) cur = f.
Proof.
  intros Hno. induction a as [|c a IH]; intros cur; simpl.
  - now rewrite last_segment_no_slash.
  - destruct (Ascii.eqb c "/"); apply IH.
Qed.

Lemma int_chars_no_slash (l : list ascii) (v : Z) :
  py_int l = Ret v -> ~ In "/"%char l.
Proof.
  intros H Hin. pose proof (py_int_chars _ _ H _ Hin). discriminate.
Qed.

Lemma msm_filename_no_slash (t : datetime) :
  dt_valid t = true -> ~ In "/"%char (chars (msm_filename t)).
Proof.
  intros Hv.
  destruct (dt_valid_ranges t Hv) as [_ [Hy [Hm [Hd Hh]]]].
  pose proof (decimal_int (year t) ltac:(lia)) as Py.
  destruct (zfill2 (month t) ltac:(lia)) as [_ Pm].
  destruct (zfill2 (day t) ltac:(lia)) as [_ Pd].
  destruct (zfill2 (hour t) ltac:(lia)) as [_ Ph].
  unfold msm_filename, format_datetime_for_filename, strftime_Ymd.
  rewrite !chars_app. intros H.
  repeat (apply in_app_or in H; destruct H as [H|H]);
    try (exact (int_chars_no_slash _ _ Py H));
    try (exact (int_chars_no_slash _ _ Pm H));
    try (exact (int_chars_no_slash _ _ Pd H));
    try (exact (int_chars_no_slash _ _ Ph H));
    simpl in H; repeat (destruct H as [H|H]; [discriminate H|]); exact H.
Qed.

Lemma url_filename_candidate (base : string) (t : datetime) :
  dt_valid t = true ->
  url_filename (candidate_url base t) = msm_filename t.
Proof.
  intros Hv. unfold url_filename.
  assert (E : chars (candidate_url base t)
              = (chars base ++ chars (strftime_Ymd t))
                  ++ "/"%char :: chars (msm_filename t)).
  { unfold candidate_url, msm_filename, format_datetime_for_filename.
    rewrite !chars_app. rewrite <- app_assoc. reflexivity. }
  rewrite E, last_segment_after_slash by now apply msm_filename_no_slash.
  apply string_of_list_ascii_of_string.
Qed.

Lemma embedded_cycle_candidate (base : string) (t : datetime) :
  dt_valid t = true -> whole_hour t -> 1000 <= year t ->
  embedded_cycle (candidate_url base t) = Ret (Some t).
Proof.
  intros Hv Hw Hy. unfold embedded_cycle.
  rewrite url_filename_candidate by assumption.
  now apply parse_msm_filename.
Qed.

Lemma candidate_url_inj (base : string) (a b : datetime) :
  candidate_time a -> candidate_time b ->
  candidate_url base a = candidate_url base b -> a = b.
Proof.
  intros [Va [Wa Ya]] [Vb [Wb Yb]] E.
  pose proof (embedded_cycle_candidate base a Va Wa Ya) as Ha.
  pose proof (embedded_cycle_candidate base b Vb Wb Yb) as Hb.
  rewrite E in Ha. congruence.
Qed.

Lemma sorted_snoc {A : Type} (R : A -> A -> Prop) (l : list A) (x : A) :
  StronglySorted R l -> Forall (fun t => R t x) l ->
  StronglySorted R (l ++ [x]).
Proof.
  induction 1 as [|a l Hs IH Hf]; intros Hall; simpl.
  - constructor; constructor.
  - inversion Hall; subst. constructor; [now apply IH|].
    apply Forall_app. split; [exact Hf | now constructor].
Qed.

(** *** Days and years while stepping back *)

Lemma c_int_hour (h : Z) :
  0 <= h <= 23 -> (h <? - 2 ^ 31) || (2 ^ 31 <=? h) = false.
Proof.
  intros H. change (2 ^ 31) with 2147483648.
  apply orb_false_intro; [apply Z.ltb_ge | apply Z.leb_gt]; lia.
Qed.

Lemma replace_hour_ret (t : datetime) (h : Z) :
  0 <= h <= 23 ->
  replace_hour t h = Ret (mkdt (year t) (month t) (day t) h 0 0 0).
Proof.
  intros H. unfold replace_hour. rewrite (c_int_hour h H).
  assert ((0 <=? h) && (h <=? 23) = true) as ->
      by (apply andb_true_intro; split; apply Z.leb_le; lia).
  reflexivity.
Qed.

Lemma dkey_year (a b : datetime) :
  dt_valid a = true -> dt_valid b = true ->
  dkey a <= dkey b -> year a <= year b.
Proof.
  intros Ha Hb. pose proof (dt_valid_bounds a Ha) as Ba.
  pose proof (dt_valid_bounds b Hb) as Bb.
  pose proof (days_in_month_bounds (year a) (month a)).
  pose proof (days_in_month_bounds (year b) (month b)).
  unfold dkey. lia.
Qed.

Lemma hkey_year (a b : datetime) :
  dt_valid a = true -> dt_valid b = true ->
  hkey a <= hkey b -> year a <= year b.
Proof.
  intros Ha Hb H. apply dkey_year; try assumption.
  pose proof (dt_valid_bounds a Ha) as Ba.
  pose proof (dt_valid_bounds b Hb) as Bb.
  unfold hkey in H. lia.
Qed.

Lemma sub_day_returns (t : datetime) :
  dt_valid t = true -> 2 <= year t -> exists p, sub_day t = Ret p.
Proof.
  intros Hv Hy. unfold sub_day.
  destruct (1 <? day t); [eauto|]. destruct (1 <? month t); [eauto|].
  assert ((1 <? year t) = true) as -> by (apply Z.ltb_lt; lia). eauto.
Qed.

(** The day before depends on the date alone. *)
Lemma sub_day_same_date (t u p q : datetime) :
  year t = year u -> month t = month u -> day t = day u ->
  sub_day t = Ret p -> sub_day u = Ret q -> dkey p = dkey q.
Proof.
  unfold sub_day. intros -> -> ->.
  destruct (1 <? day u); [|destruct (1 <? month u); [|destruct (1 <? year u)]];
    intros H1 H2; try discriminate;
    injection H1 as <-; injection H2 as <-; reflexivity.
Qed.

Lemma sub_hour_cases (t p : datetime) :
  dt_valid t = true -> sub_hour t = Ret p ->
  dt_valid p = true
  /\ ((0 < hour t /\ year p = year t /\ month p = month t /\ day p = day t
       /\ hour p = hour t - 1)
      \/ (hour t = 0 /\ hour p = 23
          /\ exists q, sub_day t = Ret q /\ dkey p = dkey q
                       /\ dkey q < dkey t)).
Proof.
  intros Hv Hp. destruct (sub_hour_spec t p Hv Hp) as [Hvp _].
  split; [exact Hvp|].
  pose proof (dt_valid_bounds t Hv) as B.
  unfold sub_hour in Hp. destruct (0 <? hour t) eqn:Eh.
  - apply Z.ltb_lt in Eh. injection Hp as <-. left. simpl. auto.
  - apply Z.ltb_ge in Eh.
    destruct (sub_day t) as [q|e] eqn:Eq; [|discriminate].
    destruct (sub_day_spec t q Hv Eq) as [_ [Hk _]].
    cbn [bind] in Hp. injection Hp as <-. right.
    split; [lia|]. split; [reflexivity|]. exists q. auto.
Qed.

Lemma sub_hours_year (n : nat) :
  forall t p, dt_valid t = true -> sub_hours t n = Ret p -> year p <= year t.
Proof.
  induction n as [|n IH]; intros t p Hv; simpl.
  - intros H. injection H as <-. lia.
  - destruct (sub_hour t) as [q|e] eqn:Eq; [|discriminate]. cbn [bind].
    intros H. destruct (sub_hour_spec t q Hv Eq) as [Hq Hc].
    pose proof (IH q p Hq H).
    assert (year q <= year t); [|lia].
    apply dkey_year; try assumption. destruct Hc as [[E _]|[E _]]; lia.
Qed.

Section Candidates.
Variable cfg : config.
Variable now : datetime.
Local Abbreviation hours := (forecast_hours cfg).
Hypothesis hours_sorted : StronglySorted Z.le hours.
Hypothesis hours_wrap : wrap_is_valid hours.
Hypothesis now_valid : dt_valid now = true.

(** What the reversed scan finds for an hour of the day. *)
Lemma floor_hour (h : Z) :
  0 <= h <= 23 ->
  match find (fun fh => fh <=? h) (rev hours) with
  | Some fh =>
      In fh hours /\ 0 <= fh <= h
      /\ forall x, In x hours -> x <= h -> x <= fh
  | None =>
      (forall x, In x hours -> h < x)
      /\ In 21 hours /\ forall x, In x hours -> 0 <= x <= 21
  end.
Proof.
  intros Hh.
  destruct (find (fun fh => fh <=? h) (rev hours)) as [fh|] eqn:E.
  - destruct (find_some _ _ E) as [Hin Hle].
    apply Z.leb_le in Hle. apply in_rev in Hin.
    pose proof (find_rev_sorted hours h fh hours_sorted E) as Hmax.
    split; [exact Hin|]. split; [|exact Hmax]. split; [|exact Hle].
    destruct hours_wrap as [H0|[_ Hall]].
    + apply Hmax; [exact H0 | lia].
    + rewrite Forall_forall in Hall. now apply Hall.
  - assert (Hnone : forall x, In x hours -> h < x).
    { intros x Hx. apply in_rev in Hx. apply (find_none _ _ E) in Hx.
      now apply Z.leb_gt in Hx. }
    split; [exact Hnone|].
    destruct hours_wrap as [H0|[H21 Hall]].
    + specialize (Hnone 0 H0). lia.
    + split; [exact H21|]. now rewrite Forall_forall in Hall.
Qed.

Lemma round_to_cycle_year (t r : datetime) :
  dt_valid t = true -> round_to_cycle hours t = Ret r -> year r <= year t.
Proof.
  intros Hv. unfold round_to_cycle.
  assert (R : forall u h, replace_hour u h = Ret r -> year r = year u).
  { intros u h. unfold replace_hour.
    destruct (_ || _); [discriminate|]. destruct (_ && _); [|discriminate].
    intros H. now injection H as <-. }
  destruct (find _ _) as [fh|].
  - intros H. rewrite (R _ _ H). lia.
  - destruct (sub_day t) as [p|e] eqn:Ep; [|discriminate]. cbn [bind].
    intros H. rewrite (R _ _ H).
    destruct (sub_day_spec t p Hv Ep) as [Hp [Hk _]].
    apply dkey_year; try assumption. lia.
Qed.

Lemma round_to_cycle_spec (t : datetime) :
  dt_valid t = true -> 2 <= year t ->
  exists r,
    round_to_cycle hours t = Ret r /\ cycle_time cfg r /\ hkey r = rkey cfg t.
Proof.
  intros Hv Hy. pose proof (dt_valid_bounds t Hv) as B.
  pose proof (floor_hour (hour t) ltac:(lia)) as F.
  unfold round_to_cycle, rkey.
  destruct (find (fun fh => fh <=? hour t) (rev hours)) as [fh|].
  - destruct F as [Hin [Hr _]].
    rewrite replace_hour_ret by lia.
    eexists. split; [reflexivity|]. split; [|reflexivity].
    split; [apply dt_valid_intro; simpl; lia|].
    split; [repeat split | exact Hin].
  - destruct F as [_ [H21 _]].
    destruct (sub_day_returns t Hv Hy) as [p Ep]. rewrite Ep. cbn [bind].
    destruct (sub_day_spec t p Hv Ep) as [Hp _].
    pose proof (dt_valid_bounds p Hp) as Bp.
    rewrite replace_hour_ret by lia.
    eexists. split; [reflexivity|]. split; [|reflexivity].
    split; [apply dt_valid_intro; simpl; lia|].
    split; [repeat split | exact H21].
Qed.

Lemma rkey_step (t p : datetime) :
  dt_valid t = true -> sub_hour t = Ret p -> 2 <= year p ->
  rkey cfg p <= rkey cfg t.
Proof.
  intros Hv Hp Hy. destruct (sub_hour_cases t p Hv Hp) as [Hvp Hcase].
  pose proof (dt_valid_bounds t Hv) as B.
  pose proof (dt_valid_bounds p Hvp) as Bp.
  assert (Hyt : 2 <= year t).
  { pose proof (sub_hours_year 1 t p Hv) as Y. simpl in Y. rewrite Hp in Y.
    specialize (Y eq_refl). lia. }
  pose proof (floor_hour (hour t) ltac:(lia)) as Ft.
  pose proof (floor_hour (hour p) ltac:(lia)) as Fp.
  destruct (sub_day_returns t Hv Hyt) as [qt Eqt].
  destruct (sub_day_returns p Hvp Hy) as [qp Eqp].
  destruct (sub_day_spec t qt Hv Eqt) as [Vqt [Kqt _]].
  destruct (sub_day_spec p qp Hvp Eqp) as [Vqp [Kqp _]].
  unfold rkey. rewrite Eqt, Eqp.
  destruct Hcase as [(Hpos & Ey & Em & Ed & Eh) | (Hz & H23 & q & Eq & Kq & Kt)].
  - assert (Hd : dkey p = dkey t) by (unfold dkey; now rewrite Ey, Em, Ed).
    destruct (find (fun fh => fh <=? hour t) (rev hours)) as [ft|];
      destruct (find (fun fh => fh <=? hour p) (rev hours)) as [fp|].
    + destruct Ft as [_ [_ Mt]]. destruct Fp as [Ip [Rp _]].
      assert (fp <= ft) by (apply Mt; [exact Ip | lia]). lia.
    + destruct Ft as [_ [Rt _]]. lia.
    + destruct Ft as [Nt _]. destruct Fp as [Ip [Rp _]].
      specialize (Nt fp Ip). lia.
    + rewrite (sub_day_same_date p t qp qt Ey Em Ed Eqp Eqt). lia.
  - assert (q = qt) by congruence. subst q.
    destruct (find (fun fh => fh <=? hour t) (rev hours)) as [ft|];
      destruct (find (fun fh => fh <=? hour p) (rev hours)) as [fp|].
    + destruct Ft as [_ [Rt _]]. destruct Fp as [_ [Rp _]]. lia.
    + destruct Ft as [_ [Rt _]]. lia.
    + destruct Ft as [_ [_ Ht]]. destruct Fp as [Ip _].
      specialize (Ht fp Ip). lia.
    + destruct Fp as [Np [H21 _]]. specialize (Np 21 H21). lia.
Qed.

Lemma rkey_steps (n : nat) :
  forall t p,
    dt_valid t = true -> sub_hours t n = Ret p -> 2 <= year p ->
    rkey cfg p <= rkey cfg t.
Proof.
  induction n as [|n IH]; intros t p Hv; simpl.
  - intros H _. injection H as <-. lia.
  - destruct (sub_hour t) as [q|e] eqn:Eq; [|discriminate]. cbn [bind].
    intros H Hy.
    destruct (sub_hour_spec t q Hv Eq) as [Hq _].
    pose proof (sub_hours_year n q p Hq H).
    pose proof (rkey_step t q Hv Eq ltac:(lia)).
    pose proof (IH q p Hq H Hy). lia.
Qed.

Lemma forecast_time_at_spec (i : nat) (c : datetime) :
  check_time_at cfg now i = Ret c -> 2 <= year c ->
  exists r,
    forecast_time_at cfg now i = Ret r /\ cycle_time cfg r
    /\ hkey r = rkey cfg c.
Proof.
  unfold check_time_at, forecast_time_at. intros E Hy. rewrite E. cbn [bind].
  apply round_to_cycle_spec; [|exact Hy]. eapply sub_hours_valid; eassumption.
Qed.

Lemma check_times_descend (i j : nat) (ci cj : datetime) :
  (i <= j)%nat ->
  check_time_at cfg now i = Ret ci -> check_time_at cfg now j = Ret cj ->
  2 <= year cj ->
  rkey cfg cj <= rkey cfg ci.
Proof.
  unfold check_time_at. intros Hij Ei Ej Hy.
  replace (j * 3 + data_delay_hours cfg)%nat
    with ((i * 3 + data_delay_hours cfg) + (j - i) * 3)%nat in Ej by lia.
  rewrite sub_hours_add, Ei in Ej. cbn [bind] in Ej.
  eapply rkey_steps; [|exact Ej|exact Hy]. eapply sub_hours_valid; eassumption.
Qed.

(** Every iteration up to one that returns a cycle of year 1000 or later
    steps to an instant of such a year. *)
Lemma steps_reach (n : nat) (oldest : datetime) :
  forecast_time_at cfg now n = Ret oldest -> 1000 <= year oldest ->
  forall i, (i <= n)%nat ->
            exists c, check_time_at cfg now i = Ret c /\ 1000 <= year c.
Proof.
  unfold forecast_time_at. intros E Hy i Hi.
  destruct (sub_hours now (n * 3 + data_delay_hours cfg)) as [cn|e] eqn:En;
    [|discriminate].
  cbn [bind] in E.
  pose proof (sub_hours_valid _ _ _ now_valid En) as Vn.
  pose proof (round_to_cycle_year cn oldest Vn E) as Yn.
  unfold check_time_at.
  replace (n * 3 + data_delay_hours cfg)%nat
    with ((i * 3 + data_delay_hours cfg) + (n - i) * 3)%nat in En by lia.
  destruct (sub_hours_earlier _ _ _ _ En) as [c Ec].
  exists c. split; [exact Ec|].
  rewrite sub_hours_add, Ec in En. cbn [bind] in En.
  pose proof (sub_hours_valid _ _ _ now_valid Ec) as Vc.
  pose proof (sub_hours_year _ _ _ Vc En). lia.
Qed.
End Candidates.

(** *** The code against the design document's wording *)

Lemma largest_cycle_hour_spec (hours : list Z) (h : Z) :
  match largest_cycle_hour hours h with
  | Some a => In a hours /\ a <= h /\ forall x, In x hours -> x <= h -> x <= a
  | None => forall x, In x hours -> h < x
  end.
Proof.
  induction hours as [|z l IH]; simpl; [intros x []|].
  destruct (z <=? h) eqn:E.
  - apply Z.leb_le in E.
    destruct (largest_cycle_hour l h) as [b|].
    + destruct IH as [Hin [Hle Hmax]].
      destruct (Z.max_spec z b) as [[Hlt ->]|[Hge ->]].
      * split; [now right|]. split; [exact Hle|].
        intros x [<-|Hx] Hxh; [lia | now apply Hmax].
      * split; [now left|]. split; [exact E|].
        intros x [<-|Hx] Hxh; [lia|]. specialize (Hmax x Hx Hxh). lia.
    + split; [now left|]. split; [exact E|].
      intros x [<-|Hx] Hxh; [lia|]. specialize (IH x Hx). lia.
  - apply Z.leb_gt in E.
    destruct (largest_cycle_hour l h) as [b|].
    + destruct IH as [Hin [Hle Hmax]].
      split; [now right|]. split; [exact Hle|].
      intros x [<-|Hx] Hxh; [lia | now apply Hmax].
    + intros x [<-|Hx]; [exact E | now apply IH].
Qed.

(** On an ascending list the reversed scan of the code finds the largest
    valid hour. *)
Lemma reversed_scan_is_largest (hours : list Z) (h : Z) :
  StronglySorted Z.le hours ->
  find (fun fh => fh <=? h) (rev hours) = largest_cycle_hour hours h.
Proof.
  intros Hs. pose proof (largest_cycle_hour_spec hours h) as L.
  destruct (find (fun fh => fh <=? h) (rev hours)) as [a|] eqn:E.
  - destruct (find_some _ _ E) as [Hin Hle].
    apply Z.leb_le in Hle. apply in_rev in Hin.
    pose proof (find_rev_sorted hours h a Hs E) as Hmax.
    destruct (largest_cycle_hour hours h) as [b|].
    + destruct L as [Hb [Hbh Hbmax]]. f_equal.
      specialize (Hmax b Hb Hbh). specialize (Hbmax a Hin Hle). lia.
    + specialize (L a Hin). lia.
  - destruct (largest_cycle_hour hours h) as [b|]; [|reflexivity].
    destruct L as [Hb [Hbh _]]. apply in_rev in Hb.
    apply (find_none _ _ E) in Hb. apply Z.leb_gt in Hb. lia.
Qed.

Lemma candidates_loop_unfold (cfg : config) (now : datetime) (idxs : list nat) :
  forall urls,
    candidates_loop cfg now idxs urls
    = (times <- map_py (forecast_time_at cfg now) idxs ;;
       Ret (fold_left add_unique (map (candidate_url (base_url cfg)) times) urls)).
Proof.
  induction idxs as [|i idxs IH]; intros urls; simpl; [reflexivity|].
  destruct (forecast_time_at cfg now i) as [r|e]; simpl; [|reflexivity].
  rewrite IH. fold (add_unique urls (candidate_url (base_url cfg) r)).
  destruct (map_py (forecast_time_at cfg now) idxs); reflexivity.
Qed.

Lemma map_py_ext {A B : Type} (f g : A -> py B) (l : list A) :
  (forall x, f x = g x) -> map_py f l = map_py g l.
Proof.
  intros H. induction l as [|x l IH]; simpl; [reflexivity|].
  now rewrite H, IH.
Qed.

Lemma map_py_in {A B : Type} (f : A -> py B) (l : list A) (ys : list B) :
  map_py f l = Ret ys ->
  forall y, In y ys -> exists x, In x l /\ f x = Ret y.
Proof.
  revert ys. induction l as [|x l IH]; intros ys; simpl.
  - intros H. injection H as <-. intros y [].
  - destruct (f x) as [y0|e] eqn:E; [|discriminate]. cbn [bind].
    destruct (map_py f l) as [ys0|e]; [|discriminate]. cbn [bind].
    intros H. injection H as <-. intros y [<-|Hy].
    + exists x. auto.
    + destruct (IH ys0 eq_refl y Hy) as [x' [Hx' E']]. exists x'. auto.
Qed.

Lemma generator_refines_spec (cfg : config) (now : datetime) (lookback : Z) :
  StronglySorted Z.le (forecast_hours cfg) ->
  generate_candidate_urls cfg now lookback = candidates_by_spec cfg now lookback.
Proof.
  intros Hs. unfold generate_candidate_urls, candidates_by_spec, num_intervals.
  rewrite candidates_loop_unfold.
  erewrite map_py_ext; [reflexivity|].
  intros i. unfold forecast_time_at.
  replace (i * 3 + data_delay_hours cfg)%nat
    with (3 * i + data_delay_hours cfg)%nat by lia.
  destruct (sub_hours now _) as [c|e]; [|reflexivity]. cbn [bind].
  unfold round_to_cycle, round_down_by_spec.
  now rewrite reversed_scan_is_largest.
Qed.

Lemma add_unique_nodup (l : list string) :
  forall urls, NoDup urls -> NoDup (fold_left add_unique l urls).
Proof.
  induction l as [|u l IH]; intros urls H; simpl; [exact H|].
  apply IH. unfold add_unique. destruct (str_in u urls) eqn:E; [exact H|].
  apply NoDup_app; [exact H | repeat constructor; intros [] |].
  intros x Hx [->|[]]. unfold str_in in E.
  assert (existsb (String.eqb x) urls = true); [|congruence].
  apply existsb_exists. exists x. split; [exact Hx | apply String.eqb_refl].
Qed.

Section Ordering.
Variable cfg : config.
Variable now : datetime.
Hypothesis hours_sorted : StronglySorted Z.le (forecast_hours cfg).
Hypothesis hours_wrap : wrap_is_valid (forecast_hours cfg).
Hypothesis now_valid : dt_valid now = true.

Local Abbreviation url_of := (candidate_url (base_url cfg)).
Local Abbreviation later_or_same := (fun x y : datetime => hkey y <= hkey x).
Local Abbreviation strictly_later := (fun x y : datetime => hkey y < hkey x).

(** The rounded instants of consecutive iterations never go forward. *)
Lemma raw_times_descend (k : nat) :
  forall a,
    (forall i, (a <= i < a + k)%nat ->
               exists c, check_time_at cfg now i = Ret c /\ 2 <= year c) ->
    exists raw,
      map_py (forecast_time_at cfg now) (seq a k) = Ret raw
      /\ Forall (cycle_time cfg) raw
      /\ StronglySorted later_or_same raw
      /\ forall c r, check_time_at cfg now a = Ret c -> In r raw ->
                     hkey r <= rkey cfg c.
Proof.
  induction k as [|k IH]; intros a Hreach.
  - exists []. simpl. repeat split; try constructor. intros c r _ [].
  - destruct (Hreach a ltac:(lia)) as [c [Hc Yc]].
    destruct (forecast_time_at_spec cfg now hours_sorted hours_wrap
                now_valid a c Hc Yc) as [r [Er [Cr Kr]]].
    destruct (IH (S a)) as [raw [Eraw [Craw [Sraw Braw]]]].
    { intros i Hi. apply Hreach. lia. }
    assert (Hbelow : Forall (fun y => hkey y <= hkey r) raw).
    { apply Forall_forall. intros y Hy.
      destruct k as [|k].
      - simpl in Eraw. injection Eraw as <-. destruct Hy.
      - destruct (Hreach (S a) ltac:(lia)) as [c' [Hc' Yc']].
        pose proof (Braw c' y Hc' Hy).
        pose proof (check_times_descend cfg now hours_sorted hours_wrap
                      now_valid a (S a) c c' ltac:(lia) Hc Hc' Yc').
        lia. }
    exists (r :: raw). simpl. rewrite Er. cbn [bind]. rewrite Eraw. cbn [bind].
    split; [reflexivity|]. split; [now constructor|].
    split; [now constructor|].
    intros c0 r0 Hc0 [<-|Hr0].
    + assert (c0 = c) by congruence. subst. lia.
    + assert (c0 = c) by congruence. subst.
      rewrite Forall_forall in Hbelow. specialize (Hbelow r0 Hr0). lia.
Qed.

Lemma str_in_url_of (r : datetime) (acc : list datetime) :
  candidate_time r -> Forall candidate_time acc ->
  str_in (url_of r) (map url_of acc) = true <-> In r acc.
Proof.
  intros Cr Hacc. unfold str_in. rewrite existsb_exists. split.
  - intros [u [Hu E]]. apply String.eqb_eq in E. subst u.
    apply in_map_iff in Hu. destruct Hu as [t [Et Ht]].
    rewrite Forall_forall in Hacc.
    assert (t = r) by (eapply candidate_url_inj; eauto). now subst.
  - intros Hin. exists (url_of r). split; [now apply in_map | apply String.eqb_refl].
Qed.

(** Dropping repeated URLs from a never-increasing sequence leaves a strictly
    decreasing one. *)
Lemma dedup_descending (raw : list datetime) :
  forall acc,
    Forall candidate_time raw -> Forall candidate_time acc ->
    StronglySorted later_or_same raw -> StronglySorted strictly_later acc ->
    (forall t r, In t acc -> In r raw -> hkey r <= hkey t) ->
    exists times,
      fold_left add_unique (map url_of raw) (map url_of acc) = map url_of times
      /\ Forall candidate_time times
      /\ StronglySorted strictly_later times
      /\ incl times (acc ++ raw).
Proof.
  induction raw as [|r raw IH]; intros acc Craw Cacc Sraw Sacc Hb.
  - exists acc. simpl. rewrite app_nil_r. auto using incl_refl.
  - inversion Craw as [|? ? Cr Craw']; subst.
    inversion Sraw as [|? ? Sraw' Hr]; subst.
    simpl. unfold add_unique at 2.
    destruct (str_in (url_of r) (map url_of acc)) eqn:E.
    + destruct (IH acc) as [times [E1 [C1 [S1 I1]]]]; auto.
      { intros t r' Ht Hr'. apply Hb; [exact Ht | now right]. }
      exists times. repeat split; auto.
      intros x Hx. apply I1 in Hx. apply in_app_or in Hx.
      apply in_or_app. destruct Hx; [now left | right; now right].
    + replace (map url_of acc ++ [url_of r]) with (map url_of (acc ++ [r]))
        by (now rewrite map_app).
      destruct (IH (acc ++ [r])) as [times [E1 [C1 [S1 I1]]]]; auto.
      * apply Forall_app. split; [exact Cacc | now constructor].
      * apply sorted_snoc; [exact Sacc|].
        apply Forall_forall. intros t Ht.
        assert (hkey r <= hkey t) by (apply Hb; [exact Ht | now left]).
        assert (hkey r <> hkey t); [|lia].
        intros Heq.
        rewrite Forall_forall in Cacc. destruct (Cacc t Ht) as [Vt [Wt Yt]].
        destruct Cr as [Vr [Wr Yr]].
        assert (r = t) by (apply hkey_inj; assumption). subst t.
        assert (str_in (url_of r) (map url_of acc) = true); [|congruence].
        apply str_in_url_of; [exact (conj Vr (conj Wr Yr)) | |exact Ht].
        apply Forall_forall. exact Cacc.
      * intros t r' Ht Hr'. apply in_app_or in Ht.
        destruct Ht as [Ht|[<-|[]]].
        -- apply Hb; [exact Ht | now right].
        -- rewrite Forall_forall in Hr. now apply Hr.
      * exists times. repeat split; auto.
        intros x Hx. apply I1 in Hx. rewrite <- app_assoc in Hx. exact Hx.
Qed.

Lemma strictly_later_ltb (times : list datetime) :
  Forall candidate_time times ->
  StronglySorted strictly_later times ->
  StronglySorted (fun a b => dt_ltb b a = true) times.
Proof.
  intros C S. induction S as [|a l S IH Hf]; [constructor|].
  inversion C as [|? ? [Va [Wa _]] Cl]; subst.
  constructor; [now apply IH|].
  rewrite Forall_forall in *. intros b Hb.
  destruct (Cl b Hb) as [Vb [Wb _]].
  apply dt_ltb_key; try assumption.
  rewrite (whole_hour_key a Wa), (whole_hour_key b Wb).
  specialize (Hf b Hb). simpl in Hf. lia.
Qed.

(** The list the generator returns, by its cycle times. *)
Lemma candidate_urls_by_time (lookback : Z) :
  oldest_candidate_named cfg now lookback ->
  exists times,
    generate_candidate_urls cfg now lookback = Ret (map url_of times)
    /\ Forall candidate_time times
    /\ Forall (fun t => In (hour t) (forecast_hours cfg)) times
    /\ StronglySorted strictly_later times.
Proof.
  intros Hold. set (n := num_intervals lookback) in *.
  assert (Hreach : forall i, (0 <= i < 0 + n)%nat ->
                             exists c, check_time_at cfg now i = Ret c
                                       /\ 1000 <= year c).
  { intros i Hi. destruct Hold as [Hz|[oldest [Eo Yo]]]; [fold n in Hz; lia|].
    fold n in Eo.
    apply (steps_reach cfg now now_valid (n - 1) oldest Eo Yo). lia. }
  destruct (raw_times_descend n 0%nat) as [raw [Eraw [Craw [Sraw _]]]].
  { intros i Hi. destruct (Hreach i Hi) as [c [Ec Yc]]. exists c.
    split; [exact Ec | lia]. }
  assert (Yraw : Forall candidate_time raw).
  { apply Forall_forall. intros r Hr.
    rewrite Forall_forall in Craw. destruct (Craw r Hr) as [Vr [Wr _]].
    split; [exact Vr|]. split; [exact Wr|].
    destruct Hold as [Hz|[oldest [Eo Yo]]].
    { fold n in Hz. rewrite Hz in Eraw. simpl in Eraw.
      injection Eraw as <-. destruct Hr. }
    fold n in Eo.
    destruct (map_py_in _ _ _ Eraw r Hr) as [i [Hi Ei]].
    apply in_seq in Hi.
    destruct (Hreach i ltac:(lia)) as [ci [Eci Yci]].
    destruct (Hreach (n - 1)%nat ltac:(lia)) as [cn [Ecn Ycn]].
    destruct (forecast_time_at_spec cfg now hours_sorted hours_wrap now_valid
                i ci Eci ltac:(lia)) as [r' [Er' [_ Kr]]].
    destruct (forecast_time_at_spec cfg now hours_sorted hours_wrap now_valid
                (n - 1) cn Ecn ltac:(lia)) as [o' [Eo' [[Vo _] Ko]]].
    assert (r' = r) by congruence. subst r'.
    assert (o' = oldest) by congruence. subst o'.
    pose proof (check_times_descend cfg now hours_sorted hours_wrap now_valid
                  i (n - 1) ci cn ltac:(lia) Eci Ecn ltac:(lia)).
    assert (year oldest <= year r); [|lia].
    apply hkey_year; try assumption. lia. }
  destruct (dedup_descending raw [] Yraw ltac:(constructor) Sraw
              ltac:(constructor) ltac:(intros t r []))
    as [times [Etimes [Ctimes [Stimes Itimes]]]].
  simpl in Etimes, Itimes. exists times.
  split; [|split; [exact Ctimes|split; [|exact Stimes]]].
  - unfold generate_candidate_urls. fold n.
    rewrite candidates_loop_unfold, Eraw. cbn [bind]. now rewrite Etimes.
  - apply Forall_forall. intros t Ht. apply Itimes in Ht.
    rewrite Forall_forall in Craw. now destruct (Craw t Ht) as [_ [_ Hh]].
Qed.
End Ordering.

(** C4, as stated, fails: with the valid hours [6] an instant at 03:30 is
    wrapped to 21:00 of the previous day, an hour outside the set; with the
    hours listed as [3, 0] an instant at 05:00 is rounded to hour 0 and not
    to the largest valid hour below it. *)
Lemma candidate_hour_outside_valid_set :
  (generate_candidate_urls only_six (mkdt 2025 12 19 3 30 0 0) 0
   = Ret ["http://gpv/20251218/MSM2025121821S.nc"]
   /\ embedded_cycle "http://gpv/20251218/MSM2025121821S.nc"
      = Ret (Some (mkdt 2025 12 18 21 0 0 0))
   /\ ~ In 21 (forecast_hours only_six))
  /\ (generate_candidate_urls three_then_zero (mkdt 2025 12 19 5 0 0 0) 0
      = Ret ["http://gpv/20251219/MSM2025121900S.nc"]
      /\ largest_cycle_hour (forecast_hours three_then_zero) 5 = Some 3).
Proof.
  split; [split; [reflexivity | split; [reflexivity|]] | split; reflexivity].
  simpl. intros [H|[]]. discriminate H.
Qed.

Example candidates_for_scenario :
  generate_candidate_urls sample_config (mkdt 2025 12 19 5 0 0 0) 12
  = Ret (map (fun s => base_url sample_config +++ s)
             [ "20251219/MSM2025121903S.nc"; "20251219/MSM2025121900S.nc";
               "20251218/MSM2025121821S.nc"; "20251218/MSM2025121818S.nc";
               "20251218/MSM2025121815S.nc"; "20251218/MSM2025121812S.nc" ]).
Proof. reflexivity. Qed.

(** The wrap at work: without hour 0 the first instant, 01:30, has no valid
    hour at or below it and goes to 21:00 of the day before. *)
Example candidates_through_the_wrap :
  generate_candidate_urls from_three (mkdt 2025 12 19 1 30 0 0) 0
  = Ret ["http://gpv/20251218/MSM2025121821S.nc"].
Proof. reflexivity. Qed.

(** C4 (amended): for every current time, publication delay and lookback
    window, and every valid-hour set that is listed in ascending order and
    in which the wrap lands on a cycle (hour 0 is valid, so that no instant
    wraps, or 21 is valid and is the last of the hours, all of them within
    0..21), the generator returns a list without duplicate URLs, strictly
    ordered newest-first by the cycle time embedded in each URL, with every
    embedded hour drawn from the valid-hour set; the list is the one
    obtained by stepping back in 3-hour increments for lookback/3 + 2
    iterations and rounding each stepped instant down to the largest valid
    cycle hour not above its hour-of-day, wrapping to 21:00 of the previous
    day when none qualifies.  The last iteration has to give a cycle time
    of year 1000 or later: before that [strftime] writes the year in fewer
    than four digits and the name does not carry its cycle time. *)
Theorem candidate_urls_newest_first
        (cfg : config) (now : datetime) (lookback : Z) :
  StronglySorted Z.le (forecast_hours cfg) ->
  wrap_is_valid (forecast_hours cfg) ->
  dt_valid now = true ->
  oldest_candidate_named cfg now lookback ->
  exists urls times,
    generate_candidate_urls cfg now lookback = Ret urls
    /\ candidates_by_spec cfg now lookback = Ret urls
    /\ NoDup urls
    /\ map embedded_cycle urls = map (fun t => Ret (Some t)) times
    /\ StronglySorted (fun a b => dt_ltb b a = true) times
    /\ Forall (fun t => In (hour t) (forecast_hours cfg)) times.
Proof.
  intros Hs Hw Hv Hold.
  destruct (candidate_urls_by_time cfg now Hs Hw Hv lookback Hold)
    as [times [E [Ctimes [Htimes Stimes]]]].
  exists (map (candidate_url (base_url cfg)) times), times.
  split; [exact E|].
  split; [now rewrite <- generator_refines_spec|].
  split.
  { pose proof E as E'. unfold generate_candidate_urls in E'.
    rewrite candidates_loop_unfold in E'.
    destruct (map_py _ _) as [raw|e]; [|discriminate]. cbn [bind] in E'.
    injection E' as <-. apply add_unique_nodup. constructor. }
  split.
  { rewrite map_map. apply map_ext_in. intros t Ht.
    rewrite Forall_forall in Ctimes. destruct (Ctimes t Ht) as [Vt [Wt Yt]].
    now apply embedded_cycle_candidate. }
  split; [|exact Htimes].
  now apply (strictly_later_ltb times).
Qed.

Lemma candidate_urls_newest_first_witness :
  exists urls times,
    generate_candidate_urls from_three (mkdt 2025 12 19 1 30 0 0) 12 = Ret urls
    /\ candidates_by_spec from_three (mkdt 2025 12 19 1 30 0 0) 12 = Ret urls
    /\ NoDup urls
    /\ map embedded_cycle urls = map (fun t => Ret (Some t)) times
    /\ StronglySorted (fun a b => dt_ltb b a = true) times
    /\ Forall (fun t => In (hour t) (forecast_hours from_three)) times.
Proof.
  apply candidate_urls_newest_first.
  - simpl. repeat constructor; lia.
  - right. simpl. split; [auto 6|]. repeat constructor; lia.
  - reflexivity.
  - right. eexists. split; [vm_compute; reflexivity | simpl; lia].
Defined.

(** ** Retention reconciler *)

(** *** Directory lemmas *)

Lemma lookup_in (d : directory) (n : string) (x : node) :
  NoDup (names d) -> In (n, x) d -> lookup d n = Some x.
Proof.
  induction d as [|[m y] d IH]; simpl; intros Hnd Hin; [destruct Hin|].
  inversion Hnd as [|? ? Hm Hd]; subst.
  destruct Hin as [E|Hin].
  - injection E as -> ->. now rewrite String.eqb_refl.
  - destruct (String.eqb m n) eqn:E; [|now apply IH].
    apply String.eqb_eq in E. subst m. exfalso. apply Hm.
    unfold names. apply in_map_iff. now exists (n, x).
Qed.

Lemma lookup_some (d : directory) (n : string) (x : node) :
  lookup d n = Some x -> In (n, x) d.
Proof.
  induction d as [|[m y] d IH]; simpl; [discriminate|].
  destruct (String.eqb m n) eqn:E.
  - apply String.eqb_eq in E. intros H. injection H as ->. subst. now left.
  - intros H. right. now apply IH.
Qed.


Lemma names_filter_nodup (f : string * node -> bool) (d : directory) :
  NoDup (names d) -> NoDup (names (filter f d)).
Proof.
  unfold names. induction d as [|e d IH]; simpl; intros H; [constructor|].
  inversion H as [|? ? Hn Hd]; subst.
  destruct (f e); simpl; [|now apply IH].
  constructor; [|now apply IH].
  intros Hin. apply Hn. apply in_map_iff in Hin.
  destruct Hin as [e' [E He']]. apply filter_In in He'.
  apply in_map_iff. exists e'. tauto.
Qed.

Lemma filter_filter {A : Type} (f g : A -> bool) (l : list A) :
  filter f (filter g l) = filter (fun x => g x && f x) l.
Proof.
  induction l as [|x l IH]; simpl; [reflexivity|].
  destruct (g x); simpl; [destruct (f x)|]; now rewrite IH.
Qed.

Lemma delete_measure (d : directory) (n : string) (x : node) :
  NoDup (names d) -> lookup d n = Some x ->
  Z.of_nat (List.length d) = Z.of_nat (List.length (delete d n)) + 1
  /\ total_bytes d = total_bytes (delete d n) + node_size x.
Proof.
  unfold delete.
  induction d as [|[m y] d IH]; simpl; intros Hnd Hl; [discriminate|].
  inversion Hnd as [|? ? Hm Hd]; subst.
  destruct (String.eqb m n) eqn:E; simpl.
  - injection Hl as ->. apply String.eqb_eq in E. subst m.
    assert (F : filter (fun e => negb (String.eqb (fst e) n)) d = d).
    { apply forallb_filter_id. apply forallb_forall. intros e He.
      apply negb_true_iff. apply String.eqb_neq. intros <-.
      apply Hm. unfold names. now apply in_map. }
    rewrite F. lia.
  - destruct (IH Hd Hl) as [L B]. simpl. lia.
Qed.

Lemma entry_by_name (d : directory) (e : string * node) :
  NoDup (names d) -> In e d -> lookup d (fst e) = Some (snd e).
Proof. intros Hnd Hin. apply lookup_in; [exact Hnd | now destruct e]. Qed.

(** *** The deletion loop *)

Lemma delete_files_spec (todo : list (datetime * string)) :
  forall d c b,
    NoDup (names d) ->
    let d' := filter (fun e => negb (will_delete todo e)) d in
    delete_files d todo c b
    = (d', (c + (Z.of_nat (List.length d) - Z.of_nat (List.length d')),
            b + (total_bytes d - total_bytes d'))).
Proof.
  induction todo as [|[t n] rest IH]; intros d c b Hnd; cbv zeta.
  - assert (F : filter (fun e => negb (will_delete [] e)) d = d).
    { apply forallb_filter_id. apply forallb_forall. intros e _.
      unfold will_delete, named_in. simpl. now rewrite andb_false_r. }
    rewrite F. simpl. now rewrite !Z.sub_diag, !Z.add_0_r.
  - simpl delete_files. unfold os_path_getsize, os_remove.
    assert (Skip :
              removable_file (match lookup d n with Some x => x | None => Dir 0 end)
              = false ->
              filter (fun e => negb (will_delete ((t, n) :: rest) e)) d
              = filter (fun e => negb (will_delete rest e)) d).
    { intros Hr. apply filter_ext_in. intros e He. f_equal.
      unfold will_delete, named_in. simpl.
      destruct (String.eqb (fst e) n) eqn:E; [|reflexivity].
      apply String.eqb_eq in E. subst n.
      rewrite (entry_by_name d e Hnd He) in Hr. now rewrite Hr. }
    destruct (lookup d n) as [[data [|]|sz]|] eqn:L; cbn [bind].
    + pose proof (delete_measure d n _ Hnd L) as [ML MB].
      rewrite (IH (delete d n)) by (apply names_filter_nodup; exact Hnd).
      cbv zeta.
      assert (F : filter (fun e => negb (will_delete rest e)) (delete d n)
                  = filter (fun e => negb (will_delete ((t, n) :: rest) e)) d).
      { unfold delete. rewrite filter_filter. apply filter_ext_in.
        intros e He. unfold will_delete, named_in. simpl.
        destruct (String.eqb (fst e) n) eqn:E; simpl.
        - apply String.eqb_eq in E. subst n.
          rewrite (entry_by_name d e Hnd He) in L. injection L as ->.
          reflexivity.
        - reflexivity. }
      rewrite F. simpl node_size in MB |- *.
      apply f_equal2; [reflexivity|]. apply f_equal2; lia.
    + rewrite (IH d) by exact Hnd. cbv zeta. now rewrite Skip.
    + rewrite (IH d) by exact Hnd. cbv zeta. now rewrite Skip.
    + rewrite (IH d) by exact Hnd. cbv zeta. now rewrite Skip.
Qed.

(** *** The scan *)

Lemma parse_some_valid (s : string) (t : datetime) :
  parse_filename s = Ret (Some t) -> dt_valid t = true /\ whole_hour t.
Proof.
  intros H.
  destruct (parse_filename_cases s)
    as [N | (y & m & d & h & t' & _ & _ & _ & _ & _ & _ & Ht & E)].
  - congruence.
  - assert (t' = t) by congruence. subst t'.
    destruct (new_datetime_ret _ _ _ _ _ Ht) as [-> Hv].
    split; [exact Hv | repeat split].
Qed.

Lemma collect_nc_spec (d : directory) :
  NoDup (names d) ->
  forall listing, incl listing d -> collect_nc d listing = Ret (datasets listing).
Proof.
  intros Hnd. induction listing as [|[n x] rest IH]; intros Hincl; [reflexivity|].
  assert (Hrest : incl rest d) by (intros e He; apply Hincl; now right).
  specialize (IH Hrest).
  assert (Hl : lookup d n = Some x)
    by (apply lookup_in; [exact Hnd | apply Hincl; now left]).
  simpl. unfold os_path_isfile, dataset_time. rewrite Hl. simpl.
  destruct (endswith n ".nc"); simpl; [|now destruct x].
  destruct x as [data r|sz]; simpl; [|exact IH].
  destruct (parse_filename_cases n)
    as [N | (y & m & dd & h & t & _ & _ & _ & _ & _ & _ & _ & E)].
  - rewrite N. cbn [bind]. now rewrite IH.
  - rewrite E. cbn [bind]. now rewrite IH.
Qed.

Lemma in_datasets (d : directory) (t : datetime) (n : string) :
  In (t, n) (datasets d)
  <-> exists x, In (n, x) d /\ dataset_time (n, x) = Some t.
Proof.
  induction d as [|[m y] d IH]; simpl.
  - split; [intros [] | intros [x [[] _]]].
  - destruct (dataset_time (m, y)) as [t0|] eqn:E; simpl.
    + split.
      * intros [H|H].
        -- injection H as -> ->. exists y. auto.
        -- apply IH in H. destruct H as [x [Hx Hd]]. exists x. auto.
      * intros [x [[H|H] Hd]].
        -- injection H as -> ->. left. congruence.
        -- right. apply IH. eauto.
    + rewrite IH. split.
      * intros [x [Hx Hd]]. exists x. auto.
      * intros [x [[H|H] Hd]]; [|eauto].
        injection H as -> ->. congruence.
Qed.

Lemma datasets_valid (d : directory) (t : datetime) (n : string) :
  In (t, n) (datasets d) -> dt_valid t = true.
Proof.
  intros H. apply in_datasets in H. destruct H as [x [_ Hd]].
  unfold dataset_time in Hd. simpl in Hd.
  destruct x; [|discriminate]. destruct (endswith n ".nc"); [|discriminate].
  destruct (parse_filename n) as [[t'|]|] eqn:P; try discriminate.
  injection Hd as <-. now destruct (parse_some_valid n t' P).
Qed.

Lemma dataset_names_nodup (d : directory) :
  NoDup (names d) -> NoDup (map snd (datasets d)).
Proof.
  induction d as [|[m y] d IH]; simpl; intros H; [constructor|].
  inversion H as [|? ? Hm Hd]; subst.
  destruct (dataset_time (m, y)); simpl; [|now apply IH].
  constructor; [|now apply IH].
  intros Hin. apply Hm. apply in_map_iff in Hin.
  destruct Hin as [[t n] [E Hin]]. simpl in E. subst n.
  apply in_datasets in Hin. destruct Hin as [x [Hx _]].
  unfold names. apply in_map_iff. now exists (m, x).
Qed.

Lemma dataset_named (d : directory) (e : string * node) :
  NoDup (names d) -> In e d ->
  In (fst e) (map snd (datasets d)) <-> is_dataset e = true.
Proof.
  intros Hnd He. unfold is_dataset. split.
  - intros Hin. apply in_map_iff in Hin. destruct Hin as [[t n] [E Hin]].
    simpl in E. subst n. apply in_datasets in Hin.
    destruct Hin as [x [Hx Hd]].
    pose proof (lookup_in d _ _ Hnd Hx) as L1.
    rewrite (entry_by_name d e Hnd He) in L1. injection L1 as L1.
    destruct e as [n y]. simpl in *. subst y. now rewrite Hd.
  - destruct (dataset_time e) as [t|] eqn:E; [|discriminate]. intros _.
    apply in_map_iff. exists (t, fst e). split; [reflexivity|].
    apply in_datasets. exists (snd e). now destruct e.
Qed.

(** *** The sort *)

Lemma insert_desc_perm (x : datetime * string) (l : list (datetime * string)) :
  Permutation (insert_desc x l) (x :: l).
Proof.
  induction l as [|y l IH]; simpl; [reflexivity|].
  destruct (dt_ltb (fst x) (fst y)); [|reflexivity].
  rewrite IH. apply perm_swap.
Qed.

Lemma sort_desc_perm (l : list (datetime * string)) :
  Permutation (sort_desc l) l.
Proof.
  induction l as [|x l IH]; simpl; [reflexivity|].
  rewrite insert_desc_perm. now constructor.
Qed.

Lemma insert_desc_sorted (x : datetime * string) (l : list (datetime * string)) :
  dt_valid (fst x) = true -> Forall (fun y => dt_valid (fst y) = true) l ->
  StronglySorted not_older l -> StronglySorted not_older (insert_desc x l).
Proof.
  intros Hx Hl Hs. induction Hs as [|y l Hs IH Hf]; simpl.
  - repeat constructor.
  - inversion Hl as [|? ? Hy Hl']; subst.
    destruct (dt_ltb (fst x) (fst y)) eqn:E.
    + apply (dt_ltb_key _ _ Hx Hy) in E.
      constructor; [now apply IH|].
      apply Forall_forall. intros z Hz.
      apply (Permutation_in _ (insert_desc_perm x l)) in Hz.
      destruct Hz as [<-|Hz].
      * unfold not_older, key_of. lia.
      * rewrite Forall_forall in Hf. now apply Hf.
    + assert (K : key_of y <= key_of x).
      { unfold key_of. destruct (Z.lt_ge_cases (dt_key (fst x)) (dt_key (fst y)))
          as [Hlt|Hge]; [|exact Hge].
        apply (dt_ltb_key _ _ Hx Hy) in Hlt. congruence. }
      constructor; [now constructor|].
      constructor; [exact K|].
      rewrite Forall_forall in *. intros z Hz. specialize (Hf z Hz).
      unfold not_older in *. lia.
Qed.

Lemma sort_desc_sorted (l : list (datetime * string)) :
  Forall (fun y => dt_valid (fst y) = true) l ->
  StronglySorted not_older (sort_desc l).
Proof.
  induction l as [|x l IH]; simpl; intros H; [constructor|].
  inversion H as [|? ? Hx Hl]; subst.
  apply insert_desc_sorted; [exact Hx | | now apply IH].
  apply Forall_forall. intros y Hy.
  apply (Permutation_in _ (sort_desc_perm l)) in Hy.
  rewrite Forall_forall in Hl. now apply Hl.
Qed.

Lemma dt_leb_key (a b : datetime) :
  dt_valid a = true -> dt_valid b = true ->
  dt_leb a b = true <-> dt_key a <= dt_key b.
Proof.
  intros Ha Hb. unfold dt_leb. rewrite (dt_cmp_key a b Ha Hb).
  destruct (Z.compare_spec (dt_key a) (dt_key b)); split; intros; try lia;
    try discriminate; reflexivity.
Qed.

(** The head of the sorted list is a newest entry. *)
Lemma sort_desc_head (l : list (datetime * string)) k rest :
  Forall (fun y => dt_valid (fst y) = true) l ->
  sort_desc l = k :: rest ->
  In k l /\ forall x, In x l -> dt_leb (fst x) (fst k) = true.
Proof.
  intros Hv E. pose proof (sort_desc_sorted l Hv) as S.
  pose proof (sort_desc_perm l) as P. rewrite E in S, P.
  rewrite Forall_forall in Hv.
  assert (Hk : In k l) by (apply (Permutation_in _ P); now left).
  split; [exact Hk|]. intros x Hx.
  apply dt_leb_key; [now apply Hv | now apply Hv |].
  apply (Permutation_in _ (Permutation_sym P)) in Hx.
  inversion S as [|? ? _ Hf]; subst.
  destruct Hx as [<-|Hx]; [lia|].
  rewrite Forall_forall in Hf. now apply Hf.
Qed.

(** *** What a cleanup removes *)

Lemma partition_measure (f : string * node -> bool) (d : directory) :
  Z.of_nat (List.length d)
  - Z.of_nat (List.length (filter (fun e => negb (f e)) d))
  = Z.of_nat (List.length (filter f d))
  /\ total_bytes d - total_bytes (filter (fun e => negb (f e)) d)
     = total_bytes (filter f d).
Proof.
  unfold total_bytes.
  induction d as [|e d [IL IB]]; [split; reflexivity|].
  cbn [filter]. destruct (f e);
    cbn [negb List.length fold_right]; rewrite ?Nat2Z.inj_succ; lia.
Qed.

Lemma named_in_iff (todo : list (datetime * string)) (e : string * node) :
  named_in todo e = true <-> In (fst e) (map snd todo).
Proof.
  unfold named_in. rewrite existsb_exists. split.
  - intros [n [Hn E]]. apply String.eqb_eq in E. now subst.
  - intros H. exists (fst e). split; [exact H | apply String.eqb_refl].
Qed.

Lemma delete_files_result (d : directory) (todo : list (datetime * string))
      (kept : option string) :
  NoDup (names d) ->
  (forall e, In e d -> will_delete todo e = is_victim kept e) ->
  (let '(d', r) := delete_files d todo 0 0 in (d', Ret r))
  = cleanup_result d kept.
Proof.
  intros Hnd Hsame. rewrite (delete_files_spec todo d 0 0 Hnd). cbv zeta.
  assert (F : filter (fun e => negb (will_delete todo e)) d
              = filter (fun e => negb (is_victim kept e)) d).
  { apply filter_ext_in. intros e He. now rewrite Hsame. }
  rewrite F. destruct (partition_measure (is_victim kept) d) as [L B].
  unfold cleanup_result. rewrite !Z.add_0_l, L, B. reflexivity.
Qed.

Lemma cleanup_old_files_spec (d : directory) (keep_latest : bool) :
  NoDup (names d) ->
  exists kept,
    keeps d keep_latest kept
    /\ cleanup_old_files d keep_latest = cleanup_result d kept.
Proof.
  intros Hnd. unfold cleanup_old_files.
  rewrite (collect_nc_spec d Hnd d (incl_refl d)).
  assert (Hvalid : Forall (fun y => dt_valid (fst y) = true) (datasets d)).
  { apply Forall_forall. intros [t n] H. simpl. eapply datasets_valid, H. }
  pose proof (dataset_names_nodup d Hnd) as Hnames.
  pose proof (sort_desc_perm (datasets d)) as P.
  destruct (datasets d) as [|p l] eqn:D.
  - exists None. split; [now right|].
    assert (Hnone : forall e, In e d -> is_victim None e = false).
    { intros e He. unfold is_victim.
      destruct (is_dataset e) eqn:E; [|now rewrite andb_false_r].
      apply (dataset_named d e Hnd He) in E. rewrite D in E. destruct E. }
    unfold cleanup_result.
    replace (filter (fun e => negb (is_victim None e)) d) with d.
    + replace (filter (is_victim None) d) with (@nil (string * node));
        [reflexivity|].
      symmetry. clear - Hnone. induction d as [|e d IH]; [reflexivity|].
      simpl. rewrite Hnone by now left. apply IH. intros x Hx. apply Hnone.
      now right.
    + symmetry. apply forallb_filter_id. apply forallb_forall. intros e He.
      now rewrite Hnone.
  - rewrite <- D in *. destruct keep_latest.
    + destruct (sort_desc (datasets d)) as [|[t k] rest] eqn:S.
      { apply Permutation_nil in P. rewrite D in P. discriminate. }
      destruct (sort_desc_head (datasets d) (t, k) rest Hvalid S) as [Hk Hmax].
      exists (Some k). split.
      * split; [reflexivity|]. exists t. split; [exact Hk|].
        intros t' n' H. exact (Hmax (t', n') H).
      * simpl tl.
        apply delete_files_result; [exact Hnd|].
        intros e He. unfold will_delete, is_victim.
        rewrite <- andb_assoc. f_equal.
        assert (Pn : Permutation (k :: map snd rest) (map snd (datasets d)))
          by (change (k :: map snd rest) with (map snd ((t, k) :: rest));
              now apply Permutation_map).
        assert (Nk : NoDup (k :: map snd rest))
          by (eapply Permutation_NoDup; [apply Permutation_sym, Pn | exact Hnames]).
        inversion Nk as [|? ? Hkn _]; subst.
        apply eq_true_iff_eq. rewrite named_in_iff, andb_true_iff,
          negb_true_iff, String.eqb_neq, <- (dataset_named d e Hnd He).
        split.
        -- intros H. split.
           ++ apply (Permutation_in _ Pn). now right.
           ++ intros E. rewrite E in H. contradiction.
        -- intros [H Hne]. apply (Permutation_in _ (Permutation_sym Pn)) in H.
           destruct H as [H|H]; [congruence | exact H].
    + exists None. split; [now left|].
      apply delete_files_result; [exact Hnd|].
      intros e He. unfold will_delete, is_victim.
      rewrite andb_true_r. f_equal.
      apply eq_true_iff_eq.
      rewrite named_in_iff, <- (dataset_named d e Hnd He).
      split; intros H.
      * eapply Permutation_in; [apply Permutation_map, P | exact H].
      * eapply Permutation_in;
          [apply Permutation_map, Permutation_sym, P | exact H].
Qed.

(** *** What is left after a cleanup *)


Lemma datasets_none (d : directory) :
  (forall e, In e d -> is_dataset e = false) -> datasets d = [].
Proof.
  induction d as [|e d IH]; intros H; simpl; [reflexivity|].
  pose proof (H e ltac:(now left)) as He. unfold is_dataset in He.
  destruct (dataset_time e); [discriminate|].
  apply IH. intros x Hx. apply H. now right.
Qed.

Lemma others_all_removed (d : directory) (k : string) :
  ~ In k (names d) -> all_removable d ->
  datasets (filter (fun e => negb (is_victim (Some k) e)) d) = [].
Proof.
  induction d as [|e d IH]; intros Hk Hr; simpl; [reflexivity|].
  assert (Hd : datasets (filter (fun e => negb (is_victim (Some k) e)) d) = []).
  { apply IH; [intros H; apply Hk; now right|].
    intros x Hx. apply Hr. now right. }
  assert (Ne : String.eqb (fst e) k = false).
  { apply String.eqb_neq. intros E. apply Hk. left. exact E. }
  unfold is_victim at 1. rewrite Ne. simpl negb. rewrite andb_true_r.
  destruct (is_dataset e) eqn:E.
  - rewrite (Hr e ltac:(now left) E). simpl. exact Hd.
  - rewrite andb_false_r. simpl.
    unfold is_dataset in E. destruct (dataset_time e); [discriminate | exact Hd].
Qed.

Lemma newest_alone_after_cleanup (d : directory) (t : datetime) (k : string) :
  NoDup (names d) -> In (t, k) (datasets d) -> all_removable d ->
  datasets (filter (fun e => negb (is_victim (Some k) e)) d) = [(t, k)].
Proof.
  induction d as [|e d IH]; intros Hnd Hin Hr; [destruct Hin|].
  inversion Hnd as [|? ? Hn Hd]; subst.
  assert (Hr' : all_removable d) by (intros x Hx; apply Hr; now right).
  simpl in Hin |- *.
  destruct (dataset_time e) as [t0|] eqn:E.
  - assert (Eds : is_dataset e = true) by (unfold is_dataset; now rewrite E).
    destruct (String.eqb (fst e) k) eqn:Ek.
    + apply String.eqb_eq in Ek.
      assert (t0 = t).
      { destruct Hin as [H|H]; [congruence|].
        exfalso. apply Hn. apply in_datasets in H. destruct H as [x [Hx _]].
        unfold names. apply in_map_iff. exists (k, x). now split. }
      subst t0.
      assert (V : is_victim (Some k) e = false).
      { unfold is_victim. rewrite <- Ek, String.eqb_refl. simpl.
        now rewrite andb_false_r. }
      rewrite V. simpl. rewrite E, Ek.
      rewrite others_all_removed; [reflexivity | | exact Hr'].
      now rewrite <- Ek.
    + assert (V : is_victim (Some k) e = true).
      { unfold is_victim. rewrite Ek, Eds, (Hr e ltac:(now left) Eds).
        reflexivity. }
      rewrite V. simpl. apply IH; try assumption.
      destruct Hin as [H|H]; [|exact H].
      injection H as _ H. apply String.eqb_neq in Ek. contradiction.
  - assert (V : is_victim (Some k) e = false).
    { unfold is_victim, is_dataset. rewrite E. now rewrite andb_false_r. }
    rewrite V. simpl. rewrite E. now apply IH.
Qed.

Lemma starts_with_shorter (l p q : list ascii) :
  starts_with l (p ++ q) = true -> starts_with l p = true.
Proof.
  revert l. induction p as [|c p IH]; intros l; simpl; [reflexivity|].
  destruct l as [|a l]; [discriminate|].
  intros H. apply andb_prop in H. destruct H as [-> H]. simpl. now apply IH.
Qed.

Lemma endswith_nc (s : string) :
  endswith s "S.nc" = true -> endswith s ".nc" = true.
Proof.
  unfold endswith. intros H.
  apply (starts_with_shorter _ (rev (chars ".nc")) ["S"%char]). exact H.
Qed.

Lemma parsed_file_is_dataset (n : string) (t : datetime)
      (data : list Byte.byte) (r : bool) :
  parse_filename n = Ret (Some t) -> dataset_time (n, File data r) = Some t.
Proof.
  intros P. unfold dataset_time. simpl.
  destruct (parse_filename_cases n)
    as [N | (y & m & dd & h & t' & _ & Hs & _)]; [congruence|].
  rewrite (endswith_nc n Hs). now rewrite P.
Qed.

Lemma survivors_not_datasets (d : directory) :
  all_removable d ->
  forall e, In e (filter (fun e => negb (is_victim None e)) d) ->
            is_dataset e = false.
Proof.
  intros Hr e He. apply filter_In in He. destruct He as [He V].
  destruct (is_dataset e) eqn:E; [|reflexivity].
  unfold is_victim in V. rewrite E, (Hr e He E) in V. discriminate.
Qed.

Lemma keeps_all_go (d : directory) (kept : option string) :
  keeps d false kept -> kept = None.
Proof. destruct kept as [k|]; [intros [H _]; discriminate | reflexivity]. Qed.

Lemma keeps_newest (d : directory) (kept : option string) :
  keeps d true kept -> datasets d <> [] ->
  exists k t,
    kept = Some k /\ In (t, k) (datasets d)
    /\ forall t' n', In (t', n') (datasets d) -> dt_leb t' t = true.
Proof.
  destruct kept as [k|]; simpl.
  - intros [_ [t [Hin Hmax]]] _. now exists k, t.
  - intros [H|H]; [discriminate | contradiction].
Qed.



Example cleanup_three_files :
  cleanup_old_files three_files true
  = ([("notes.nc", File [Byte.x00; Byte.x01] true);
      ("MSM2025122403S.nc", File four_bytes true)], Ret (1, 1)).
Proof. reflexivity. Qed.



(** ** The cached-file shortcut of [download_auto] *)

Lemma lookup_filter_kept (f : string * node -> bool) (d : directory)
      (n : string) (x : node) :
  lookup d n = Some x -> f (n, x) = true -> lookup (filter f d) n = Some x.
Proof.
  induction d as [|[m y] d IH]; simpl; [discriminate|].
  destruct (String.eqb m n) eqn:E.
  - apply String.eqb_eq in E. subst m. intros H Hf. injection H as ->.
    rewrite Hf. simpl. now rewrite String.eqb_refl.
  - intros H Hf. destruct (f (m, y)); simpl; [rewrite E|]; now apply IH.
Qed.

(** When every other cached dataset file is older, the shortcut leaves the
    discovered file as it is. *)
Lemma shortcut_keeps_strictly_newest (cfg : config) (env : nat -> attempt)
      (d : directory) (url : string) (size : option Z) (t : datetime)
      (data : list Byte.byte) (r : bool) :
  NoDup (names d) ->
  url <> "" ->
  lookup d (url_filename url) = Some (File data r) ->
  size_matches (Z.of_nat (List.length data)) size = true ->
  parse_filename (url_filename url) = Ret (Some t) ->
  (forall t' n', In (t', n') (datasets d) -> n' <> url_filename url ->
                 dt_ltb t' t = true) ->
  exists d',
    download_found cfg (Some url, size) env d = (d', Ret true)
    /\ lookup d' (url_filename url) = Some (File data r).
Proof.
  intros Hnd Hurl L Sz P Hnewest. unfold download_found.
  apply String.eqb_neq in Hurl. rewrite Hurl, L. simpl node_size. rewrite Sz.
  destruct (cleanup_old_files_spec d true Hnd) as [kept [Hk E]].
  rewrite E. unfold cleanup_result. eexists. split; [reflexivity|].
  set (n := url_filename url) in *.
  assert (Hds : In (t, n) (datasets d)).
  { apply in_datasets. exists (File data r).
    split; [now apply lookup_some | now apply parsed_file_is_dataset]. }
  destruct (keeps_newest d kept Hk) as [k [tk [-> [Hin Hmax]]]].
  { intros Hnil. rewrite Hnil in Hds. destruct Hds. }
  apply lookup_filter_kept; [exact L|].
  unfold is_victim. simpl fst.
  destruct (String.eqb n k) eqn:Ek; [now rewrite andb_false_r|].
  exfalso. apply String.eqb_neq in Ek.
  pose proof (Hnewest tk k Hin ltac:(congruence)) as Hlt.
  pose proof (Hmax t n Hds) as Hle.
  pose proof (datasets_valid d t n Hds) as Vt.
  pose proof (datasets_valid d tk k Hin) as Vk.
  apply (dt_ltb_key _ _ Vk Vt) in Hlt. apply (dt_leb_key _ _ Vt Vk) in Hle. lia.
Qed.

(** C10: the discovered file is cached with the advertised size, and a file
    of a later cycle is cached too: [download_auto] returns success without
    a fetch, and its cleanup has deleted the discovered file. *)
Theorem cached_file_deleted_when_newer_cached :
  snd (find_latest_file sample_config (mkdt 2025 12 24 8 30 0 0) only_03_answers)
  = Ret (Some (base_url sample_config +++ "20251224/MSM2025122403S.nc"), Some 4)
  /\ lookup two_cycles "MSM2025122403S.nc" = Some (File four_bytes true)
  /\ download_auto sample_config (mkdt 2025 12 24 8 30 0 0) only_03_answers
       arrives_whole two_cycles
     = ([("MSM2025122406S.nc", File [Byte.x00] true)], Ret true).
Proof. repeat split. Qed.

(** * More of the code *)

(** ** The generator under any configuration *)

Lemma map_py_length {A B : Type} (f : A -> py B) (l : list A) (r : list B) :
  map_py f l = Ret r -> List.length r = List.length l.
Proof.
  revert r. induction l as [|x l IH]; intros r; simpl.
  - intros H. now injection H as <-.
  - destruct (f x) as [y|e]; [|discriminate]. cbn [bind].
    destruct (map_py f l) as [ys|e]; [|discriminate]. cbn [bind].
    intros H. injection H as <-. simpl. now rewrite (IH ys).
Qed.

Lemma add_unique_length (l : list string) :
  forall urls,
    (List.length (fold_left add_unique l urls)
     <= List.length urls + List.length l)%nat.
Proof.
  induction l as [|u l IH]; intros urls; simpl; [lia|].
  specialize (IH (add_unique urls u)). unfold add_unique in *.
  destruct (str_in u urls); [lia|].
  rewrite length_app in IH. simpl in IH. lia.
Qed.

(** X1: whatever the configuration, a list the generator returns has no
    duplicates and at most [hours_back // 3 + 2] entries; it is empty when
    [hours_back] is below -3. *)
Theorem candidate_urls_bounded
        (cfg : config) (now : datetime) (hours_back : Z) (urls : list string) :
  generate_candidate_urls cfg now hours_back = Ret urls ->
  NoDup urls
  /\ Z.of_nat (List.length urls) <= Z.max 0 (hours_back / 3 + 2)
  /\ (hours_back < -3 -> urls = []).
Proof.
  unfold generate_candidate_urls. rewrite candidates_loop_unfold.
  destruct (map_py (forecast_time_at cfg now) (seq 0 (num_intervals hours_back)))
    as [times|e] eqn:E; [|discriminate].
  cbn [bind]. intros H. injection H as <-.
  pose proof (map_py_length _ _ _ E) as L. rewrite length_seq in L.
  pose proof (add_unique_length (map (candidate_url (base_url cfg)) times) [])
    as B.
  rewrite length_map, L in B. simpl in B. unfold num_intervals in B.
  split; [apply add_unique_nodup; constructor|].
  split; [lia|].
  intros Hneg.
  assert (hours_back / 3 + 2 <= 0).
  { assert (hours_back / 3 < -1); [|lia].
    apply Z.div_lt_upper_bound; lia. }
  destruct (fold_left add_unique _ []); [reflexivity | simpl in B; lia].
Qed.

Lemma candidate_urls_bounded_witness :
  NoDup ["http://gpv/20251218/MSM2025121821S.nc"]
  /\ Z.of_nat (List.length ["http://gpv/20251218/MSM2025121821S.nc"])
     <= Z.max 0 (0 / 3 + 2)
  /\ (0 < -3 -> ["http://gpv/20251218/MSM2025121821S.nc"] = []).
Proof.
  apply (candidate_urls_bounded only_six (mkdt 2025 12 19 3 30 0 0) 0).
  reflexivity.
Defined.

(** ** Discovery as a whole *)

Lemma check_file_exists_false (reply : http_reply) (x : option Z) :
  check_file_exists reply = Ret (false, x) -> x = None.
Proof.
  unfold check_file_exists, catch. destruct reply as [st h|e].
  - destruct (st =? 200).
    + destruct (header_int h) as [n|e]; cbn [bind]; [discriminate|].
      destruct e; simpl; intros H; now inversion H.
    + intros H. now inversion H.
  - destruct e; simpl; intros H; now inversion H.
Qed.

(** What a finished probe loop says about the candidates. *)
Lemma probe_loop_inv net interval n :
  forall urls i tr found size,
    probe_loop net interval n i urls = (tr, Ret (found, size)) ->
    match found with
    | Some url =>
        exists before after,
          urls = before ++ url :: after
          /\ Forall (absent net) before /\ present net url size
    | None => size = None /\ Forall (absent net) urls
    end.
Proof.
  induction urls as [|u urls IH]; intros i tr found size; simpl.
  - intros H. injection H as _ <- <-. split; [reflexivity | constructor].
  - destruct (check_file_exists (net u)) as [[[|] sz]|e] eqn:E.
    + destruct (get_file_size_mb sz); [|discriminate].
      intros H. injection H as _ <- <-.
      exists [], urls. repeat split; [constructor | exact E].
    + pose proof (check_file_exists_false _ _ E) as ->.
      destruct (probe_loop net interval n (S i) urls) as [tr' r'] eqn:P.
      intros H. injection H as _ ->.
      specialize (IH (S i) tr' found size P).
      destruct found as [url|].
      * destruct IH as [before [after [-> [Hb Hp]]]].
        exists (u :: before), after. repeat split; [|exact Hp].
        constructor; [exact E | exact Hb].
      * destruct IH as [-> Hall]. split; [reflexivity|].
        constructor; [exact E | exact Hall].
    + discriminate.
Qed.

Lemma in_paced (interval : Z) (urls : list string) (u : string) :
  In u urls -> In (Probe u) (paced interval urls).
Proof.
  unfold paced. intros H. apply in_flat_map. exists u. split; [exact H|].
  now left.
Qed.

Lemma in_removelast_paced (interval : Z) (urls : list string) (u : string) :
  In u urls -> In (Probe u) (removelast (paced interval urls)).
Proof.
  induction urls as [|v urls IH]; [intros []|].
  intros H. destruct urls as [|w urls].
  - destruct H as [->|[]]. now left.
  - change (removelast (paced interval (v :: w :: urls)))
      with (Probe v :: Sleep interval
              :: removelast (paced interval (w :: urls))).
    destruct H as [->|H]; [now left|]. right. right. now apply IH.
Qed.

Lemma sorted_tail_below (l1 l2 : list datetime) (x y : datetime) :
  StronglySorted (fun a b => hkey b < hkey a) (l1 ++ x :: l2) ->
  In y l2 -> hkey y < hkey x.
Proof.
  induction l1 as [|a l1 IH]; simpl; intros S Hy.
  - inversion S as [|? ? _ Hf]; subst. rewrite Forall_forall in Hf.
    now apply Hf.
  - inversion S; subst. now apply IH.
Qed.

(** X2: with the valid hours in ascending order and a wrap that lands on a
    cycle, what [find_latest_file] returns is the freshest candidate that
    exists: it is one of the generated candidates, the probe found it, and
    every candidate with a later cycle time was probed before it and is
    absent.  When it returns [(None, None)] every candidate was probed and
    is absent. *)
Theorem find_latest_file_freshest
        (cfg : config) (now : datetime) (net : string -> http_reply) :
  StronglySorted Z.le (forecast_hours cfg) ->
  wrap_is_valid (forecast_hours cfg) ->
  dt_valid now = true ->
  oldest_candidate_named cfg now 12 ->
  sleep_accepts (request_interval cfg) ->
  exists urls,
    generate_candidate_urls cfg now 12 = Ret urls
    /\ forall tr found size,
        find_latest_file cfg now net = (tr, Ret (found, size)) ->
        match found with
        | Some url =>
            In url urls /\ present net url size /\ printable size
            /\ last tr (Sleep 0) = Probe url
            /\ forall u t tu,
                In u urls ->
                embedded_cycle url = Ret (Some t) ->
                embedded_cycle u = Ret (Some tu) ->
                dt_ltb t tu = true ->
                In (Probe u) tr /\ absent net u
        | None =>
            size = None
            /\ forall u, In u urls -> In (Probe u) tr /\ absent net u
        end.
Proof.
  intros Hs Hw Hv Hold _.
  destruct (candidate_urls_by_time cfg now Hs Hw Hv 12 Hold)
    as [times [E [C [_ S]]]].
  exists (map (candidate_url (base_url cfg)) times). split; [exact E|].
  intros tr found size F.
  assert (P : probe_loop net (request_interval cfg)
                (List.length (map (candidate_url (base_url cfg)) times)) 0
                (map (candidate_url (base_url cfg)) times)
              = (tr, Ret (found, size))).
  { unfold find_latest_file in F. rewrite E in F. exact F. }
  pose proof (probe_loop_inv _ _ _ _ _ _ _ _ P) as Inv.
  destruct found as [url|].
  2:{ destruct Inv as [-> Hall]. split; [reflexivity|].
      rewrite (find_latest_file_miss cfg now net _ E Hall) in F.
      injection F as <-. intros u Hu. split.
      - now apply in_removelast_paced.
      - rewrite Forall_forall in Hall. now apply Hall. }
  destruct Inv as [before [after [Esplit [Hb Hp]]]].
  rewrite Esplit in E.
  rewrite (find_latest_file_hit cfg now net before after url size E Hb Hp) in F.
  destruct (get_file_size_mb size) as [[]|e] eqn:G; [|discriminate].
  injection F as <-.
  split; [rewrite Esplit; apply in_or_app; right; now left|].
  split; [exact Hp|]. split; [exact G|].
  split; [apply last_last|].
  intros u t tu Hu Et Etu Hlt.
  apply map_eq_app in Esplit. destruct Esplit as [tb [ta' [-> [Eb Ea]]]].
  destruct ta' as [|t0 ta]; [discriminate|]. simpl in Ea.
  injection Ea as Eurl Ea.
  rewrite Forall_forall in C.
  assert (C0 : candidate_time t0) by (apply C, in_or_app; right; now left).
  destruct C0 as [V0 [W0 Y0]].
  rewrite <- Eurl, (embedded_cycle_candidate _ t0 V0 W0 Y0) in Et.
  injection Et as <-.
  apply in_map_iff in Hu. destruct Hu as [x [Ex Hx]].
  assert (Cx : candidate_time x) by now apply C.
  destruct Cx as [Vx [Wx Yx]].
  rewrite <- Ex, (embedded_cycle_candidate _ x Vx Wx Yx) in Etu.
  injection Etu as <-.
  apply (dt_ltb_key _ _ V0 Vx) in Hlt.
  rewrite (whole_hour_key t0 W0), (whole_hour_key x Wx) in Hlt.
  apply in_app_or in Hx. destruct Hx as [Hx|[Hx|Hx]].
  - assert (Hin : In u before) by (rewrite <- Eb, <- Ex; now apply in_map).
    split.
    + apply in_or_app. left. now apply in_paced.
    + rewrite Forall_forall in Hb. now apply Hb.
  - subst x. lia.
  - pose proof (sorted_tail_below tb ta t0 x S Hx). lia.
Qed.

Lemma find_latest_file_freshest_witness :
  exists urls,
    generate_candidate_urls sample_config (mkdt 2025 12 24 8 30 0 0) 12 = Ret urls
    /\ forall tr found size,
        find_latest_file sample_config (mkdt 2025 12 24 8 30 0 0)
          only_03_answers = (tr, Ret (found, size)) ->
        match found with
        | Some url =>
            In url urls /\ present only_03_answers url size /\ printable size
            /\ last tr (Sleep 0) = Probe url
            /\ forall u t tu,
                In u urls ->
                embedded_cycle url = Ret (Some t) ->
                embedded_cycle u = Ret (Some tu) ->
                dt_ltb t tu = true ->
                In (Probe u) tr /\ absent only_03_answers u
        | None =>
            size = None
            /\ forall u, In u urls ->
                         In (Probe u) tr /\ absent only_03_answers u
        end.
Proof.
  apply find_latest_file_freshest.
  - simpl. repeat constructor; lia.
  - left. simpl. auto.
  - reflexivity.
  - right. eexists. split; [vm_compute; reflexivity | simpl; lia].
  - unfold sleep_accepts. simpl. lia.
Defined.






(** ** More on the fetcher *)

Lemma lookup_replace_data (d : directory) (n : string)
      (old data : list Byte.byte) (r : bool) :
  lookup d n = Some (File old r) ->
  lookup (replace_data d n data) n = Some (File data r).
Proof.
  induction d as [|[m y] d IH]; simpl; [discriminate|].
  destruct (String.eqb m n) eqn:E; simpl; rewrite E.
  - intros H. injection H as ->. reflexivity.
  - exact IH.
Qed.

Lemma write_file_lookup (d d1 : directory) (n : string) (data : list Byte.byte) :
  write_file d n data = Ret d1 -> exists r, lookup d1 n = Some (File data r).
Proof.
  unfold write_file. destruct (lookup d n) as [[old r|sz]|] eqn:L.
  - intros H. injection H as <-. exists r. now apply lookup_replace_data with old.
  - discriminate.
  - intros H. injection H as <-. exists true. now apply lookup_added.
Qed.

Lemma handle_never_true (e : exn) : handle e <> Return true.
Proof. destruct e; discriminate. Qed.

Lemma try_download_true (max k : nat) (a : attempt) (n : string)
      (d d' : directory) :
  try_download max k a n d = (d', Return true) ->
  exists status h chunks total r,
    a = Response status h true chunks StreamDone
    /\ (400 <=? status) && (status <? 600) = false
    /\ header_int h = Ret total
    /\ lookup d' n = Some (File (List.concat chunks) r)
    /\ (0 < total -> Z.of_nat (List.length (List.concat chunks)) = total).
Proof.
  unfold try_download.
  destruct a as [e|st h ok chunks ending].
  { intros H. injection H as _ H. now destruct (handle_never_true e). }
  destruct ((400 <=? st) && (st <? 600)) eqn:Est; [discriminate|].
  destruct (header_int h) as [total|e] eqn:Eh.
  2:{ intros H. injection H as _ H. now destruct (handle_never_true e). }
  destruct (float_overflows total).
  { intros H. injection H as _ H.
    now destruct (handle_never_true OverflowError). }
  destruct ok; simpl negb; cbv iota; [|discriminate].
  destruct (write_file d n (List.concat chunks)) as [d1|e] eqn:W.
  2:{ intros H. injection H as _ H. now destruct (handle_never_true e). }
  destruct (write_file_lookup _ _ _ _ W) as [r L].
  destruct ending; try discriminate.
  unfold os_path_getsize. rewrite L. simpl node_size.
  destruct ((0 <? total)
            && negb (Z.of_nat (List.length (List.concat chunks)) =? total))
    eqn:C.
  - destruct (k <? max)%nat; [|discriminate].
    destruct (os_remove d1 n) as [d2|e]; [discriminate|].
    intros H. injection H as _ H. now destruct (handle_never_true e).
  - intros H. injection H as <-. exists st, h, chunks, total, r.
    repeat split; try assumption.
    intros Hpos. apply andb_false_iff in C. destruct C as [C|C].
    + apply Z.ltb_ge in C. lia.
    + apply negb_false_iff in C. now apply Z.eqb_eq.
Qed.

(** X5: [download_file] returns [True] only when one of the attempts
    1..[max_retries] received a whole body for a response without error
    status, the file at the destination holds exactly that body, and its
    size is the announced Content-Length whenever one above zero was
    announced. *)
Theorem download_success_means_whole_file
        (cfg : config) (env : nat -> attempt) (n : string) (d d' : directory) :
  download_file cfg env n d = (d', Ret true) ->
  exists k status h chunks total r,
    (1 <= k <= max_retries cfg)%nat
    /\ env k = Response status h true chunks StreamDone
    /\ (400 <=? status) && (status <? 600) = false
    /\ header_int h = Ret total
    /\ lookup d' n = Some (File (List.concat chunks) r)
    /\ (0 < total -> Z.of_nat (List.length (List.concat chunks)) = total).
Proof.
  unfold download_file.
  assert (G : forall fuel k d0,
             download_loop (max_retries cfg) fuel k env n d0 = (d', Ret true) ->
             exists j status h chunks total r,
               (k <= j < k + fuel)%nat
               /\ env j = Response status h true chunks StreamDone
               /\ (400 <=? status) && (status <? 600) = false
               /\ header_int h = Ret total
               /\ lookup d' n = Some (File (List.concat chunks) r)
               /\ (0 < total ->
                   Z.of_nat (List.length (List.concat chunks)) = total)).
  { induction fuel as [|fuel IH]; intros k d0; simpl; [discriminate|].
    destruct (try_download (max_retries cfg) k (env k) n d0) as [d1 s] eqn:T.
    assert (Later : download_loop (max_retries cfg) fuel (S k) env n d1
                    = (d', Ret true) ->
                    exists j status h chunks total r,
                      (k <= j < k + S fuel)%nat
                      /\ env j = Response status h true chunks StreamDone
                      /\ (400 <=? status) && (status <? 600) = false
                      /\ header_int h = Ret total
                      /\ lookup d' n = Some (File (List.concat chunks) r)
                      /\ (0 < total ->
                          Z.of_nat (List.length (List.concat chunks)) = total)).
    { intros H. destruct (IH _ _ H) as (j & st & h & ch & tot & r & Hj & R).
      exists j, st, h, ch, tot, r. split; [lia | exact R]. }
    destruct s as [b| | |e].
    - intros H. injection H as <- ->.
      destruct (try_download_true _ _ _ _ _ _ T)
        as (st & h & ch & tot & r & Ea & R).
      exists k, st, h, ch, tot, r. split; [lia|]. split; assumption.
    - exact Later.
    - destruct (k <? max_retries cfg)%nat; [exact Later|].
      destruct (os_path_exists d1 n); [|discriminate].
      destruct (os_remove d1 n); discriminate.
    - discriminate. }
  intros H. destruct (G _ _ _ H) as (j & st & h & ch & tot & r & Hj & R).
  exists j, st, h, ch, tot, r. split; [lia | exact R].
Qed.

Lemma download_success_means_whole_file_witness :
  exists k status h chunks total r,
    (1 <= k <= max_retries one_try)%nat
    /\ arrives_whole k = Response status h true chunks StreamDone
    /\ (400 <=? status) && (status <? 600) = false
    /\ header_int h = Ret total
    /\ lookup [("MSM2025122403S.nc", File four_bytes true)] "MSM2025122403S.nc"
       = Some (File (List.concat chunks) r)
    /\ (0 < total -> Z.of_nat (List.length (List.concat chunks)) = total).
Proof.
  apply (download_success_means_whole_file one_try arrives_whole
           "MSM2025122403S.nc" []).
  reflexivity.
Defined.

(** X6: when every attempt 1..[max_retries] ends in a timeout or a broken
    connection (the announced length, if any, being one the disk-space check
    can be asked about) and nothing was at the destination, [download_file]
    returns [False] and the directory is again what it was: what the
    attempts wrote is removed. *)
Theorem transient_failures_restore_directory
        (cfg : config) (env : nat -> attempt) (n : string) (d0 : directory) :
  lookup d0 n = None ->
  (1 <= max_retries cfg)%nat ->
  sleep_accepts (retry_delay cfg) ->
  (forall k, (1 <= k <= max_retries cfg)%nat -> transient (env k)) ->
  download_file cfg env n d0 = (d0, Ret false).
Proof.
  intros H0 Hmax _ Htr. unfold download_file.
  destruct (reach_last_attempt d0 n (max_retries cfg) env H0
              ltac:(intros k Hk; apply Htr; lia)
              (max_retries cfg) 1%nat d0 ltac:(now left) ltac:(lia) ltac:(lia)
              ltac:(lia))
    as [d' [Hf E]].
  rewrite E. simpl download_loop.
  destruct (transient_attempt_retries d0 n (max_retries cfg) (max_retries cfg)
              (env (max_retries cfg)) d' H0 Hf
              (Htr (max_retries cfg) ltac:(lia)))
    as [d1 [-> Hf1]].
  rewrite Nat.ltb_irrefl. unfold os_path_exists, os_remove.
  destruct Hf1 as [->|[data ->]].
  - now rewrite H0.
  - rewrite (lookup_added d0 n _ H0). now rewrite (delete_added d0 n _ H0).
Qed.

Lemma transient_failures_restore_directory_witness :
  download_file sample_config stalls "MSM2025122403S.nc"
    [("notes.nc", File four_bytes true)]
  = ([("notes.nc", File four_bytes true)], Ret false).
Proof.
  apply transient_failures_restore_directory.
  - reflexivity.
  - simpl. lia.
  - unfold sleep_accepts. simpl. lia.
  - intros k _. right. right.
    exists 200, (Some "10"), 10, [four_bytes], StreamTimeout.
    repeat split. now left.
Defined.

(** X7: an error status, or a failed disk-space check for an announced
    length the check can be asked about, ends [download_file] on the first
    attempt: it returns [False], writes nothing, and makes no further
    attempt, whatever the retry budget.  An announced length beyond the
    floats ends it there as well, with the [OverflowError] of
    [total_size * 1.1]. *)
Theorem fatal_first_attempt_no_retry
        (cfg : config) (env : nat -> attempt) (n : string) (d : directory)
        (status total : Z) (h : option string) (ok : bool)
        (chunks : list (list Byte.byte)) (ending : stream_end) :
  (1 <= max_retries cfg)%nat ->
  env 1%nat = Response status h ok chunks ending ->
  ((400 <= status < 600
    \/ (header_int h = Ret total /\ float_overflows total = false
        /\ ok = false)) ->
   download_file cfg env n d = (d, Ret false)
   /\ forall env', env' 1%nat = env 1%nat ->
                   download_file cfg env' n d = (d, Ret false))
  /\ (~ 400 <= status < 600 -> header_int h = Ret total ->
      float_overflows total = true ->
      download_file cfg env n d = (d, Raise OverflowError)).
Proof.
  intros Hmax E1. split.
  - intros Hfatal.
    assert (G : forall env', env' 1%nat = Response status h ok chunks ending ->
                             download_file cfg env' n d = (d, Ret false)).
    { intros env' E. unfold download_file.
      destruct (max_retries cfg) as [|m]; [lia|]. simpl. rewrite E.
      unfold try_download.
      destruct ((400 <=? status) && (status <? 600)) eqn:Est; [reflexivity|].
      destruct Hfatal as [Hs | [Hh [Hfl ->]]].
      - apply andb_false_iff in Est.
        destruct Est as [C|C]; [apply Z.leb_gt in C | apply Z.ltb_ge in C]; lia.
      - now rewrite Hh, Hfl. }
    split; [now apply G|]. intros env' E. apply G. now rewrite E.
  - intros Hst Hh Hfl. unfold download_file.
    destruct (max_retries cfg) as [|m]; [lia|]. simpl. rewrite E1.
    unfold try_download.
    destruct ((400 <=? status) && (status <? 600)) eqn:Est.
    + apply andb_prop in Est. destruct Est as [C1 C2].
      apply Z.leb_le in C1. apply Z.ltb_lt in C2. lia.
    + now rewrite Hh, Hfl.
Qed.

Lemma fatal_first_attempt_no_retry_witness :
  download_file sample_config unavailable "MSM2025122403S.nc" two_cycles
  = (two_cycles, Ret false).
Proof.
  refine (proj1 (proj1 (fatal_first_attempt_no_retry sample_config unavailable
                          "MSM2025122403S.nc" two_cycles 503 0 None true []
                          StreamDone _ eq_refl) _)).
  - simpl. lia.
  - left. lia.
Defined.

(** X8: [download_file] looks at the attempts 1..[max_retries] and at no
    other: two environments that agree on those give the same result. *)
Theorem download_file_bounded_attempts
        (cfg : config) (env env' : nat -> attempt) (n : string) (d : directory) :
  (forall k, (1 <= k <= max_retries cfg)%nat -> env k = env' k) ->
  download_file cfg env n d = download_file cfg env' n d.
Proof.
  intros Hag. unfold download_file.
  assert (G : forall fuel k d0,
             (1 <= k)%nat -> (k + fuel <= S (max_retries cfg))%nat ->
             download_loop (max_retries cfg) fuel k env n d0
             = download_loop (max_retries cfg) fuel k env' n d0).
  { induction fuel as [|fuel IH]; intros k d0 Hk Hf; simpl; [reflexivity|].
    rewrite (Hag k) by lia.
    destruct (try_download _ k (env' k) n d0) as [d1 [b| | |e]];
      try reflexivity.
    - apply IH; lia.
    - destruct (k <? max_retries cfg)%nat; [apply IH; lia | reflexivity]. }
  apply G; lia.
Qed.

Lemma download_file_bounded_attempts_witness :
  download_file one_try short_body "MSM2025122403S.nc" []
  = download_file one_try
      (fun k => if (k =? 1)%nat then short_body k else unavailable k)
      "MSM2025122403S.nc" [].
Proof.
  apply download_file_bounded_attempts.
  intros k Hk. simpl in Hk. assert (k = 1%nat) as -> by lia. reflexivity.
Defined.

(** ** More on the reconciler *)

Lemma victims_when_removable (d : directory) :
  all_removable d ->
  filter (fun e => negb (is_victim None e)) d
  = filter (fun e => negb (is_dataset e)) d.
Proof.
  intros Hr. apply filter_ext_in. intros e He. f_equal.
  unfold is_victim. rewrite andb_true_r.
  destruct (is_dataset e) eqn:E; [|now rewrite andb_false_r].
  now rewrite (Hr e He E).
Qed.

(** X9: [cleanup_old_files(directory, keep_latest=False)] removes exactly the
    regular [.nc] files whose names parse and whose removal succeeds, the
    newest one included; it returns their number and total size, and leaves
    every other entry in place.  When all dataset files can be removed, none
    is left. *)
Theorem cleanup_all_removes_every_dataset (d : directory) :
  NoDup (names d) ->
  cleanup_old_files d false
  = (filter (fun e => negb (is_victim None e)) d,
     Ret (Z.of_nat (List.length (filter (is_victim None) d)),
          total_bytes (filter (is_victim None) d)))
  /\ (all_removable d ->
      datasets (fst (cleanup_old_files d false)) = []
      /\ fst (cleanup_old_files d false)
         = filter (fun e => negb (is_dataset e)) d).
Proof.
  intros Hnd.
  destruct (cleanup_old_files_spec d false Hnd) as [kept [Hk E]].
  rewrite (keeps_all_go d kept Hk) in E. unfold cleanup_result in E.
  split; [exact E|]. intros Hr. rewrite E. simpl fst.
  split; [|now apply victims_when_removable].
  apply datasets_none. now apply survivors_not_datasets.
Qed.

Lemma cleanup_all_removes_every_dataset_witness :
  cleanup_old_files three_files false
  = (filter (fun e => negb (is_victim None e)) three_files,
     Ret (Z.of_nat (List.length (filter (is_victim None) three_files)),
          total_bytes (filter (is_victim None) three_files))).
Proof.
  apply (proj1 (cleanup_all_removes_every_dataset three_files
                  ltac:(simpl; repeat constructor; simpl; intuition discriminate))).
Defined.

(** X10: a keep-latest cleanup is idempotent when the dataset files can be
    removed: run again on its own result it deletes nothing and returns
    [(0, 0)]. *)
Theorem cleanup_keep_latest_idempotent (d : directory) :
  NoDup (names d) -> all_removable d ->
  cleanup_old_files (fst (cleanup_old_files d true)) true
  = (fst (cleanup_old_files d true), Ret (0, 0)).
Proof.
  intros Hnd Hr.
  destruct (cleanup_old_files_spec d true Hnd) as [kept [Hk E]].
  rewrite E. unfold cleanup_result. simpl fst.
  set (d1 := filter (fun e => negb (is_victim kept e)) d).
  assert (Hnd1 : NoDup (names d1)) by now apply names_filter_nodup.
  assert (Hds : datasets d1 = [] \/ exists t k, datasets d1 = [(t, k)]).
  { destruct kept as [k|].
    - destruct Hk as [_ [t [Hin _]]]. right. exists t, k.
      now apply newest_alone_after_cleanup.
    - left. apply datasets_none. now apply survivors_not_datasets. }
  unfold cleanup_old_files.
  rewrite (collect_nc_spec d1 Hnd1 d1 (incl_refl d1)).
  destruct Hds as [->|[t [k ->]]]; reflexivity.
Qed.

Lemma cleanup_keep_latest_idempotent_witness :
  cleanup_old_files (fst (cleanup_old_files three_files true)) true
  = (fst (cleanup_old_files three_files true), Ret (0, 0)).
Proof.
  apply cleanup_keep_latest_idempotent.
  - simpl. repeat constructor; simpl; intuition discriminate.
  - intros e He _. simpl in He.
    destruct He as [<-|[<-|[<-|[]]]]; reflexivity.
Defined.

(** ** [download_auto] when the fetch fails *)



(** ** [get_nearest_forecast_time] *)

Lemma forecast_hour_table : forallb floors_to_three (upto 24) = true.
Proof. vm_compute. reflexivity. Qed.

Lemma forecast_hour_floor (h : Z) :
  0 <= h <= 23 ->
  find (fun fh => fh <=? h) (rev get_forecast_times) = Some (3 * (h / 3)).
Proof.
  intros H. pose proof forecast_hour_table as T. rewrite forallb_forall in T.
  specialize (T h (in_upto 24 h ltac:(lia))). unfold floors_to_three in T.
  destruct (find _ _) as [fh|]; [|discriminate].
  apply Z.eqb_eq in T. now subst.
Qed.

(** X12: [get_nearest_forecast_time] returns the start of the 3-hour cycle
    that contains the delayed instant: the same day, the hour rounded down
    to a multiple of 3, minutes, seconds and microseconds zero; the hour is
    one of [get_forecast_times()] and lies less than 3 hours back. *)
Theorem nearest_forecast_time_is_cycle_start
        (dt : datetime) (delay_hours : nat) (adjusted : datetime) :
  dt_valid dt = true ->
  sub_hours dt delay_hours = Ret adjusted ->
  exists r,
    get_nearest_forecast_time dt delay_hours = Ret r
    /\ r = mkdt (year adjusted) (month adjusted) (day adjusted)
                (3 * (hour adjusted / 3)) 0 0 0
    /\ dt_valid r = true
    /\ In (hour r) get_forecast_times
    /\ hour r <= hour adjusted < hour r + 3.
Proof.
  intros Hv Ha.
  pose proof (sub_hours_valid _ _ _ Hv Ha) as Va.
  pose proof (dt_valid_bounds adjusted Va) as B.
  unfold get_nearest_forecast_time. rewrite Ha. cbn [bind].
  rewrite (forecast_hour_floor (hour adjusted)) by lia.
  pose proof (Z.div_mod (hour adjusted) 3 ltac:(lia)) as Hdm.
  pose proof (Z.mod_pos_bound (hour adjusted) 3 ltac:(lia)) as Hmod.
  rewrite replace_hour_ret by lia.
  eexists. split; [reflexivity|]. split; [reflexivity|].
  split;
    [apply dt_valid_intro;
     cbn [year month day hour minute second microsecond]; lia|].
  cbn [hour]. split; [|lia].
  pose proof (forecast_hour_floor (hour adjusted) ltac:(lia)) as F.
  apply find_some in F. destruct F as [F _]. now apply in_rev in F.
Qed.

Lemma nearest_forecast_time_is_cycle_start_witness :
  exists r,
    get_nearest_forecast_time (mkdt 2025 12 24 1 15 30 0) 2 = Ret r
    /\ r = mkdt 2025 12 23 (3 * (23 / 3)) 0 0 0
    /\ dt_valid r = true
    /\ In (hour r) get_forecast_times
    /\ hour r <= 23 < hour r + 3.
Proof.
  apply (nearest_forecast_time_is_cycle_start
           (mkdt 2025 12 24 1 15 30 0) 2 (mkdt 2025 12 23 23 15 30 0));
    reflexivity.
Defined.

Lemma add_unique_keeps_head (l : list string) :
  forall u acc, hd_error (fold_left add_unique l (u :: acc)) = Some u.
Proof.
  induction l as [|x l IH]; intros u acc; simpl; [reflexivity|].
  unfold add_unique. destruct (str_in x (u :: acc)); [apply IH|].
  simpl. apply IH.
Qed.

(** X13: under the hours of [get_forecast_times()], the first candidate of
    the generator is the URL of [get_nearest_forecast_time] at the
    configured delay: the first rounded instant is the same, and every
    returned list with at least one iteration starts with its URL. *)
Theorem first_candidate_is_nearest_forecast_time
        (cfg : config) (now : datetime) :
  forecast_hours cfg = get_forecast_times ->
  dt_valid now = true ->
  forecast_time_at cfg now 0
  = get_nearest_forecast_time now (data_delay_hours cfg)
  /\ forall hours_back urls,
      -3 <= hours_back ->
      generate_candidate_urls cfg now hours_back = Ret urls ->
      exists t,
        get_nearest_forecast_time now (data_delay_hours cfg) = Ret t
        /\ hd_error urls = Some (candidate_url (base_url cfg) t).
Proof.
  intros Hh Hv.
  assert (E : forecast_time_at cfg now 0
              = get_nearest_forecast_time now (data_delay_hours cfg)).
  { unfold forecast_time_at, get_nearest_forecast_time. simpl Nat.add.
    destruct (sub_hours now (data_delay_hours cfg)) as [c|e] eqn:Ec;
      [|reflexivity].
    cbn [bind]. pose proof (sub_hours_valid _ _ _ Hv Ec) as Vc.
    pose proof (dt_valid_bounds c Vc) as B.
    unfold round_to_cycle. rewrite Hh.
    now rewrite (forecast_hour_floor (hour c)) by lia. }
  split; [exact E|].
  intros hours_back urls Hb. unfold generate_candidate_urls, num_intervals.
  assert (Hn : exists k, Z.to_nat (hours_back / 3 + 2) = S k).
  { assert (-1 <= hours_back / 3) by (apply Z.div_le_lower_bound; lia).
    exists (Z.to_nat (hours_back / 3 + 1)). lia. }
  destruct Hn as [k ->]. simpl seq. simpl candidates_loop. rewrite E.
  destruct (get_nearest_forecast_time now (data_delay_hours cfg)) as [t|e];
    [|discriminate].
  cbn [bind]. simpl str_in. cbv iota. simpl app.
  rewrite candidates_loop_unfold.
  destruct (map_py _ _) as [times|e]; [|discriminate]. cbn [bind].
  intros H. injection H as <-. exists t. split; [reflexivity|].
  apply add_unique_keeps_head.
Qed.

Lemma first_candidate_is_nearest_forecast_time_witness :
  forecast_time_at sample_config (mkdt 2025 12 19 5 0 0 0) 0
  = get_nearest_forecast_time (mkdt 2025 12 19 5 0 0 0)
      (data_delay_hours sample_config).
Proof.
  apply (proj1 (first_candidate_is_nearest_forecast_time
                  sample_config (mkdt 2025 12 19 5 0 0 0) eq_refl eq_refl)).
Defined.

(** ** File names in chronological order *)

Lemma pairs_table : forallb pairs_compare_as_numbers (upto 100) = true.
Proof. vm_compute. reflexivity. Qed.

Lemma year_table : forallb year_splits (upto 10000) = true.
Proof. vm_compute. reflexivity. Qed.

Lemma zfill2_compare (a b : Z) :
  0 <= a <= 99 -> 0 <= b <= 99 ->
  String.compare (zfill 2 a) (zfill 2 b) = (a ?= b).
Proof.
  intros Ha Hb. pose proof pairs_table as T. rewrite forallb_forall in T.
  specialize (T a (in_upto 100 a ltac:(lia))).
  unfold pairs_compare_as_numbers in T. rewrite forallb_forall in T.
  specialize (T b (in_upto 100 b ltac:(lia))).
  destruct (String.compare _ _), (a ?= b); try reflexivity; discriminate.
Qed.

Lemma zfill4_split (y : Z) :
  0 <= y <= 9999 ->
  zfill 4 y = zfill 2 (y / 100) +++ zfill 2 (y mod 100).
Proof.
  intros Hy. pose proof year_table as T. rewrite forallb_forall in T.
  specialize (T y (in_upto 10000 y ltac:(lia))). now apply String.eqb_eq in T.
Qed.

Lemma string_append_assoc (a b c : string) : (a +++ b) +++ c = a +++ b +++ c.
Proof. induction a as [|x a IH]; simpl; [reflexivity | now rewrite IH]. Qed.

Lemma compare_refl (s : string) : String.compare s s = Eq.
Proof.
  induction s as [|c s IH]; simpl; [reflexivity|].
  unfold Ascii.compare. now rewrite N.compare_refl.
Qed.

(** Strings of the same length, each followed by more text, compare by the
    first parts and then by what follows. *)
Lemma compare_append (a b c d : string) :
  String.length a = String.length b ->
  String.compare (a +++ c) (b +++ d)
  = match String.compare a b with
    | Eq => String.compare c d
    | r => r
    end.
Proof.
  revert b. induction a as [|x a IH]; intros [|y b]; simpl; try discriminate.
  - reflexivity.
  - intros H. injection H as H. rewrite (IH b H).
    destruct (Ascii.compare x y); reflexivity.
Qed.

Lemma compare_by_hundreds (a b : Z) :
  (a ?= b)
  = match a / 100 ?= b / 100 with
    | Eq => a mod 100 ?= b mod 100
    | r => r
    end.
Proof.
  pose proof (Z.div_mod a 100 ltac:(lia)).
  pose proof (Z.div_mod b 100 ltac:(lia)).
  pose proof (Z.mod_pos_bound a 100 ltac:(lia)).
  pose proof (Z.mod_pos_bound b 100 ltac:(lia)).
  destruct (Z.compare_spec (a / 100) (b / 100)).
  - destruct (Z.compare_spec (a mod 100) (b mod 100));
      [apply Z.compare_eq_iff | apply Z.compare_lt_iff | apply Z.compare_gt_iff];
      lia.
  - apply Z.compare_lt_iff. lia.
  - apply Z.compare_gt_iff. lia.
Qed.

Lemma msm_filename_compare (a b : datetime) :
  candidate_time a -> candidate_time b ->
  String.compare (msm_filename a) (msm_filename b) = dt_cmp a b.
Proof.
  intros [Va [[A1 [A2 A3]] Ya]] [Vb [[B1 [B2 B3]] Yb]].
  destruct (dt_valid_ranges a Va) as [_ [Hya [Hma [Hda Hha]]]].
  destruct (dt_valid_ranges b Vb) as [_ [Hyb [Hmb [Hdb Hhb]]]].
  rewrite !msm_filename_padded by assumption.
  unfold dt_cmp, dt_fields. rewrite A1, A2, A3, B1, B2, B3. cbn [lex_cmp].
  rewrite (zfill4_split (year a)), (zfill4_split (year b)) by lia.
  rewrite !string_append_assoc.
  assert (L2 : forall n, 0 <= n <= 99 -> String.length (zfill 2 n) = 2%nat)
    by (intros n Hn; apply (zfill2 n Hn)).
  pose proof (Z.mod_pos_bound (year a) 100 ltac:(lia)).
  pose proof (Z.mod_pos_bound (year b) 100 ltac:(lia)).
  pose proof (Z.div_mod (year a) 100 ltac:(lia)).
  pose proof (Z.div_mod (year b) 100 ltac:(lia)).
  assert (0 <= year a / 100 <= 99) by lia.
  assert (0 <= year b / 100 <= 99) by lia.
  rewrite (compare_append "MSM" "MSM") by reflexivity.
  change (String.compare "MSM" "MSM") with Eq. cbv iota.
  repeat (rewrite compare_append by (rewrite !L2 by lia; reflexivity);
          rewrite zfill2_compare by lia).
  rewrite compare_refl, (compare_by_hundreds (year a) (year b)).
  destruct (year a / 100 ?= year b / 100),
           (year a mod 100 ?= year b mod 100),
           (month a ?= month b), (day a ?= day b), (hour a ?= hour b);
    reflexivity.
Qed.

(** Before the year 1000 the names do not sort by time: the year 999 is
    written in three digits and its name comes after those of the year
    1000. *)
Example names_of_short_years_sort_late :
  String.compare (msm_filename (mkdt 999 12 24 3 0 0 0))
                 (msm_filename (mkdt 1000 1 1 0 0 0 0)) = Gt
  /\ dt_cmp (mkdt 999 12 24 3 0 0 0) (mkdt 1000 1 1 0 0 0 0) = Lt.
Proof. split; vm_compute; reflexivity. Qed.

(** X14: for cycles of the years 1000 to 9999 the names
    [MSM{date_str}{hour_str}S.nc] built by [format_datetime_for_filename]
    sort as strings in the order of their cycle times: comparing two names
    gives what comparing the datetimes gives, so one name is not after the
    other exactly when its cycle is not later, and equal names come from
    equal cycle times. *)
Theorem filenames_sort_chronologically (a b : datetime) :
  candidate_time a -> candidate_time b ->
  String.compare (msm_filename a) (msm_filename b) = dt_cmp a b
  /\ String.leb (msm_filename a) (msm_filename b) = dt_leb a b
  /\ (msm_filename a = msm_filename b -> a = b).
Proof.
  intros Ca Cb.
  pose proof (msm_filename_compare a b Ca Cb) as C.
  split; [exact C|]. split.
  - unfold String.leb, dt_leb. now rewrite C.
  - intros E. destruct Ca as [Va [Wa Ya]]. destruct Cb as [Vb [Wb Yb]].
    pose proof (parse_msm_filename a Va Wa Ya) as Pa.
    pose proof (parse_msm_filename b Vb Wb Yb) as Pb.
    rewrite E in Pa. congruence.
Qed.

Lemma filenames_sort_chronologically_witness :
  String.compare (msm_filename (mkdt 2025 12 31 21 0 0 0))
                 (msm_filename (mkdt 2026 1 1 0 0 0 0))
  = dt_cmp (mkdt 2025 12 31 21 0 0 0) (mkdt 2026 1 1 0 0 0 0).
Proof.
  refine (proj1 (filenames_sort_chronologically
                   (mkdt 2025 12 31 21 0 0 0) (mkdt 2026 1 1 0 0 0 0) _ _));
    (split; [reflexivity | split; [repeat split | simpl; lia]]).
Defined.

(** ** [get_latest_nc_file] *)

Lemma string_leb_refl (s : string) : String.leb s s = true.
Proof. unfold String.leb. now rewrite compare_refl. Qed.

Lemma string_leb_trans (a b c : string) :
  String.leb a b = true -> String.leb b c = true -> String.leb a c = true.
Proof.
  unfold String.leb. revert b c.
  induction a as [|x a IH]; intros [|y b] [|z c]; simpl;
    try congruence; try reflexivity.
  unfold Ascii.compare.
  destruct (N.compare_spec (N_of_ascii x) (N_of_ascii y));
    destruct (N.compare_spec (N_of_ascii y) (N_of_ascii z));
    destruct (N.compare_spec (N_of_ascii x) (N_of_ascii z));
    try lia; try congruence; try (intros; reflexivity); apply IH.
Qed.

Lemma insert_str_in (x : string) (l : list string) (y : string) :
  In y (insert_str x l) <-> y = x \/ In y l.
Proof.
  induction l as [|z l IH]; simpl.
  - intuition.
  - destruct (String.leb x z); simpl; rewrite ?IH; intuition.
Qed.

Lemma sorted_str_in (l : list string) (y : string) :
  In y (sorted_str l) <-> In y l.
Proof.
  induction l as [|x l IH]; simpl; [reflexivity|].
  rewrite insert_str_in, IH. intuition.
Qed.

Lemma insert_str_sorted (x : string) (l : list string) :
  StronglySorted (fun a b => String.leb a b = true) l ->
  StronglySorted (fun a b => String.leb a b = true) (insert_str x l).
Proof.
  induction 1 as [|z l Hs IH Hz]; simpl.
  - constructor; constructor.
  - destruct (String.leb x z) eqn:E.
    + constructor; [now constructor|].
      constructor; [exact E|].
      eapply Forall_impl; [|exact Hz].
      intros w Hw. now apply (string_leb_trans x z w).
    + constructor; [exact IH|].
      apply Forall_forall. intros w Hw. apply insert_str_in in Hw.
      destruct Hw as [->|Hw].
      * destruct (String.leb_total x z) as [T|T]; congruence.
      * rewrite Forall_forall in Hz. now apply Hz.
Qed.

Lemma sorted_str_sorted (l : list string) :
  StronglySorted (fun a b => String.leb a b = true) (sorted_str l).
Proof.
  induction l as [|x l IH]; simpl; [constructor | now apply insert_str_sorted].
Qed.

Lemma last_of_sorted (l : list string) (dflt : string) :
  StronglySorted (fun a b => String.leb a b = true) l -> l <> [] ->
  In (last l dflt) l
  /\ forall y, In y l -> String.leb y (last l dflt) = true.
Proof.
  induction 1 as [|a l Hs IH Ha]; [congruence|]. intros _.
  destruct l as [|b l].
  - simpl. split; [now left|]. intros y [<-|[]]. apply string_leb_refl.
  - destruct (IH ltac:(discriminate)) as [Hin Hmax].
    change (last (a :: b :: l) dflt) with (last (b :: l) dflt).
    split; [now right|]. intros y [<-|Hy].
    + rewrite Forall_forall in Ha. now apply Ha.
    + now apply Hmax.
Qed.

Lemma latest_nc_file_none (d : directory) :
  get_latest_nc_file d = None ->
  forall n, In n (names d) -> glob_msm n = false.
Proof.
  unfold get_latest_nc_file. intros H n Hn.
  destruct (filter glob_msm (names d)) as [|m l] eqn:F; [|discriminate].
  destruct (glob_msm n) eqn:G; [|reflexivity].
  assert (Hin : In n (filter glob_msm (names d)))
    by (apply filter_In; now split).
  rewrite F in Hin. destruct Hin.
Qed.

Lemma latest_nc_file_some (d : directory) (n : string) :
  get_latest_nc_file d = Some n ->
  In n (names d) /\ glob_msm n = true
  /\ forall m, In m (names d) -> glob_msm m = true -> String.leb m n = true.
Proof.
  unfold get_latest_nc_file. intros H.
  destruct (filter glob_msm (names d)) as [|m0 l] eqn:F; [discriminate|].
  assert (Hne0 : filter glob_msm (names d) <> []) by (rewrite F; discriminate).
  rewrite <- F in H. injection H as <-.
  assert (Hne : sorted_str (filter glob_msm (names d)) <> [])
    by (apply sorted_str_nonempty; exact Hne0).
  destruct (last_of_sorted _ "" (sorted_str_sorted _) Hne) as [Hin Hmax].
  apply sorted_str_in, filter_In in Hin. destruct Hin as [Hin G].
  split; [exact Hin|]. split; [exact G|].
  intros m Hm Gm. apply Hmax, sorted_str_in, filter_In. now split.
Qed.

(** X15: [get_latest_nc_file] returns [None] exactly when no entry of the
    directory matches [MSM*.nc]; otherwise it returns an entry that matches
    the pattern and that no other matching entry follows in string order. *)
Theorem latest_nc_file_is_last_match (d : directory) :
  match get_latest_nc_file d with
  | None => forall n, In n (names d) -> glob_msm n = false
  | Some n =>
      In n (names d) /\ glob_msm n = true
      /\ forall m, In m (names d) -> glob_msm m = true ->
                   String.leb m n = true
  end.
Proof.
  destruct (get_latest_nc_file d) as [n|] eqn:E.
  - now apply latest_nc_file_some.
  - now apply latest_nc_file_none.
Qed.

(** ** The renderer's input and the reconciler's survivor *)

Lemma prefix_suffix_length (s : string) :
  startswith s "MSM" = true -> endswith s "S.nc" = true ->
  (6 <= String.length s)%nat.
Proof.
  unfold startswith, endswith. intros Hs He.
  apply starts_with_inv in Hs. apply ends_with_inv in He.
  destruct Hs as [r Hs]. destruct He as [q He].
  rewrite <- chars_length. rewrite Hs in He |- *.
  destruct r as [|a [|b [|c r]]]; [| | |simpl; lia];
    destruct q as [|x [|y [|z q]]]; simpl in He;
    try discriminate He;
    apply (f_equal (@List.length ascii)) in He; simpl in He;
    rewrite ?length_app in He; simpl in He; lia.
Qed.

Lemma dataset_matches_glob (n : string) (x : node) (t : datetime) :
  dataset_time (n, x) = Some t ->
  glob_msm n = true /\ parse_filename n = Ret (Some t)
  /\ exists data r, x = File data r.
Proof.
  unfold dataset_time. simpl. intros H.
  destruct x as [data r|]; [|discriminate].
  destruct (endswith n ".nc") eqn:E; [|discriminate].
  destruct (parse_filename n) as [[t'|]|] eqn:P; try discriminate.
  injection H as ->.
  destruct (parse_filename_cases n)
    as [N | (y & m & dd & h & t' & Hs & He & _)]; [congruence|].
  split; [|split; [reflexivity | now exists data, r]].
  unfold glob_msm. rewrite Hs, E. cbn [andb].
  apply Nat.leb_le. now apply prefix_suffix_length.
Qed.

Lemma canonical_dataset (d : directory) (t : datetime) (n : string) :
  canonical_cache d -> In (t, n) (datasets d) ->
  candidate_time t /\ n = msm_filename t
  /\ glob_msm n = true /\ In n (names d).
Proof.
  intros Hc Hin. apply in_datasets in Hin. destruct Hin as [x [Hx Hd]].
  destruct (dataset_matches_glob n x t Hd) as [G [P _]].
  destruct (Hc n x Hx G) as (t0 & data & r & _ & V & W & Y & E).
  pose proof (parse_msm_filename t0 V W Y) as P0. rewrite <- E in P0.
  assert (t0 = t) by congruence. subst t0.
  split; [exact (conj V (conj W Y))|]. split; [exact E|]. split; [exact G|].
  unfold names. apply in_map_iff. now exists (n, x).
Qed.

Lemma canonical_latest (d : directory) (n : string) :
  canonical_cache d -> get_latest_nc_file d = Some n ->
  exists t,
    In (t, n) (datasets d)
    /\ forall t' n', In (t', n') (datasets d) -> dt_leb t' t = true.
Proof.
  intros Hc E.
  destruct (latest_nc_file_some d n E) as [Hin [G Hmax]].
  unfold names in Hin. apply in_map_iff in Hin.
  destruct Hin as [[n0 x] [E0 Hx]]. simpl in E0. subst n0.
  destruct (Hc n x Hx G) as (t & data & r & -> & V & W & Y & En).
  exists t. split.
  - apply in_datasets. exists (File data r). split; [exact Hx|].
    apply parsed_file_is_dataset. rewrite En. now apply parse_msm_filename.
  - intros t' n' H'.
    destruct (canonical_dataset d t' n' Hc H') as (C' & En' & G' & Hin').
    specialize (Hmax n' Hin' G'). rewrite En, En' in Hmax.
    unfold String.leb in Hmax. unfold dt_leb.
    now rewrite <- (msm_filename_compare t' t C' (conj V (conj W Y))).
Qed.

Lemma latest_is_kept (d : directory) (n : string) :
  NoDup (names d) -> canonical_cache d -> get_latest_nc_file d = Some n ->
  cleanup_old_files d true = cleanup_result d (Some n).
Proof.
  intros Hnd Hc E.
  destruct (canonical_latest d n Hc E) as [t [Hin Hmax]].
  destruct (cleanup_old_files_spec d true Hnd) as [kept [K ->]].
  assert (Hne : datasets d <> []) by (intros Z0; rewrite Z0 in Hin; destruct Hin).
  destruct (keeps_newest d kept K Hne) as (k & tk & -> & Hk & Hkmax).
  destruct (canonical_dataset d t n Hc Hin) as ((V & W & _) & En & _).
  destruct (canonical_dataset d tk k Hc Hk) as ((Vk & Wk & _) & Ek & _).
  pose proof (proj1 (dt_leb_key _ _ Vk V) (Hmax tk k Hk)) as L1.
  pose proof (proj1 (dt_leb_key _ _ V Vk) (Hkmax t n Hin)) as L2.
  rewrite (whole_hour_key t W), (whole_hour_key tk Wk) in L1, L2.
  assert (tk = t) by (apply hkey_inj; try assumption; lia).
  subst tk. now rewrite Ek, <- En.
Qed.

Lemma renderer_none_cleanup (d : directory) :
  NoDup (names d) -> canonical_cache d -> get_latest_nc_file d = None ->
  datasets d = [] /\ cleanup_old_files d true = (d, Ret (0, 0)).
Proof.
  intros Hnd Hc E.
  assert (D : datasets d = []).
  { destruct (datasets d) as [|[t n] l] eqn:D; [reflexivity|]. exfalso.
    assert (Hin : In (t, n) (datasets d)) by (rewrite D; now left).
    destruct (canonical_dataset d t n Hc Hin) as (_ & _ & G & Hn).
    rewrite (latest_nc_file_none d E n Hn) in G. discriminate. }
  split; [exact D|].
  unfold cleanup_old_files.
  rewrite (collect_nc_spec d Hnd d (incl_refl d)), D. reflexivity.
Qed.

(** X16: in a cache where every entry matching [MSM*.nc] is a regular file
    with a downloader-made name, the file [get_latest_nc_file] hands to the
    renderer is the dataset with the newest cycle time, and it is the one
    file [cleanup_old_files(keep_latest=True)] keeps; when the renderer
    finds no file the cleanup has nothing to delete. *)
Theorem renderer_reads_what_cleanup_keeps (d : directory) :
  NoDup (names d) -> canonical_cache d ->
  match get_latest_nc_file d with
  | None => datasets d = [] /\ cleanup_old_files d true = (d, Ret (0, 0))
  | Some n =>
      cleanup_old_files d true = cleanup_result d (Some n)
      /\ exists t,
          n = msm_filename t /\ In (t, n) (datasets d)
          /\ forall t' n', In (t', n') (datasets d) -> dt_leb t' t = true
  end.
Proof.
  intros Hnd Hc. destruct (get_latest_nc_file d) as [n|] eqn:E.
  - split; [now apply latest_is_kept|].
    destruct (canonical_latest d n Hc E) as [t [Hin Hmax]].
    exists t. split; [|now split].
    now destruct (canonical_dataset d t n Hc Hin) as (_ & En & _).
  - now apply renderer_none_cleanup.
Qed.

Lemma two_cycles_and_notes_canonical : canonical_cache two_cycles_and_notes.
Proof.
  intros n x [H|[H|[H|[]]]] G; injection H as <- <-.
  - exists (mkdt 2025 10 30 21 0 0 0), four_bytes, true.
    repeat split; try reflexivity. simpl. lia.
  - discriminate G.
  - exists (mkdt 2025 10 31 0 0 0 0), four_bytes, true.
    repeat split; try reflexivity. simpl. lia.
Qed.

Lemma two_cycles_and_notes_nodup : NoDup (names two_cycles_and_notes).
Proof.
  repeat constructor; simpl; intuition discriminate.
Qed.

Lemma renderer_reads_what_cleanup_keeps_witness :
  get_latest_nc_file two_cycles_and_notes = Some "MSM2025103100S.nc"
  /\ cleanup_old_files two_cycles_and_notes true
     = cleanup_result two_cycles_and_notes (Some "MSM2025103100S.nc").
Proof.
  split; [reflexivity|].
  exact (proj1 (renderer_reads_what_cleanup_keeps two_cycles_and_notes
                  two_cycles_and_notes_nodup two_cycles_and_notes_canonical)).
Defined.

(** X17: in such a cache a cleanup that keeps the latest file does not
    change what the renderer reads: [get_latest_nc_file] gives the same
    answer on the directory [cleanup_old_files(keep_latest=True)] leaves as
    on the directory it was given. *)
Theorem cleanup_preserves_renderer_input (d : directory) :
  NoDup (names d) -> canonical_cache d ->
  get_latest_nc_file (fst (cleanup_old_files d true)) = get_latest_nc_file d.
Proof.
  intros Hnd Hc. destruct (get_latest_nc_file d) as [n|] eqn:E.
  - rewrite (latest_is_kept d n Hnd Hc E). unfold cleanup_result, fst.
    destruct (latest_nc_file_some d n E) as [Hin [G Hmax]].
    assert (Hin' : In n (names (filter (fun e => negb (is_victim (Some n) e)) d))).
    { unfold names in Hin |- *. apply in_map_iff in Hin.
      destruct Hin as [[n0 x] [E0 Hx]]. simpl in E0. subst n0.
      apply in_map_iff. exists (n, x). split; [reflexivity|].
      apply filter_In. split; [exact Hx|].
      unfold is_victim. simpl. rewrite String.eqb_refl. simpl.
      now rewrite andb_false_r. }
    destruct (get_latest_nc_file
                (filter (fun e => negb (is_victim (Some n) e)) d))
      as [m|] eqn:E'.
    + destruct (latest_nc_file_some _ m E') as [Hm [Gm Hmax']].
      f_equal. apply String.leb_antisym.
      * apply Hmax; [|exact Gm].
        unfold names in Hm |- *. apply in_map_iff in Hm.
        destruct Hm as [e [Ee He]]. apply filter_In in He.
        apply in_map_iff. exists e. now split.
      * now apply Hmax'.
    + rewrite (latest_nc_file_none _ E' n Hin') in G. discriminate.
  - destruct (renderer_none_cleanup d Hnd Hc E) as [_ ->]. exact E.
Qed.

Lemma cleanup_preserves_renderer_input_witness :
  get_latest_nc_file (fst (cleanup_old_files two_cycles_and_notes true))
  = get_latest_nc_file two_cycles_and_notes.
Proof.
  exact (cleanup_preserves_renderer_input two_cycles_and_notes
           two_cycles_and_notes_nodup two_cycles_and_notes_canonical).
Defined.

(** ** Frames and their order in the animation *)

Lemma zfill3_table : forallb (zfill_reads_back 3) (upto 1000) = true.
Proof. vm_compute. reflexivity. Qed.

Lemma zfill3_steps : forallb next_frame_follows (upto 999) = true.
Proof. vm_compute. reflexivity. Qed.

Lemma zfill3 (n : Z) :
  0 <= n <= 999 ->
  String.length (zfill 3 n) = 3%nat /\ py_int (chars (zfill 3 n)) = Ret n.
Proof.
  intros H. apply zfill_reads_back_spec.
  pose proof zfill3_table as T. rewrite forallb_forall in T.
  apply T. apply in_upto. lia.
Qed.

Lemma append_inj_l (a b c d : string) :
  String.length a = String.length b -> a +++ c = b +++ d -> a = b.
Proof.
  revert b. induction a as [|x a IH]; intros [|y b]; simpl; try discriminate.
  - reflexivity.
  - intros L E. injection L as L. injection E as -> E. f_equal. now apply IH.
Qed.

Lemma append_inj_r (a c d : string) : a +++ c = a +++ d -> c = d.
Proof.
  induction a as [|x a IH]; simpl; [auto|].
  intros E. injection E as E. now apply IH.
Qed.

Lemma frame_name_inj (i j : nat) :
  (i < 1000)%nat -> (j < 1000)%nat -> frame_name i = frame_name j -> i = j.
Proof.
  intros Hi Hj E. unfold frame_name in E.
  apply append_inj_r in E.
  destruct (zfill3 (Z.of_nat i) ltac:(lia)) as [Li Pi].
  destruct (zfill3 (Z.of_nat j) ltac:(lia)) as [Lj Pj].
  apply append_inj_l in E; [|congruence].
  rewrite E in Pi. assert (Z.of_nat i = Z.of_nat j) by congruence. lia.
Qed.

Lemma frame_name_step (i : nat) :
  (S i < 1000)%nat -> String.leb (frame_name i) (frame_name (S i)) = true.
Proof.
  intros Hi. pose proof zfill3_steps as T. rewrite forallb_forall in T.
  specialize (T (Z.of_nat i) (in_upto 999 (Z.of_nat i) ltac:(lia))).
  unfold next_frame_follows in T.
  replace (Z.of_nat i + 1) with (Z.of_nat (S i)) in T by lia.
  destruct (zfill3 (Z.of_nat i) ltac:(lia)) as [Li _].
  destruct (zfill3 (Z.of_nat (S i)) ltac:(lia)) as [Lj _].
  unfold String.leb in T |- *. unfold frame_name.
  rewrite (compare_append "cloud_" "cloud_") by reflexivity.
  change (String.compare "cloud_" "cloud_") with Eq. cbv iota.
  rewrite compare_append by congruence.
  destruct (String.compare (zfill 3 (Z.of_nat i)) (zfill 3 (Z.of_nat (S i))));
    [reflexivity | reflexivity | discriminate].
Qed.

Lemma frames_already_sorted (k : nat) :
  forall a, (a + k <= 1000)%nat ->
  sorted_str (map frame_name (seq a k)) = map frame_name (seq a k).
Proof.
  induction k as [|k IH]; intros a H; [reflexivity|].
  cbn [seq map sorted_str fold_right]. fold (sorted_str (map frame_name (seq (S a) k))).
  rewrite IH by lia.
  destruct k as [|k]; [reflexivity|].
  cbn [seq map insert_str]. now rewrite frame_name_step by lia.
Qed.

Lemma frames_all_globbed (l : list nat) :
  filter (fun f => startswith f "cloud_" && endswith f ".png"
                   && (10 <=? String.length f)%nat) (map frame_name l)
  = map frame_name l.
Proof.
  induction l as [|i l IH]; [reflexivity|].
  cbn [map filter]. now rewrite frame_name_globbed, IH.
Qed.

Section MoreTempDirs.
Implicit Types dirs : list (string * list string).

Lemma dir_files_set_other dirs (n m : string) fs :
  String.eqb n m = false ->
  dir_files (set_files dirs n fs) m = dir_files dirs m.
Proof.
  intros H. induction dirs as [|[k old] dirs IH]; simpl.
  - now rewrite H.
  - destruct (String.eqb k n) eqn:E; simpl.
    + apply String.eqb_eq in E. subst k. now rewrite H.
    + now rewrite IH.
Qed.


Lemma drop_dir_absent dirs (n : string) :
  dir_files dirs n = None -> drop_dir dirs n = dirs.
Proof.
  induction dirs as [|[k old] dirs IH]; simpl; [reflexivity|].
  destruct (String.eqb k n); [discriminate|]. intros H. now rewrite IH.
Qed.
End MoreTempDirs.

Lemma render_frames_fresh (t : string) (k : nat) :
  forall a w,
    dir_files (temp_dirs w) t = Some (map frame_name (seq 0 a)) ->
    (a + k <= 1000)%nat ->
    dir_files (temp_dirs (render_frames w t (seq a k))) t
    = Some (map frame_name (seq 0 (a + k)))
    /\ drop_dir (temp_dirs (render_frames w t (seq a k))) t
       = drop_dir (temp_dirs w) t
    /\ artifacts (render_frames w t (seq a k)) = artifacts w.
Proof.
  induction k as [|k IH]; intros a w H Hb.
  - rewrite Nat.add_0_r. simpl. auto.
  - assert (Hnew : str_in (frame_name a) (map frame_name (seq 0 a)) = false).
    { destruct (str_in _ _) eqn:E; [|reflexivity]. exfalso.
      unfold str_in in E. apply existsb_exists in E.
      destruct E as [x [Hx Ex]]. apply String.eqb_eq in Ex. subst x.
      apply in_map_iff in Hx. destruct Hx as [j [Ej Hj]]. apply in_seq in Hj.
      apply frame_name_inj in Ej; lia. }
    cbn [seq render_frames].
    destruct (IH (S a) (savefig w t (frame_name a))) as [R1 [R2 R3]].
    + unfold savefig. rewrite H. cbn [temp_dirs].
      rewrite dir_files_set_same, Hnew, seq_S, map_app. reflexivity.
    + lia.
    + rewrite Nat.add_succ_r, <- Nat.add_succ_l. split; [exact R1|].
      rewrite R2, R3. unfold savefig. rewrite H. cbn [temp_dirs artifacts].
      now rewrite drop_set.
Qed.

Lemma encode_variant_fresh (n : nat) (c : gif_config) (w : workspace) :
  (0 < n <= 1000)%nat -> dir_files (temp_dirs w) (temp_dir_of c) = None ->
  exists w',
    encode_variant n c w = (w', Ret (filename c))
    /\ temp_dirs w' = temp_dirs w
    /\ artifacts w'
       = set_files (artifacts w) (filename c) (map frame_name (seq 0 n)).
Proof.
  intros Hn Hfresh. unfold encode_variant. fold (temp_dir_of c).
  set (t := temp_dir_of c) in *.
  unfold makedirs. rewrite Hfresh.
  set (w1 := mkws (temp_dirs w ++ [(t, [])]) (artifacts w)).
  assert (H1 : dir_files (temp_dirs w1) t = Some (map frame_name (seq 0 0))).
  { simpl. rewrite dir_files_app, Hfresh. simpl. now rewrite String.eqb_refl. }
  destruct (render_frames_fresh t n 0 w1 H1 ltac:(lia)) as [R1 [R2 R3]].
  simpl Nat.add in R1.
  unfold glob_frames. rewrite R1, frames_all_globbed.
  rewrite (frames_already_sorted n 0) by lia.
  destruct (map frame_name (seq 0 n)) as [|img images] eqn:M.
  { apply (f_equal (@List.length string)) in M.
    rewrite length_map, length_seq in M. simpl in M. lia. }
  unfold rmtree. cbn [temp_dirs]. rewrite R1.
  eexists. split; [reflexivity|]. cbn [temp_dirs artifacts].
  rewrite R2, R3. subst w1. cbn [temp_dirs artifacts].
  rewrite drop_app_new, (drop_dir_absent _ _ Hfresh). auto.
Qed.

Lemma encode_all_fresh (n : nat) :
  (0 < n <= 1000)%nat ->
  forall cs w generated,
    (forall c, In c cs -> dir_files (temp_dirs w) (temp_dir_of c) = None) ->
    exists w',
      encode_all n cs w generated
      = (w', Ret (fold_left (fun g c => set_files g (name c) (filename c))
                            cs generated))
      /\ temp_dirs w' = temp_dirs w
      /\ artifacts w'
         = fold_left (fun a c => set_files a (filename c)
                                   (map frame_name (seq 0 n)))
                     cs (artifacts w).
Proof.
  intros Hn. induction cs as [|c cs IH]; intros w generated Hfresh.
  - exists w. auto.
  - destruct (encode_variant_fresh n c w Hn (Hfresh c (or_introl eq_refl)))
      as [w1 [E1 [T1 A1]]].
    cbn [encode_all fold_left]. rewrite E1.
    destruct (IH w1 (set_files generated (name c) (filename c)))
      as [w2 [E2 [T2 A2]]].
    { intros c' Hc'. rewrite T1. apply Hfresh. now right. }
    exists w2. rewrite E2, T2, A2, T1, A1. auto.
Qed.

Lemma written_artifact_stays (frames : list string) (f : string)
      (cs : list gif_config) :
  forall arts,
    (exists c, In c cs /\ filename c = f) \/ dir_files arts f = Some frames ->
    dir_files (fold_left (fun a c => set_files a (filename c) frames) cs arts) f
    = Some frames.
Proof.
  induction cs as [|c cs IH]; intros arts H; cbn [fold_left].
  - destruct H as [[c [[] _]]|H]; exact H.
  - apply IH. destruct (String.eqb (filename c) f) eqn:E.
    + right. apply String.eqb_eq in E. subst f. apply dir_files_set_same.
    + destruct H as [[c' [[<-|Hin] Hf]]|H].
      * rewrite Hf, String.eqb_refl in E. discriminate.
      * left. now exists c'.
      * right. now rewrite dir_files_set_other.
Qed.

(** X18: when [generate_cloud_gifs] starts with none of its
    [cloud_temp_{name}] directories present and the filtered time axis has
    between 1 and 1000 steps, it returns the four output paths keyed by
    variant name, and every animation holds exactly the frames
    [cloud_000.png], [cloud_001.png], ... of its time steps, one per step and
    in the order of the time axis; no frame directory is left. *)
Theorem frames_encoded_in_time_order (times : list Z) (jst_now : Z)
        (w : workspace) :
  times <> [] ->
  (List.length (select_times times jst_now) <= 1000)%nat ->
  (forall c, In c gif_configs -> dir_exists w (temp_dir_of c) = false) ->
  exists w',
    generate_cloud_gifs times jst_now w
    = (w', Ret [("all_layers", "cloud_all_layers.gif");
                ("low_only", "cloud_low_only.gif");
                ("mid_only", "cloud_mid_only.gif");
                ("upper_only", "cloud_upper_only.gif")])
    /\ temp_dirs w' = temp_dirs w
    /\ forall c, In c gif_configs ->
         dir_files (artifacts w') (filename c)
         = Some (map frame_name
                     (seq 0 (List.length (select_times times jst_now)))).
Proof.
  intros Hne Hmax Hfresh. unfold generate_cloud_gifs.
  set (n := List.length (select_times times jst_now)) in *.
  assert (Hn : (0 < n <= 1000)%nat).
  { split; [|exact Hmax]. subst n.
    pose proof (select_times_nonempty times jst_now Hne) as H.
    destruct (select_times times jst_now); [congruence | simpl; lia]. }
  destruct (encode_all_fresh n Hn gif_configs w []) as [w' [E [T A]]].
  { intros c Hc. specialize (Hfresh c Hc). unfold dir_exists in Hfresh.
    now destruct (dir_files (temp_dirs w) (temp_dir_of c)). }
  exists w'. split; [exact E|]. split; [exact T|].
  intros c Hc. rewrite A. apply written_artifact_stays. left. now exists c.
Qed.

Lemma frames_encoded_in_time_order_witness :
  exists w',
    generate_cloud_gifs [100; 200; 300] 0 (mkws [] [])
    = (w', Ret [("all_layers", "cloud_all_layers.gif");
                ("low_only", "cloud_low_only.gif");
                ("mid_only", "cloud_mid_only.gif");
                ("upper_only", "cloud_upper_only.gif")])
    /\ temp_dirs w' = []
    /\ forall c, In c gif_configs ->
         dir_files (artifacts w') (filename c)
         = Some ["cloud_000.png"; "cloud_001.png"; "cloud_002.png"].
Proof.
  apply (frames_encoded_in_time_order [100; 200; 300] 0 (mkws [] []));
    [discriminate | vm_compute; lia | reflexivity].
Defined.

(** *** Frames found in the frame directory *)






(** ** [download_manual] *)

(** *** What [strptime] accepts *)

Lemma first_match_some {A : Type} (alts : list alternative)
      (k : list ascii -> list ascii -> option A) (l : list ascii) (x : A) :
  first_match alts k l = Some x ->
  exists alt g r, In alt alts /\ alt l = Some (g, r) /\ k g r = Some x.
Proof.
  induction alts as [|alt alts IH]; simpl; [discriminate|].
  intros H.
  assert (Later : first_match alts k l = Some x ->
                  exists alt0 g r,
                    (alt = alt0 \/ In alt0 alts)
                    /\ alt0 l = Some (g, r) /\ k g r = Some x).
  { intros H'. destruct (IH H') as (alt0 & g & r & Hin & R).
    exists alt0, g, r. split; [now right | exact R]. }
  destruct (alt l) as [[g r]|] eqn:E; [|now apply Later].
  destruct (k g r) as [y|] eqn:K; [|now apply Later].
  injection H as ->. exists alt, g, r. auto.
Qed.

Lemma one_takes (p : ascii -> bool) (l g r : list ascii) :
  one p l = Some (g, r) -> l = g ++ r /\ (1 <= List.length g <= 2)%nat.
Proof.
  unfold one. destruct l as [|a l]; [discriminate|].
  destruct (p a); [|discriminate]. intros H. injection H as <- <-.
  simpl. split; [reflexivity | lia].
Qed.

Lemma two_takes (p q : ascii -> bool) (l g r : list ascii) :
  two p q l = Some (g, r) -> l = g ++ r /\ List.length g = 2%nat.
Proof.
  unfold two. destruct l as [|a [|b l]]; try discriminate.
  destruct (p a && q b); [|discriminate]. intros H. injection H as <- <-.
  simpl. split; reflexivity.
Qed.

Lemma alternative_takes_prefix (alt : alternative) (l g r : list ascii) :
  In alt month_alternatives \/ In alt day_alternatives ->
  alt l = Some (g, r) -> l = g ++ r /\ (1 <= List.length g <= 2)%nat.
Proof.
  intros [H|H] E.
  - destruct H as [<-|[<-|[<-|[]]]];
      try (destruct (two_takes _ _ _ _ _ E) as [-> ->]; split; [reflexivity | lia]);
      now apply one_takes in E.
  - destruct H as [<-|[<-|[<-|[<-|[<-|[]]]]]];
      try (destruct (two_takes _ _ _ _ _ E) as [-> ->]; split; [reflexivity | lia]);
      now apply one_takes in E.
Qed.

Lemma match_Ymd_shape (l Y m d rest : list ascii) :
  match_Ymd l = Some (Y, m, d, rest) ->
  l = Y ++ m ++ d ++ rest
  /\ List.length Y = 4%nat
  /\ (1 <= List.length m <= 2)%nat /\ (1 <= List.length d <= 2)%nat.
Proof.
  unfold match_Ymd.
  destruct l as [|y1 [|y2 [|y3 [|y4 r]]]]; try discriminate.
  destruct (is_digit y1 && is_digit y2 && is_digit y3 && is_digit y4);
    [|discriminate].
  intros H.
  apply first_match_some in H. destruct H as (am & gm & r1 & Hm & Em & H).
  apply first_match_some in H. destruct H as (ad & gd & r2 & Hd & Ed & H).
  injection H as <- <- <- <-.
  destruct (alternative_takes_prefix am r gm r1 (or_introl Hm) Em) as [-> Lm].
  destruct (alternative_takes_prefix ad r1 gd r2 (or_intror Hd) Ed) as [-> Ld].
  repeat split; try reflexivity; lia.
Qed.

Lemma strptime_raises_value_error (s : string) (e : exn) :
  strptime_Ymd s = Raise e -> e = ValueError.
Proof.
  unfold strptime_Ymd.
  destruct (match_Ymd (chars s)) as [[[[Y m] d] rest]|]; [|congruence].
  destruct rest; [|congruence].
  destruct (py_int Y) as [y|e1] eqn:EY; simpl;
    [|intros H; injection H as <-; now apply py_int_raises_value_error in EY].
  destruct (py_int m) as [mo|e2] eqn:EM; simpl;
    [|intros H; injection H as <-; now apply py_int_raises_value_error in EM].
  destruct (py_int d) as [da|e3] eqn:ED; simpl;
    [|intros H; injection H as <-; now apply py_int_raises_value_error in ED].
  unfold new_datetime. destruct (_ && _); [discriminate | congruence].
Qed.

(** The groups of an accepted date. *)
Lemma strptime_fields (s : string) (dt : datetime) :
  strptime_Ymd s = Ret dt ->
  exists Y m d,
    chars s = Y ++ m ++ d
    /\ List.length Y = 4%nat
    /\ (1 <= List.length m <= 2)%nat /\ (1 <= List.length d <= 2)%nat
    /\ py_int Y = Ret (year dt) /\ py_int m = Ret (month dt)
    /\ py_int d = Ret (day dt)
    /\ date_ok (year dt) (month dt) (day dt) = true.
Proof.
  unfold strptime_Ymd.
  destruct (match_Ymd (chars s)) as [[[[Y m] d] rest]|] eqn:M; [|discriminate].
  destruct rest; [|discriminate].
  destruct (match_Ymd_shape _ _ _ _ _ M) as (E & LY & Lm & Ld).
  rewrite app_nil_r in E.
  destruct (py_int Y) as [y|] eqn:EY; [|discriminate].
  destruct (py_int m) as [mo|] eqn:EM; [|discriminate].
  destruct (py_int d) as [da|] eqn:ED; [|discriminate].
  simpl. intros H.
  destruct (new_datetime_ret _ _ _ _ _ H) as [-> _].
  unfold new_datetime in H.
  destruct (date_ok y mo da) eqn:D; [|discriminate].
  exists Y, m, d. simpl. auto 10.
Qed.

(** *** The [try] block *)

Lemma with_hour_cases (t : datetime) (h : Z) :
  (0 <= h <= 23
   /\ with_hour t h = Ret (mkdt (year t) (month t) (day t) h
                                (minute t) (second t) (microsecond t)))
  \/ (- 2147483648 <= h < 2147483648 /\ ~ 0 <= h <= 23
      /\ with_hour t h = Raise ValueError)
  \/ (~ - 2147483648 <= h < 2147483648
      /\ with_hour t h = Raise OverflowError).
Proof.
  unfold with_hour.
  change (- 2 ^ 31) with (-2147483648). change (2 ^ 31) with 2147483648.
  destruct (h <? - 2147483648) eqn:E1; [right; right; split; [|reflexivity]|].
  { apply Z.ltb_lt in E1. lia. }
  destruct (2147483648 <=? h) eqn:E2; [right; right; split; [|reflexivity]|].
  { apply Z.leb_le in E2. lia. }
  apply Z.ltb_ge in E1. apply Z.leb_gt in E2. cbn [orb].
  destruct ((0 <=? h) && (h <=? 23)) eqn:R.
  - apply andb_prop in R. destruct R as [R1 R2].
    apply Z.leb_le in R1. apply Z.leb_le in R2. left. split; [lia | reflexivity].
  - right. left. split; [lia|]. split; [|reflexivity].
    apply andb_false_iff in R.
    destruct R as [R|R]; apply Z.leb_gt in R; lia.
Qed.

Lemma validate_manual_true (cfg : config) (s : string) (h : Z) :
  validate_manual cfg s h = Ret true ->
  exists dt,
    strptime_Ymd s = Ret dt /\ 0 <= h <= 23 /\ In h (forecast_hours cfg).
Proof.
  unfold validate_manual, catch.
  destruct (strptime_Ymd s) as [dt|e]; simpl.
  - destruct (with_hour_cases dt h) as [[R ->]|[[_ [_ ->]]|[_ ->]]]; simpl;
      try discriminate.
    intros H. injection H as H. apply existsb_exists in H.
    destruct H as [x [Hx E]]. apply Z.eqb_eq in E. subst x.
    exists dt. auto.
  - destruct (exn_eqb e ValueError || false); discriminate.
Qed.

Lemma validate_manual_false (cfg : config) (s : string) (h : Z) :
  (forall dt, strptime_Ymd s <> Ret dt)
  \/ (- 2147483648 <= h < 2147483648
      /\ (~ 0 <= h <= 23 \/ ~ In h (forecast_hours cfg))) ->
  validate_manual cfg s h = Ret false.
Proof.
  intros H. unfold validate_manual, catch.
  destruct (strptime_Ymd s) as [dt|e] eqn:S; simpl.
  - destruct H as [H|[Hc H]]; [now destruct (H dt)|].
    destruct (with_hour_cases dt h) as [[R ->]|[[_ [_ ->]]|[Ho _]]]; simpl.
    + destruct (existsb (Z.eqb h) (forecast_hours cfg)) eqn:E; [|reflexivity].
      exfalso. apply existsb_exists in E. destruct E as [x [Hx E]].
      apply Z.eqb_eq in E. subst x. destruct H as [H|H]; now apply H.
    + reflexivity.
    + now destruct Ho.
  - now rewrite (strptime_raises_value_error s e S).
Qed.

Lemma validate_manual_overflow (cfg : config) (s : string) (h : Z)
      (dt : datetime) :
  strptime_Ymd s = Ret dt -> ~ - 2147483648 <= h < 2147483648 ->
  validate_manual cfg s h = Raise OverflowError.
Proof.
  intros S Ho. unfold validate_manual, catch. rewrite S. simpl.
  destruct (with_hour_cases dt h) as [[R _]|[[R _]|[_ ->]]];
    [lia | lia | reflexivity].
Qed.

(** X20: [download_manual] answers [False] and leaves the cache directory as
    it is, nothing deleted and nothing fetched, when the date is not one
    [strptime] reads with ['%Y%m%d'], and, for an hour that fits a C [int],
    when the hour is outside 0..23 or is not one of the configured cycle
    hours.  An hour beyond 32 bits is not caught: with a date [strptime]
    reads, [replace] raises [OverflowError] through the [except ValueError],
    the cache directory as it was. *)
Theorem manual_rejects_without_effect
        (cfg : config) (date_str : string) (hour : Z)
        (net : string -> http_reply) (env : nat -> attempt) (d : directory) :
  ((forall dt, strptime_Ymd date_str <> Ret dt)
   \/ (- 2147483648 <= hour < 2147483648
       /\ (~ 0 <= hour <= 23 \/ ~ In hour (forecast_hours cfg))) ->
   download_manual cfg date_str hour net env d = (d, Ret false))
  /\ ((exists dt, strptime_Ymd date_str = Ret dt) ->
      ~ - 2147483648 <= hour < 2147483648 ->
      download_manual cfg date_str hour net env d = (d, Raise OverflowError)).
Proof.
  split.
  - intros H. unfold download_manual.
    now rewrite (validate_manual_false cfg date_str hour H).
  - intros [dt S] Ho. unfold download_manual.
    now rewrite (validate_manual_overflow cfg date_str hour dt S Ho).
Qed.

Lemma manual_rejects_without_effect_witness :
  download_manual sample_config "20250230" 3 only_03_answers arrives_whole
    three_files
  = (three_files, Ret false).
Proof.
  apply (proj1 (manual_rejects_without_effect sample_config "20250230" 3
                  only_03_answers arrives_whole three_files)).
  left. intros dt H. vm_compute in H. discriminate H.
Defined.

(** *** The name of the target *)

Lemma manual_target_full (date_str : string) (hour : Z) (dt : datetime) :
  strptime_Ymd date_str = Ret dt -> 0 <= hour <= 23 ->
  String.length date_str = 8%nat ->
  parse_filename (manual_filename date_str hour)
  = Ret (Some (mkdt (year dt) (month dt) (day dt) hour 0 0 0)).
Proof.
  intros S Hh L.
  destruct (strptime_fields date_str dt S)
    as (Y & m & d & E & LY & Lm & Ld & PY & Pm & Pd & D).
  assert (L' : List.length (chars date_str) = 8%nat)
    by now rewrite chars_length.
  rewrite E, !length_app in L'.
  destruct Y as [|y1 [|y2 [|y3 [|y4 [|? ?]]]]]; try discriminate LY.
  destruct m as [|m1 [|m2 [|? ?]]]; simpl in Lm, L'; try lia.
  destruct d as [|d1 [|d2 [|? ?]]]; simpl in Ld, L'; try lia.
  assert (Es : date_str
               = String y1 (String y2 (String y3 (String y4
                   (String m1 (String m2 (String d1 (String d2 ""))))))))
    by (rewrite <- (string_of_list_ascii_of_string date_str);
        unfold chars in E; now rewrite E).
  destruct (zfill2 hour ltac:(lia)) as [Lh Ph].
  destruct (string_length2 _ Lh) as [h1 [h2 Eh]].
  unfold manual_filename. rewrite Eh in Ph |- *. rewrite Es.
  cbn [String.append]. unfold parse_filename. rewrite parse_seventeen.
  cbn [chars list_ascii_of_string] in Ph.
  rewrite PY, Pm, Pd, Ph. cbn [bind]. unfold new_datetime. rewrite D.
  assert ((0 <=? hour) = true) as -> by (apply Z.leb_le; lia).
  assert ((hour <=? 23) = true) as -> by (apply Z.leb_le; lia).
  reflexivity.
Qed.

(** X21: the file [download_manual] saves is named from the date as typed.
    For an accepted request the name parses back, with [parse_filename], to
    the requested date and hour exactly when the date has eight characters;
    a date [strptime] accepts in fewer characters (a month or a day without
    its leading zero) gives a name [parse_filename] does not read, so the
    saved file is not a dataset for [cleanup_old_files]. *)
Theorem manual_target_parses_back
        (cfg : config) (date_str : string) (hour : Z) (dt : datetime) :
  validate_manual cfg date_str hour = Ret true ->
  strptime_Ymd date_str = Ret dt ->
  (String.length date_str <= 8)%nat
  /\ parse_filename (manual_filename date_str hour)
     = Ret (if (String.length date_str =? 8)%nat
            then Some (mkdt (year dt) (month dt) (day dt) hour 0 0 0)
            else None).
Proof.
  intros V S.
  destruct (validate_manual_true cfg date_str hour V) as (dt' & _ & Hh & _).
  destruct (strptime_fields date_str dt S)
    as (Y & m & d & E & LY & Lm & Ld & _).
  assert (L : (String.length date_str <= 8)%nat).
  { rewrite <- chars_length, E, !length_app. lia. }
  split; [exact L|].
  destruct (String.length date_str =? 8)%nat eqn:L8.
  - apply Nat.eqb_eq in L8. now apply manual_target_full.
  - apply Nat.eqb_neq in L8. apply short_name_unparsed.
    destruct (zfill2 hour ltac:(lia)) as [Lh _].
    unfold manual_filename. rewrite !string_length_app, Lh. simpl. lia.
Qed.

Lemma manual_target_parses_back_witness :
  (String.length "2025115" <= 8)%nat
  /\ parse_filename (manual_filename "2025115" 0) = Ret None.
Proof.
  apply (manual_target_parses_back sample_config "2025115" 0
           (mkdt 2025 11 5 0 0 0 0)); vm_compute; reflexivity.
Defined.

(** *** The cache after a manual fetch *)




